(** * Webhook ingestion backend: signature gate, message store, metrics.

    A shallow embedding of [app/main.py], [app/storage.py], [app/metrics.py]
    and [app/logging_utils.py], with the properties of the specification
    stated and settled against it.

    Conventions.
    - A Python [str] is a [string]: the sequence of its characters, each an
      [ascii], that is a code point in 0..255.  This is exactly what a
      header value decoded by the HTTP layer contains; message text with
      characters beyond U+00FF is outside the model.  Strings are ordered
      by code point, as Python orders [str] and as SQLite's BINARY
      collation orders [TEXT].
    - A Python [bytes] is a [list byte].
    - A Python exception is a value of [exn]; a function that may raise
      returns a [result].
    - State is passed explicitly: the table of the store, the registry of
      the metrics, and both together in the pipeline. *)

From Stdlib Require Import ZArith Lia List Bool String Ascii.
From Stdlib Require Import Strings.Byte.
From Stdlib Require Import Sorted Permutation QArith.
Import ListNotations.

Local Open Scope string_scope.
Local Open Scope list_scope.
Local Open Scope Z_scope.

(* ================================================================== *)
(** * [hashlib.sha256] and [hmac.new(...).hexdigest()]

    The two library primitives [verify_signature] calls, written out after
    FIPS 180-4 and RFC 2104 so that the gate can be run on concrete
    requests. *)
(* ================================================================== *)

Module Sha256.

Definition w32 (x : Z) : Z := Z.land x 0xFFFFFFFF.
Definition add32 (x y : Z) : Z := w32 (x + y).
Definition rotr (n x : Z) : Z :=
  Z.lor (Z.shiftr x n) (w32 (Z.shiftl x (32 - n))).
Definition not32 (x : Z) : Z := Z.lxor x 0xFFFFFFFF.

Definition Ch (x y z : Z) : Z :=
  Z.lxor (Z.land x y) (Z.land (not32 x) z).
Definition Maj (x y z : Z) : Z :=
  Z.lxor (Z.lxor (Z.land x y) (Z.land x z)) (Z.land y z).
Definition bsig0 (x : Z) : Z :=
  Z.lxor (Z.lxor (rotr 2 x) (rotr 13 x)) (rotr 22 x).
Definition bsig1 (x : Z) : Z :=
  Z.lxor (Z.lxor (rotr 6 x) (rotr 11 x)) (rotr 25 x).
Definition ssig0 (x : Z) : Z :=
  Z.lxor (Z.lxor (rotr 7 x) (rotr 18 x)) (Z.shiftr x 3).
Definition ssig1 (x : Z) : Z :=
  Z.lxor (Z.lxor (rotr 17 x) (rotr 19 x)) (Z.shiftr x 10).

(** The first 64 primes. *)
Definition is_prime (n : Z) : bool :=
  forallb (fun d => negb (n mod Z.of_nat d =? 0)) (seq 2 (Z.to_nat n - 2)).

Definition primes : list Z :=
  filter is_prime (map Z.of_nat (seq 2 310)).

(** Integer cube root, one bit at a time from bit [bits - 1] down. *)
Fixpoint cube_root (bits : nat) (n r : Z) : Z :=
  match bits with
  | O => r
  | S b =>
      let r' := r + 2 ^ Z.of_nat b in
      cube_root b n (if r' * r' * r' <=? n then r' else r)
  end.

(** The first 32 bits of the fractional part of the cube root of each
    prime (FIPS 180-4, 4.2.2). *)
Definition round_constants : list Z :=
  Eval vm_compute in
    map (fun p => w32 (cube_root 40 (p * 2 ^ 96) 0)) primes.

Record hstate : Type := HState
  { ha : Z; hb : Z; hc : Z; hd : Z; he : Z; hf : Z; hg : Z; hh : Z }.

(** The first 32 bits of the fractional part of the square root of a
    prime (FIPS 180-4, 5.3.3). *)
Definition sqrt_frac (p : Z) : Z := w32 (Z.sqrt (p * 2 ^ 64)).

Definition initial_hash : hstate :=
  Eval vm_compute in
    HState (sqrt_frac 2) (sqrt_frac 3) (sqrt_frac 5) (sqrt_frac 7)
           (sqrt_frac 11) (sqrt_frac 13) (sqrt_frac 17) (sqrt_frac 19).

Definition zbyte (b : byte) : Z := Z.of_N (Byte.to_N b).

Definition byte_of_Z (z : Z) : byte :=
  match Byte.of_N (Z.to_N (Z.land z 0xFF)) with
  | Some b => b
  | None => x00
  end.

(** Big-endian words of a block. *)
Fixpoint words_of_bytes (bs : list byte) : list Z :=
  match bs with
  | b0 :: b1 :: b2 :: b3 :: rest =>
      (zbyte b0 * 0x1000000 + zbyte b1 * 0x10000 + zbyte b2 * 0x100 + zbyte b3)
        :: words_of_bytes rest
  | _ => []
  end.

Definition bytes_of_word (w : Z) : list byte :=
  [ byte_of_Z (Z.shiftr w 24); byte_of_Z (Z.shiftr w 16);
    byte_of_Z (Z.shiftr w 8); byte_of_Z w ].

(** Message schedule; [rw] holds the words computed so far, newest
    first. *)
Fixpoint schedule (n : nat) (rw : list Z) : list Z :=
  match n with
  | O => rw
  | S n' =>
      let wt := add32 (add32 (ssig1 (nth 1 rw 0)) (nth 6 rw 0))
                      (add32 (ssig0 (nth 14 rw 0)) (nth 15 rw 0)) in
      schedule n' (wt :: rw)
  end.

Definition round (s : hstate) (kw : Z * Z) : hstate :=
  let t1 := add32 (add32 (add32 (hh s) (bsig1 (he s)))
                         (add32 (Ch (he s) (hf s) (hg s)) (fst kw)))
                  (snd kw) in
  let t2 := add32 (bsig0 (ha s)) (Maj (ha s) (hb s) (hc s)) in
  HState (add32 t1 t2) (ha s) (hb s) (hc s)
         (add32 (hd s) t1) (he s) (hf s) (hg s).

Definition compress (s : hstate) (block : list byte) : hstate :=
  let ws := rev (schedule 48 (rev (words_of_bytes block))) in
  let t := fold_left round (combine round_constants ws) s in
  HState (add32 (ha s) (ha t)) (add32 (hb s) (hb t))
         (add32 (hc s) (hc t)) (add32 (hd s) (hd t))
         (add32 (he s) (he t)) (add32 (hf s) (hf t))
         (add32 (hg s) (hg t)) (add32 (hh s) (hh t)).

Definition length_bytes (bits : Z) : list byte :=
  map (fun i => byte_of_Z (Z.shiftr bits (8 * i))) [7; 6; 5; 4; 3; 2; 1; 0].

Definition pad (msg : list byte) : list byte :=
  let len := Z.of_nat (List.length msg) in
  let k := Z.to_nat ((55 - len) mod 64) in
  msg ++ x80 :: repeat x00 k ++ length_bytes (8 * len).

Fixpoint blocks (fuel : nat) (s : hstate) (bs : list byte) : hstate :=
  match fuel with
  | O => s
  | S fuel' =>
      match bs with
      | [] => s
      | _ => blocks fuel' (compress s (firstn 64 bs)) (skipn 64 bs)
      end
  end.

Definition digest (msg : list byte) : list byte :=
  let p := pad msg in
  let s := blocks (List.length p) initial_hash p in
  bytes_of_word (ha s) ++ bytes_of_word (hb s) ++
  bytes_of_word (hc s) ++ bytes_of_word (hd s) ++
  bytes_of_word (he s) ++ bytes_of_word (hf s) ++
  bytes_of_word (hg s) ++ bytes_of_word (hh s).

End Sha256.

Module Hmac.

Definition block_size : nat := 64.

Definition xor_byte (c : Z) (b : byte) : byte :=
  Sha256.byte_of_Z (Z.lxor (Sha256.zbyte b) c).

(** [hmac.new(key, msg, hashlib.sha256).digest()] *)
Definition digest (key msg : list byte) : list byte :=
  let k0 := if (block_size <? List.length key)%nat then Sha256.digest key else key in
  let k := k0 ++ repeat x00 (block_size - List.length k0) in
  Sha256.digest (map (xor_byte 0x5c) k ++
                 Sha256.digest (map (xor_byte 0x36) k ++ msg)).

Definition hex_digit (n : Z) : ascii :=
  nth (Z.to_nat n)
      (list_ascii_of_string "0123456789abcdef") "0"%char.

Fixpoint hex (bs : list byte) : string :=
  match bs with
  | [] => EmptyString
  | b :: rest =>
      String (hex_digit (Z.shiftr (Sha256.zbyte b) 4))
        (String (hex_digit (Z.land (Sha256.zbyte b) 0xF)) (hex rest))
  end.

(** [hmac.new(key, msg, hashlib.sha256).hexdigest()] *)
Definition hexdigest (key msg : list byte) : string := hex (digest key msg).

End Hmac.

Definition bytes_of_string (s : string) : list byte :=
  map byte_of_ascii (list_ascii_of_string s).

(* ================================================================== *)
(** * Python values and exceptions *)
(* ================================================================== *)

(** The exceptions the modelled code can raise.  [HTTPException] is
    FastAPI's; [TypeError] is what [hmac.compare_digest] raises on a [str]
    with a non-ASCII character; [IndexError] is a list index out of
    range; [IntegrityError] is [aiosqlite]'s, with its message. *)
Inductive exn : Type :=
| HTTPException (status_code : Z) (detail : string)
| TypeError
| IndexError
| IntegrityError (msg : string).

Inductive result (A : Type) : Type :=
| Ok (a : A)
| Raise (e : exn).
Arguments Ok {A} a.
Arguments Raise {A} e.

Definition bind {A B : Type} (r : result A) (k : A -> result B) : result B :=
  match r with
  | Ok a => k a
  | Raise e => Raise e
  end.

Notation "'do' x <- r ; k" := (bind r (fun x => k))
  (at level 10, x name, r at level 100, k at level 200).

(** Truth value of an [Optional[str]]: [None] and [""] are falsy. *)
Definition truthy (o : option string) : bool :=
  match o with
  | Some (String _ _) => true
  | _ => false
  end.

(** [a or b] on [Optional[str]]. *)
Definition py_or (a b : option string) : option string :=
  if truthy a then a else b.

Definition code (c : ascii) : Z := Z.of_N (N_of_ascii c).

Definition is_ascii (s : string) : bool :=
  forallb (fun c => code c <? 128) (list_ascii_of_string s).

(** [str.encode()]: UTF-8. *)
Definition encode (s : string) : list byte :=
  flat_map
    (fun c =>
       if code c <? 128 then [Sha256.byte_of_Z (code c)]
       else [Sha256.byte_of_Z (Z.lor 0xC0 (Z.shiftr (code c) 6));
             Sha256.byte_of_Z (Z.lor 0x80 (Z.land (code c) 0x3F))])
    (list_ascii_of_string s).

(** [s.startswith(p)] *)
Definition startswith (s p : string) : bool := String.prefix p s.

(** [s.split(sep)] for a one-character separator. *)
Fixpoint split (sep : ascii) (s : string) : list string :=
  match s with
  | EmptyString => [EmptyString]
  | String c rest =>
      if Ascii.eqb c sep then EmptyString :: split sep rest
      else match split sep rest with
           | [] => [String c EmptyString]
           | h :: t => String c h :: t
           end
  end.

(** [hmac.compare_digest(a, b)] on two [str]: both must be ASCII. *)
Definition compare_digest (a b : string) : result bool :=
  if is_ascii a && is_ascii b then Ok (String.eqb a b) else Raise TypeError.

(** Order of two pairs of strings, first components first: the order of
    Python tuples of [str], and of a two-column [ORDER BY] under the BINARY
    collation. *)
Definition lex_leb (a b : string * string) : bool :=
  match String.compare (fst a) (fst b) with
  | Lt => true
  | Eq => String.leb (snd a) (snd b)
  | Gt => false
  end.

(** A stable sort by a comparison [leb], standing for SQLite's [ORDER BY]
    and Python's [sorted]. *)
Section Sorting.
Context {A : Type} (leb : A -> A -> bool).

Fixpoint insert_by (x : A) (l : list A) : list A :=
  match l with
  | [] => [x]
  | y :: rest => if leb x y then x :: l else y :: insert_by x rest
  end.

Fixpoint sort_by (l : list A) : list A :=
  match l with
  | [] => []
  | x :: rest => insert_by x (sort_by rest)
  end.
End Sorting.

(* ================================================================== *)
(** * The signature gate: [verify_signature] of [app/main.py] *)
(* ================================================================== *)

(** What the handlers read from a request.  Header names are lower case, as
    the server delivers them; [headers_get] returns the first value of a
    name. *)
Record Request : Type := mkRequest
  { headers : list (string * string);
    method : string;
    url_path : string;
    body : list byte }.

Fixpoint headers_get (hs : list (string * string)) (key : string)
  : option string :=
  match hs with
  | [] => None
  | (k, v) :: rest => if String.eqb k key then Some v else headers_get rest key
  end.

Definition sha256_prefix : string := "sha256=".

(** The digest candidate taken from the header value (lines 64-66). *)
Definition sig_hash_of (signature : string) : result string :=
  if startswith signature sha256_prefix then
    match nth_error (split "="%char signature) 1 with
    | Some h => Ok h
    | None => Raise IndexError
    end
  else Ok signature.

Definition expected_hash (secret : string) (body : list byte) : string :=
  Hmac.hexdigest (encode secret) body.

Definition verify_signature (WEBHOOK_SECRET : string) (request : Request)
  : result unit :=
  if negb (truthy (Some WEBHOOK_SECRET)) then
    Raise (HTTPException 503 "Server configuration error")
  else
    let signature :=
      py_or (headers_get (headers request) "x-signature")
            (headers_get (headers request) "x-hub-signature-256") in
    match signature with
    | Some (String _ _ as signature) =>
        do sig_hash <- sig_hash_of signature;
        do same <- compare_digest sig_hash
                     (expected_hash WEBHOOK_SECRET (body request));
        if negb same then Raise (HTTPException 401 "invalid signature")
        else Ok tt
    | _ => Raise (HTTPException 401 "invalid signature")
    end.

(** [sign_payload] of [tests/test_webhook.py]. *)
Definition sign_payload (body : list byte) (secret : string) : string :=
  Hmac.hexdigest (encode secret) body.

Definition signed_request (hname sig : string) (b : list byte) : Request :=
  mkRequest [("content-type", "application/json"); (hname, sig)]
            "POST" "/webhook" b.

(* ================================================================== *)
(** * Decimal text, [datetime.isoformat] *)
(* ================================================================== *)

Definition digit (d : Z) : ascii := ascii_of_N (Z.to_N (48 + d)).

(** [n] in exactly [w] decimal digits, most significant first
    (["%04d"], ["%02d"], ["%06d"] on a number that fits). *)
Fixpoint zfill (w : nat) (n : Z) : string :=
  match w with
  | O => EmptyString
  | S w' => String (digit (n / 10 ^ Z.of_nat w')) (zfill w' (n mod 10 ^ Z.of_nat w'))
  end.

Fixpoint decimal (fuel : nat) (n : Z) (acc : string) : string :=
  match fuel with
  | O => acc
  | S fuel' =>
      let acc' := String (digit (n mod 10)) acc in
      if n / 10 =? 0 then acc' else decimal fuel' (n / 10) acc'
  end.

(** [str(n)] for an [int]. *)
Definition str_of_int (n : Z) : string :=
  if n <? 0 then String "-" (decimal (S (Z.to_nat (Z.log2 (- n)))) (- n) "")
  else decimal (S (Z.to_nat (Z.log2 n))) n "".

(** A [datetime]; [utcoffset] is [None] for a naive value, else the offset
    of its [tzinfo] in minutes. *)
Record datetime : Type := mkDatetime
  { year : Z; month : Z; day : Z;
    hour : Z; minute : Z; second : Z; microsecond : Z;
    utcoffset : option Z }.

Definition isoformat (d : datetime) : string :=
  (zfill 4 (year d) ++ "-" ++ zfill 2 (month d) ++ "-" ++ zfill 2 (day d)
   ++ "T" ++ zfill 2 (hour d) ++ ":" ++ zfill 2 (minute d) ++ ":"
   ++ zfill 2 (second d)
   ++ (if Z.eqb (microsecond d) 0 then "" else "." ++ zfill 6 (microsecond d))
   ++ match utcoffset d with
      | None => ""
      | Some off =>
          (if Z.ltb off 0 then "-" else "+")
          ++ zfill 2 (Z.abs off / 60) ++ ":" ++ zfill 2 (Z.abs off mod 60)
      end)%string.

Definition utc (y mo d h mi s us : Z) : datetime :=
  mkDatetime y mo d h mi s us (Some 0).

(* ================================================================== *)
(** * The message store: [Storage] of [app/storage.py]

    The [messages] table of [init_db] is the list of its rows in rowid
    order; [message_id TEXT PRIMARY KEY] is enforced by [sql_insert], which
    fails the way SQLite does. *)
(* ================================================================== *)

Record Row : Type := mkRow
  { message_id : string;
    from_msisdn : string;
    to_msisdn : string;
    ts : string;
    text : option string;
    created_at : string }.

Definition Table : Type := list Row.

Definition has_key (db : Table) (mid : string) : bool :=
  existsb (fun r => String.eqb (message_id r) mid) db.

(** [INSERT INTO messages (...) VALUES (...)] followed by [commit]. *)
Definition sql_insert (db : Table) (r : Row) : result Table :=
  if has_key db (message_id r)
  then Raise (IntegrityError "UNIQUE constraint failed: messages.message_id")
  else Ok (db ++ [r]).

(** [needle in hay] on [str]. *)
Fixpoint contains (hay needle : string) : bool :=
  String.prefix needle hay ||
  match hay with
  | EmptyString => false
  | String _ rest => contains rest needle
  end.

(** [Storage.insert_message]: [(True, db')] if inserted, [(False, db)] if
    duplicate; any other integrity error is raised again. *)
Definition insert_message (db : Table) (now : datetime)
    (mid sender receiver : string) (t : datetime) (txt : option string)
  : result bool * Table :=
  let now_str := isoformat now in
  let ts_str := isoformat t in
  match sql_insert db (mkRow mid sender receiver ts_str txt now_str) with
  | Ok db' => (Ok true, db')
  | Raise (IntegrityError e) =>
      if contains e "UNIQUE constraint failed" then (Ok false, db)
      else (Raise (IntegrityError e), db)
  | Raise e => (Raise e, db)
  end.

(** Look a row up by its primary key. *)
Definition find_row (db : Table) (mid : string) : option Row :=
  find (fun r => String.eqb (message_id r) mid) db.

(** ** [query_messages] *)

(** ASCII case folding, the only folding SQLite's built-in [LIKE] does. *)
Definition fold_case (c : ascii) : ascii :=
  if (65 <=? code c) && (code c <=? 90) then ascii_of_N (N_of_ascii c + 32)
  else c.

(** SQLite's [text LIKE pattern] with no [ESCAPE]: [%] matches any run of
    characters, [_] any one character, every other character itself up to
    ASCII case. *)
Fixpoint like (pattern t : string) {struct pattern} : bool :=
  match pattern with
  | EmptyString =>
      match t with EmptyString => true | String _ _ => false end
  | String c p' =>
      if Ascii.eqb c "%" then
        (fix star (t : string) : bool :=
           like p' t ||
           match t with
           | EmptyString => false
           | String _ t' => star t'
           end) t
      else if Ascii.eqb c "_" then
        match t with
        | EmptyString => false
        | String _ t' => like p' t'
        end
      else
        match t with
        | EmptyString => false
        | String d t' => Ascii.eqb (fold_case c) (fold_case d) && like p' t'
        end
  end.

(** The [WHERE 1=1 AND ...] clause built from the filters that are
    truthy; [NULL LIKE ?] is not true. *)
Definition where_clause (from_filter : option string)
    (since : option datetime) (q : option string) (r : Row) : bool :=
  (match from_filter with
   | Some (String _ _ as f) => String.eqb (from_msisdn r) f
   | _ => true
   end)
  &&
  (match since with
   | Some d => String.leb (isoformat d) (ts r)
   | None => true
   end)
  &&
  (match q with
   | Some (String _ _ as s) =>
       match text r with
       | Some t => like ("%" ++ s ++ "%")%string t
       | None => false
       end
   | _ => true
   end).

(** [ORDER BY ts ASC, message_id ASC] under the BINARY collation. *)
Definition row_leb (a b : Row) : bool :=
  lex_leb (ts a, message_id a) (ts b, message_id b).

Definition order_by (l : list Row) : list Row := sort_by row_leb l.

(** [LIMIT ? OFFSET ?]: a negative limit is no limit, a negative offset is
    zero. *)
Definition limit_offset (limit offset : Z) (l : list Row) : list Row :=
  let l' := skipn (Z.to_nat offset) l in
  if limit <? 0 then l' else firstn (Z.to_nat limit) l'.

(** One element of the returned [data] list. *)
Record MessageDict : Type := mkMessageDict
  { d_message_id : string;
    d_from : string;
    d_to : string;
    d_ts : string;
    d_text : option string }.

Definition to_dict (r : Row) : MessageDict :=
  mkMessageDict (message_id r) (from_msisdn r) (to_msisdn r) (ts r) (text r).

Definition query_messages (db : Table) (limit offset : Z)
    (from_filter : option string) (since : option datetime)
    (q : option string) : list MessageDict * Z :=
  let selected := filter (where_clause from_filter since q) db in
  let total := Z.of_nat (List.length selected) in
  let rows := limit_offset limit offset (order_by selected) in
  (map to_dict rows, total).

(** The two messages of [test_get_messages_filter]. *)
Definition test_row1 : Row :=
  mkRow "1" "+111" "+999" (isoformat (utc 2023 1 1 10 0 0 0)) (Some "foo")
        (isoformat (utc 2024 1 1 0 0 0 0)).

Definition test_row2 : Row :=
  mkRow "2" "+222" "+999" (isoformat (utc 2023 1 2 10 0 0 0)) (Some "bar")
        (isoformat (utc 2024 1 1 0 0 0 1)).

Definition test_db : Table := [test_row1; test_row2].

(* ================================================================== *)
(** * The metrics registry: [Metrics] of [app/metrics.py]

    - A [dict] is an association list in insertion order, which is the
      order [items()] iterates in.
    - A label key [frozenset(labels.items())] is the list of its pairs in
      some order; two keys are equal when they hold the same pairs.
    - A counter or bucket value is a Python [float] that only ever starts at
      [0.0] and grows by [+ 1.0]: it is the integer it holds, and [+ 1.0]
      is [float_succ].
    - A latency is a finite [float], hence a rational; the rounding addition
      of the running sum and [repr] of a [float] are parameters. *)
(* ================================================================== *)

Definition Labels : Type := list (string * string).
Definition SeriesKey : Type := (string * Labels)%type.

Definition pair_eqb (a b : string * string) : bool :=
  String.eqb (fst a) (fst b) && String.eqb (snd a) (snd b).

Definition subset (a b : Labels) : bool :=
  forallb (fun x => existsb (pair_eqb x) b) a.

(** Equality of two [frozenset]s of label pairs. *)
Definition labels_eqb (a b : Labels) : bool := subset a b && subset b a.

Definition key_eqb (a b : SeriesKey) : bool :=
  String.eqb (fst a) (fst b) && labels_eqb (snd a) (snd b).

Section Dict.
Context {V : Type}.

(** [d.get(k, default)] *)
Fixpoint dict_get (d : list (SeriesKey * V)) (k : SeriesKey) (default : V) : V :=
  match d with
  | [] => default
  | (k', v) :: rest => if key_eqb k' k then v else dict_get rest k default
  end.

(** [k in d] *)
Definition dict_mem (d : list (SeriesKey * V)) (k : SeriesKey) : bool :=
  existsb (fun e => key_eqb (fst e) k) d.

(** [d[k] = v]: an existing entry keeps its place and its key object, a
    new one goes last. *)
Fixpoint dict_set (d : list (SeriesKey * V)) (k : SeriesKey) (v : V)
  : list (SeriesKey * V) :=
  match d with
  | [] => [(k, v)]
  | (k', v') :: rest =>
      if key_eqb k' k then (k', v) :: rest else (k', v') :: dict_set rest k v
  end.
End Dict.

(** [x + 1.0] for a double that holds the integer [x], [0 <= x <= 2^53]:
    exact below [2^53]; [2^53 + 1] is not representable and rounds (ties to
    even) back to [2^53]. *)
Definition float_succ (x : Z) : Z := if x <? 2 ^ 53 then x + 1 else x.

Record Metrics : Type := mkMetrics
  { counters : list (SeriesKey * Z);
    histograms : list (SeriesKey * list Z);
    histogram_sums : list (SeriesKey * Q);
    histogram_counts : list (SeriesKey * Z) }.

(** [Metrics.__init__] *)
Definition latency_buckets : list Z := [10; 50; 100; 200; 500; 1000; 5000].

Definition empty_metrics : Metrics := mkMetrics [] [] [] [].

(** [latency_ms <= le] *)
Definition float_le_int (x : Q) (le : Z) : bool := Qle_bool x (inject_Z le).

(** The loop [for i, le in enumerate(self.latency_buckets)] over the bucket
    list, then the [+Inf] bucket [[-1]]. *)
Fixpoint bump_bounded (latency_ms : Q) (les : list Z) (buckets : list Z)
  : list Z :=
  match les, buckets with
  | le :: les', b :: buckets' =>
      (if float_le_int latency_ms le then float_succ b else b)
        :: bump_bounded latency_ms les' buckets'
  | _, _ => buckets
  end.

Fixpoint bump_last (buckets : list Z) : list Z :=
  match buckets with
  | [] => []
  | [b] => [float_succ b]
  | b :: rest => b :: bump_last rest
  end.

Definition observe (latency_ms : Q) (buckets : list Z) : list Z :=
  bump_last (bump_bounded latency_ms latency_buckets buckets).

Section Registry.

(** [a + b] on doubles, and [repr] of a double. *)
Variable float_add : Q -> Q -> Q.
Variable float_repr : Q -> string.

Definition record_http_request (path : string) (status : Z)
    (latency_ms : Q) (m : Metrics) : Metrics :=
  let label_key : Labels := [("path", path); ("status", str_of_int status)] in
  let key : SeriesKey := ("http_requests_total", label_key) in
  let counters' :=
    dict_set (counters m) key (float_succ (dict_get (counters m) key 0)) in
  let hist_key : SeriesKey := ("request_latency_ms", label_key) in
  let fresh := negb (dict_mem (histograms m) hist_key) in
  let hs0 :=
    if fresh
    then dict_set (histograms m) hist_key
           (repeat 0 (List.length latency_buckets + 1))
    else histograms m in
  let sums0 :=
    if fresh then dict_set (histogram_sums m) hist_key (0 : Q)
    else histogram_sums m in
  let counts0 :=
    if fresh then dict_set (histogram_counts m) hist_key 0
    else histogram_counts m in
  mkMetrics
    counters'
    (dict_set hs0 hist_key (observe latency_ms (dict_get hs0 hist_key [])))
    (dict_set sums0 hist_key
       (float_add (dict_get sums0 hist_key (0 : Q)) latency_ms))
    (dict_set counts0 hist_key (dict_get counts0 hist_key 0 + 1)).

Definition record_webhook_result (result : string) (m : Metrics) : Metrics :=
  let label_key : Labels := [("result", result)] in
  let key : SeriesKey := ("webhook_requests_total", label_key) in
  mkMetrics
    (dict_set (counters m) key (float_succ (dict_get (counters m) key 0)))
    (histograms m) (histogram_sums m) (histogram_counts m).

(** *** [render_metrics] *)

(** Order of the tuples [(k, v)] under [sorted]. *)
Definition pair_leb (a b : string * string) : bool := lex_leb a b.

(** [sorted(label_key)] *)
Definition sorted (l : Labels) : Labels := sort_by pair_leb l.

Definition quote : string := String (ascii_of_N 34) EmptyString.
Definition newline : string := String (ascii_of_N 10) EmptyString.

(** [f'{k}="{v}"'] *)
Definition render_pair (kv : string * string) : string :=
  (fst kv ++ "=" ++ quote ++ snd kv ++ quote)%string.

(** [",".join(f'{k}="{v}"' for k, v in sorted(label_key))] *)
Definition render_labels (label_key : Labels) : string :=
  String.concat "," (map render_pair (sorted label_key)).

(** [s.rstrip(",")] *)
Fixpoint rstrip_comma (s : string) : string :=
  match s with
  | EmptyString => EmptyString
  | String c rest =>
      match rstrip_comma rest with
      | EmptyString => if Ascii.eqb c "," then EmptyString
                       else String c EmptyString
      | r => String c r
      end
  end.

(** [f"{value}"] for a double that holds an integer below [10^16]. *)
Definition float_int_repr (x : Z) : string := (str_of_int x ++ ".0")%string.

Definition render_counter (e : SeriesKey * Z) : string :=
  let '((name, label_key), value) := e in
  let label_str :=
    match label_key with
    | [] => ""
    | _ => ("{" ++ render_labels label_key ++ "}")%string
    end in
  (name ++ label_str ++ " " ++ float_int_repr value)%string.

Fixpoint bucket_lines (name base_label_str : string) (les : list Z)
    (buckets : list Z) (i : nat) : list string :=
  match les with
  | [] => []
  | le :: les' =>
      (name ++ "_bucket{" ++ base_label_str ++ "le=" ++ quote
       ++ str_of_int le ++ quote ++ "} "
       ++ float_int_repr (nth i buckets 0))%string
        :: bucket_lines name base_label_str les' buckets (S i)
  end.

Definition render_histogram (m : Metrics) (e : SeriesKey * list Z)
  : list string :=
  let '((name, label_key), buckets) := e in
  let joined := render_labels label_key in
  let base_label_str :=
    match joined with
    | EmptyString => joined
    | _ => (joined ++ ",")%string
    end in
  let suffix := rstrip_comma base_label_str in
  let label_section :=
    match suffix with
    | EmptyString => ""
    | _ => ("{" ++ suffix ++ "}")%string
    end in
  bucket_lines name base_label_str latency_buckets buckets 0
  ++ [ (name ++ "_bucket{" ++ base_label_str ++ "le=" ++ quote ++ "+Inf"
        ++ quote ++ "} " ++ float_int_repr (last buckets 0))%string;
       (name ++ "_sum" ++ label_section ++ " "
        ++ float_repr (dict_get (histogram_sums m) (name, label_key) (0 : Q)))%string;
       (name ++ "_count" ++ label_section ++ " "
        ++ str_of_int (dict_get (histogram_counts m) (name, label_key) 0))%string ].

Definition render_lines (m : Metrics) : list string :=
  map render_counter (counters m)
  ++ flat_map (render_histogram m) (histograms m).

Definition render_metrics (m : Metrics) : string :=
  (String.concat newline (render_lines m) ++ newline)%string.

End Registry.

(* ================================================================== *)
(** * The ingestion pipeline: [webhook] of [app/main.py] under
      [RequestLogMiddleware.dispatch] of [app/logging_utils.py]

    The process state is the table and the registry.  The clock readings
    ([datetime.now] in [insert_message], the elapsed time in [dispatch])
    are inputs.  Writing the access log and [request.state] changes neither
    and is left out. *)
(* ================================================================== *)

(** A validated [WebhookMessageIn]. *)
Record WebhookMessageIn : Type := mkPayload
  { p_message_id : string;
    p_sender : string;
    p_receiver : string;
    p_ts : datetime;
    p_text : option string }.

Record Response : Type := mkResponse
  { status_code : Z;
    content : string }.

Record World : Type := mkWorld
  { w_db : Table;
    w_metrics : Metrics }.

(** [{"status":"ok"}] *)
Definition ok_body : string :=
  ("{" ++ quote ++ "status" ++ quote ++ ":" ++ quote ++ "ok" ++ quote ++ "}")%string.

(** [{"detail":"<detail>"}] *)
Definition detail_body (detail : string) : string :=
  ("{" ++ quote ++ "detail" ++ quote ++ ":" ++ quote ++ detail ++ quote ++ "}")%string.

Definition webhook (WEBHOOK_SECRET : string) (now : datetime)
    (request : Request) (payload : WebhookMessageIn) (w : World)
  : result Response * World :=
  match verify_signature WEBHOOK_SECRET request with
  | Raise e => (Raise e, w)
  | Ok _ =>
      match insert_message (w_db w) now (p_message_id payload)
              (p_sender payload) (p_receiver payload) (p_ts payload)
              (p_text payload) with
      | (Raise e, db') => (Raise e, mkWorld db' (w_metrics w))
      | (Ok inserted, db') =>
          let is_dup := negb inserted in
          let m' := record_webhook_result
                      (if is_dup then "duplicate" else "success")
                      (w_metrics w) in
          (Ok (mkResponse 200 ok_body), mkWorld db' m')
      end
  end.

(** [call_next]: the application below the middleware, which answers an
    [HTTPException] with its status and detail and lets every other
    exception through. *)
Definition call_next (WEBHOOK_SECRET : string) (now : datetime)
    (request : Request) (payload : WebhookMessageIn) (w : World)
  : result Response * World :=
  match webhook WEBHOOK_SECRET now request payload w with
  | (Raise (HTTPException status detail), w') =>
      (Ok (mkResponse status (detail_body detail)), w')
  | other => other
  end.

Section Pipeline.

Variable float_add : Q -> Q -> Q.

(** [RequestLogMiddleware.dispatch]: [status_code] starts at 500 and the
    [finally] block records the request whatever happened. *)
Definition dispatch (WEBHOOK_SECRET : string) (now : datetime)
    (latency_ms : Q) (request : Request) (payload : WebhookMessageIn)
    (w : World) : result Response * World :=
  let '(res, w') := call_next WEBHOOK_SECRET now request payload w in
  let status :=
    match res with
    | Ok response => status_code response
    | Raise _ => 500
    end in
  (res,
   mkWorld (w_db w')
     (record_http_request float_add (url_path request) status latency_ms
        (w_metrics w'))).

End Pipeline.

(** The message of [test_webhook_success], parsed. *)
Definition msg1 : WebhookMessageIn :=
  mkPayload "msg1" "+1234567890" "+0987654321" (utc 2023 10 27 10 0 0 0)
            (Some "Hello World").

Definition json_field (k v : string) : string :=
  (quote ++ k ++ quote ++ ": " ++ quote ++ v ++ quote)%string.

(** The body [json.dumps(payload).encode()] of [test_webhook_success]. *)
Definition msg1_body : list byte :=
  bytes_of_string
    ("{" ++ json_field "message_id" "msg1" ++ ", "
     ++ json_field "from" "+1234567890" ++ ", "
     ++ json_field "to" "+0987654321" ++ ", "
     ++ json_field "ts" "2023-10-27T10:00:00Z" ++ ", "
     ++ json_field "text" "Hello World" ++ "}")%string.

Definition msg1_request : Request :=
  signed_request "x-hub-signature-256" (sign_payload msg1_body "secret123")
                 msg1_body.

Definition clock0 : datetime := utc 2024 1 1 0 0 0 0.

Definition run (r : Request) (p : WebhookMessageIn) (w : World)
  : result Response * World :=
  dispatch Qplus "secret123" clock0 (5 # 2) r p w.

Definition empty_world : World := mkWorld [] empty_metrics.

(* ================================================================== *)
(** * Sequences of store operations *)
(* ================================================================== *)

(** The arguments of one call of [insert_message], with the clock reading
    it makes. *)
Record InsertCall : Type := mkInsertCall
  { c_now : datetime;
    c_message_id : string;
    c_sender : string;
    c_receiver : string;
    c_ts : datetime;
    c_text : option string }.

Definition call_insert (db : Table) (c : InsertCall) : result bool * Table :=
  insert_message db (c_now c) (c_message_id c) (c_sender c) (c_receiver c)
                 (c_ts c) (c_text c).

(** The table after a sequence of calls. *)
Definition run_inserts (db : Table) (cs : list InsertCall) : Table :=
  fold_left (fun db c => snd (call_insert db c)) cs db.

(** The row a successful call writes. *)
Definition row_of_call (c : InsertCall) : Row :=
  mkRow (c_message_id c) (c_sender c) (c_receiver c) (isoformat (c_ts c))
        (c_text c) (isoformat (c_now c)).

(** Number of rows that carry a [message_id]. *)
Definition count_id (db : Table) (mid : string) : nat :=
  List.length (filter (fun r => String.eqb (message_id r) mid) db).

Definition call_msg1 : InsertCall :=
  mkInsertCall clock0 "msg1" "+1234567890" "+0987654321"
               (utc 2023 10 27 10 0 0 0) (Some "Hello World").

Definition call_msg1_again : InsertCall :=
  mkInsertCall (utc 2024 6 1 12 0 0 0) "msg1" "+15550000000" "+15551111111"
               (utc 2024 6 1 11 59 59 0) (Some "another text").

Definition call_msg2 : InsertCall :=
  mkInsertCall (utc 2024 1 1 0 0 1 0) "msg2" "+1" "+2"
               (utc 2023 1 1 0 0 0 0) None.

(* ================================================================== *)
(** * The signature header as the specification reads it *)
(* ================================================================== *)

(** The part of [s] after its first [sep], if [sep] occurs. *)
Fixpoint after_first (sep : ascii) (s : string) : option string :=
  match s with
  | EmptyString => None
  | String c rest => if Ascii.eqb c sep then Some rest else after_first sep rest
  end.

(** The digest candidate as the specification words it: with a scheme tag
    and [=] in front, everything after the first [=]; else the whole
    value. *)
Definition spec_sig_hash (signature : string) : string :=
  match after_first "=" signature with
  | Some d => d
  | None => signature
  end.

(** The header value [verify_signature] looks at. *)
Definition signature_header (request : Request) : option string :=
  py_or (headers_get (headers request) "x-signature")
        (headers_get (headers request) "x-hub-signature-256").

Definition is_hex (c : ascii) : bool :=
  existsb (Ascii.eqb c) (list_ascii_of_string "0123456789abcdef").

Definition unhex_digit (c : ascii) : Z :=
  if (48 <=? code c) && (code c <=? 57) then code c - 48 else code c - 87.

(** Inverse of [Hmac.hex]. *)
Fixpoint unhex (s : string) : list byte :=
  match s with
  | String hi (String lo rest) =>
      Sha256.byte_of_Z (16 * unhex_digit hi + unhex_digit lo) :: unhex rest
  | _ => []
  end.

Definition sha1_tagged_signature : string :=
  ("sha1=" ++ sign_payload msg1_body "secret123")%string.

Definition sha256_tagged_signature : string :=
  (sha256_prefix ++ sign_payload msg1_body "secret123")%string.

(* ================================================================== *)
(** * Timestamps in UTC and their order *)
(* ================================================================== *)

(** What [WebhookMessageIn.validate_utc] lets through, within the ranges of
    the fields of a [datetime]. *)
Definition valid_utc (d : datetime) : bool :=
  (1 <=? year d) && (year d <=? 9999) &&
  (1 <=? month d) && (month d <=? 12) &&
  (1 <=? day d) && (day d <=? 31) &&
  (0 <=? hour d) && (hour d <=? 23) &&
  (0 <=? minute d) && (minute d <=? 59) &&
  (0 <=? second d) && (second d <=? 59) &&
  (0 <=? microsecond d) && (microsecond d <=? 999999) &&
  match utcoffset d with
  | Some 0 => true
  | _ => false
  end.

Definition and_then (c1 c2 : comparison) : comparison :=
  match c1 with
  | Eq => c2
  | _ => c1
  end.

(** Order of two [datetime]s with the same offset: field by field, as
    [datetime.__lt__] compares them. *)
Definition dt_compare (d1 d2 : datetime) : comparison :=
  and_then (year d1 ?= year d2)
  (and_then (month d1 ?= month d2)
  (and_then (day d1 ?= day d2)
  (and_then (hour d1 ?= hour d2)
  (and_then (minute d1 ?= minute d2)
  (and_then (second d1 ?= second d2)
            (microsecond d1 ?= microsecond d2)))))).

(** [d1 <= d2] *)
Definition dt_leb (d1 d2 : datetime) : bool :=
  match dt_compare d1 d2 with
  | Gt => false
  | _ => true
  end.

(** Every row carries the [isoformat] of a UTC timestamp, as every row
    written through [webhook] does. *)
Definition utc_stamped (db : Table) : Prop :=
  Forall (fun r => exists d, valid_utc d = true /\ ts r = isoformat d) db.

(* ================================================================== *)
(** * Order of the returned items *)
(* ================================================================== *)

(** [a] comes no later than [b] in [ORDER BY ts ASC, message_id ASC], on
    the stored text. *)
Definition dict_before (a b : MessageDict) : Prop :=
  String.compare (d_ts a) (d_ts b) = Lt \/
  (d_ts a = d_ts b /\ String.leb (d_message_id a) (d_message_id b) = true).

(** The same on the timestamps themselves, for items stamped in UTC:
    earlier first, and by [message_id] at the same instant. *)
Definition chron_before (a b : MessageDict) : Prop :=
  forall ta tb : datetime,
    valid_utc ta = true -> valid_utc tb = true ->
    d_ts a = isoformat ta -> d_ts b = isoformat tb ->
    dt_compare ta tb = Lt \/
    (ta = tb /\ String.leb (d_message_id a) (d_message_id b) = true).

(* ================================================================== *)
(** * What the filters of [query_messages] select *)
(* ================================================================== *)









(* ================================================================== *)
(** * Reading the registry *)
(* ================================================================== *)

(** The value of a counter series, [0] when it was never touched. *)
Definition counter_value (m : Metrics) (name : string) (labels : Labels) : Z :=
  dict_get (counters m) (name, labels) 0.

(** The status the caller sees: that of the response, or 500 when an
    exception leaves the application. *)
Definition seen_status (res : result Response) : Z :=
  match res with
  | Ok response => status_code response
  | Raise _ => 500
  end.

(** A header value with one character outside ASCII (U+00E9). *)
Definition non_ascii_signature : string := String (ascii_of_N 233) "".

(* ================================================================== *)
(** * Sequences of registry operations *)
(* ================================================================== *)

(** One recording call: [record_http_request] or
    [record_webhook_result]. *)
Inductive MetricOp : Type :=
| HttpRequest (path : string) (status : Z) (latency_ms : Q)
| WebhookResult (result : string).

Definition apply_op (float_add : Q -> Q -> Q) (m : Metrics) (op : MetricOp)
  : Metrics :=
  match op with
  | HttpRequest path status latency_ms =>
      record_http_request float_add path status latency_ms m
  | WebhookResult result => record_webhook_result result m
  end.

(** The registry after a sequence of calls, oldest first. *)
Definition run_ops (float_add : Q -> Q -> Q) (m : Metrics)
    (ops : list MetricOp) : Metrics :=
  fold_left (apply_op float_add) ops m.

(** The histogram series a call observes, if any. *)
Definition observes (key : SeriesKey) (op : MetricOp) : bool :=
  match op with
  | HttpRequest path status _ =>
      key_eqb ("request_latency_ms",
               [("path", path); ("status", str_of_int status)]) key
  | WebhookResult _ => false
  end.

(** Number of observations a sequence makes on a series. *)
Definition observations (key : SeriesKey) (ops : list MetricOp) : Z :=
  Z.of_nat (List.length (filter (observes key) ops)).

(** The bucket list, the [+Inf] bucket and the count of a series. *)
Definition series_buckets (m : Metrics) (key : SeriesKey) : list Z :=
  dict_get (histograms m) key [].

Definition inf_bucket (m : Metrics) (key : SeriesKey) : Z :=
  last (series_buckets m key) 0.

Definition series_count (m : Metrics) (key : SeriesKey) : Z :=
  dict_get (histogram_counts m) key 0.

Definition webhook_200 : SeriesKey :=
  ("request_latency_ms", [("path", "/webhook"); ("status", "200")]).

(** What holds of one series: its buckets and its count. *)
Definition cumulative (bs : list Z) (n : Z) : Prop :=
  0 <= n /\ StronglySorted Z.le bs /\ last bs 0 = Z.min n (2 ^ 53) /\
  (List.length bs = 8%nat \/ (bs = [] /\ n = 0)).

(** What holds of one series of a registry that has gone through the calls
    [ops]. *)
Definition series_inv (m : Metrics) (ops : list MetricOp) (key : SeriesKey)
  : Prop :=
  cumulative (series_buckets m key) (series_count m key) /\
  series_count m key = observations key ops /\
  (dict_mem (histograms m) key = true ->
   List.length (series_buckets m key) = 8%nat).

Definition one_ms_request : MetricOp := HttpRequest "/webhook" 200 (1 # 1).

(* ================================================================== *)
(** * The registry up to the iteration order of its label sets *)
(* ================================================================== *)

(** Two representations of one series key: the same name, and the same
    label pairs listed in any order. *)
Definition same_key (k1 k2 : SeriesKey) : Prop :=
  fst k1 = fst k2 /\ Permutation (snd k1) (snd k2).

Definition same_dict {V : Type} (d1 d2 : list (SeriesKey * V)) : Prop :=
  Forall2 (fun e1 e2 => same_key (fst e1) (fst e2) /\ snd e1 = snd e2) d1 d2.

(** Two representations of one registry state. *)
Definition same_registry (m1 m2 : Metrics) : Prop :=
  same_dict (counters m1) (counters m2) /\
  same_dict (histograms m1) (histograms m2) /\
  same_dict (histogram_sums m1) (histogram_sums m2) /\
  same_dict (histogram_counts m1) (histogram_counts m2).

(** Ascending by label key. *)
Definition by_label_key (a b : string * string) : Prop :=
  String.leb (fst a) (fst b) = true.

(** The registry after one request, and the same state with the label
    pairs of every series listed the other way round. *)
Definition registry1 : Metrics :=
  record_http_request Qplus "/webhook" 200 (5 # 2) empty_metrics.

Definition registry1_swapped : Metrics :=
  let k1 : SeriesKey :=
    ("http_requests_total", [("status", "200"); ("path", "/webhook")]) in
  let k2 : SeriesKey :=
    ("request_latency_ms", [("status", "200"); ("path", "/webhook")]) in
  mkMetrics [(k1, 1)] [(k2, [1; 1; 1; 1; 1; 1; 1; 1])] [(k2, 5 # 2)] [(k2, 1)].

(** One bucket line of the series of [registry1]. *)
Definition hist_line (le : string) : string :=
  ("request_latency_ms_bucket{path=" ++ quote ++ "/webhook" ++ quote
   ++ ",status=" ++ quote ++ "200" ++ quote ++ ",le=" ++ quote ++ le ++ quote
   ++ "} 1.0")%string.

(* ================================================================== *)
(** * [Storage._parse_db_url] and [Storage.compute_stats] of
      [app/storage.py] *)
(* ================================================================== *)

Definition line_feed : ascii := ascii_of_N 10.

(** The longest run of characters other than a line feed at the head of
    [s]: what the greedy [(.+)] of a regular expression takes. *)
Fixpoint take_line (s : string) : string :=
  match s with
  | EmptyString => EmptyString
  | String c rest =>
      if Ascii.eqb c line_feed then EmptyString else String c (take_line rest)
  end.

Fixpoint drop (n : nat) (s : string) : string :=
  match n, s with
  | S n', String _ rest => drop n' rest
  | _, _ => s
  end.

Definition sqlite_scheme : string := "sqlite:///".

(** [re.match(r"sqlite:\/\/\/(.+)", db_url)]: anchored at the start only;
    [group(1)] if it matches, else the URL itself. *)
Definition _parse_db_url (db_url : string) : string :=
  if startswith db_url sqlite_scheme then
    match take_line (drop (String.length sqlite_scheme) db_url) with
    | EmptyString => db_url
    | group1 => group1
    end
  else db_url.

(** The dictionary [compute_stats] returns. *)
Record Stats : Type := mkStats
  { total_messages : Z;
    senders_count : Z;
    messages_per_sender : list (string * Z);
    first_message_ts : option string;
    last_message_ts : option string }.

(** [COUNT(DISTINCT from_msisdn)] counts over these. *)
Definition distinct_senders (db : Table) : list string :=
  nodup string_dec (map from_msisdn db).

(** Number of rows of a sender. *)
Definition sender_count (db : Table) (sender : string) : Z :=
  Z.of_nat (List.length
              (filter (fun r => String.eqb (from_msisdn r) sender) db)).

(** [SELECT from_msisdn, COUNT( * ) ... GROUP BY from_msisdn]. *)
Definition group_by_sender (db : Table) : list (string * Z) :=
  map (fun s => (s, sender_count db s)) (distinct_senders db).

(** [MIN(ts)] and [MAX(ts)] under the BINARY collation; [NULL] on an empty
    table. *)
Definition text_min (a b : string) : string := if String.leb a b then a else b.
Definition text_max (a b : string) : string := if String.leb a b then b else a.

Definition sql_min (l : list string) : option string :=
  match l with
  | [] => None
  | x :: rest => Some (fold_left text_min rest x)
  end.

Definition sql_max (l : list string) : option string :=
  match l with
  | [] => None
  | x :: rest => Some (fold_left text_max rest x)
  end.

(** What [ORDER BY cnt DESC] promises of the order [f] it puts the groups
    in: the same groups, counts descending.  The order among equal counts
    is the database's choice. *)
Definition orders_by_count_desc
    (f : list (string * Z) -> list (string * Z)) : Prop :=
  forall l, Permutation l (f l) /\
            StronglySorted (fun a b => snd b <= snd a) (f l).

Section ComputeStats.

(** The order the database returns the groups in. *)
Variable order_by_cnt_desc : list (string * Z) -> list (string * Z).

Definition compute_stats (db : Table) : Stats :=
  mkStats
    (Z.of_nat (List.length db))
    (Z.of_nat (List.length (distinct_senders db)))
    (firstn 10 (order_by_cnt_desc (group_by_sender db)))
    (sql_min (map ts db))
    (sql_max (map ts db)).

End ComputeStats.

(** One order that [ORDER BY cnt DESC] may produce. *)
Definition count_desc_leb (a b : string * Z) : bool := snd b <=? snd a.

Definition stable_by_count_desc (l : list (string * Z)) : list (string * Z) :=
  sort_by count_desc_leb l.

(* ================================================================== *)
(** * Validation of a message: [WebhookMessageIn] of [app/models.py] *)
(* ================================================================== *)

Definition is_digit (c : ascii) : bool := (48 <=? code c) && (code c <=? 57).

(** [[0-9]*$] at the end of a match: digits up to the end of the string, or
    up to a line feed that ends the string ([$] also matches there). *)
Fixpoint digits_to_end (s : string) : bool :=
  match s with
  | EmptyString => true
  | String c rest =>
      if is_digit c then digits_to_end rest
      else Ascii.eqb c line_feed &&
           match rest with EmptyString => true | String _ _ => false end
  end.

(** [validate_phone]: whether [re.match(r"^\+[0-9]+$", v)] matches, that
    is, whether the value is returned rather than a [ValueError] raised. *)
Definition validate_phone (v : string) : bool :=
  match v with
  | String c (String d rest) =>
      Ascii.eqb c "+" && is_digit d && digits_to_end rest
  | _ => false
  end.

Fixpoint all_digits (s : string) : bool :=
  match s with
  | EmptyString => true
  | String c rest => is_digit c && all_digits rest
  end.

(** [validate_utc]: [tzinfo] is there and equals [timezone.utc]. *)
Definition validate_utc (v : datetime) : bool :=
  match utcoffset v with
  | Some 0 => true
  | _ => false
  end.

(** The constraints of the model on a parsed message: [min_length=1] on
    [message_id], the two validators, [max_length=4096] on [text]; the
    fields of [ts] are those of a [datetime]. *)
Definition valid_payload (p : WebhookMessageIn) : bool :=
  negb (String.eqb (p_message_id p) "") &&
  validate_phone (p_sender p) && validate_phone (p_receiver p) &&
  validate_utc (p_ts p) && valid_utc (p_ts p) &&
  match p_text p with
  | Some t => (String.length t <=? 4096)%nat
  | None => true
  end.

(* ================================================================== *)
(** * Sequences of deliveries to the pipeline *)
(* ================================================================== *)

(** One request to [/webhook] with the clock readings made while it is
    served. *)
Record Delivery : Type := mkDelivery
  { dl_now : datetime;
    dl_latency_ms : Q;
    dl_request : Request;
    dl_payload : WebhookMessageIn }.

Definition deliver (float_add : Q -> Q -> Q) (secret : string) (w : World)
    (d : Delivery) : result Response * World :=
  dispatch float_add secret (dl_now d) (dl_latency_ms d) (dl_request d)
           (dl_payload d) w.

(** The state after a sequence of deliveries, oldest first. *)
Definition run_deliveries (float_add : Q -> Q -> Q) (secret : string)
    (w : World) (ds : list Delivery) : World :=
  fold_left (fun w d => snd (deliver float_add secret w d)) ds w.

(** The row a delivery writes when it is the first with its
    [message_id]. *)
Definition row_of_delivery (d : Delivery) : Row :=
  mkRow (p_message_id (dl_payload d)) (p_sender (dl_payload d))
        (p_receiver (dl_payload d)) (isoformat (p_ts (dl_payload d)))
        (p_text (dl_payload d)) (isoformat (dl_now d)).

(** A row as validation leaves it. *)
Definition valid_row (r : Row) : Prop :=
  message_id r <> "" /\
  validate_phone (from_msisdn r) = true /\
  validate_phone (to_msisdn r) = true /\
  (exists d, valid_utc d = true /\ ts r = isoformat d) /\
  match text r with
  | Some t => (String.length t <= 4096)%nat
  | None => True
  end.

Definition delivery1 : Delivery := mkDelivery clock0 (5 # 2) msg1_request msg1.

(** The same message with a signature that does not match. *)
Definition delivery_forged : Delivery :=
  mkDelivery clock0 (5 # 2)
    (signed_request "x-signature" "wrongsignature" msg1_body) msg1.

(* ================================================================== *)
(** * Counting the calls on a counter series *)
(* ================================================================== *)

(** The counter series a recording call adds to. *)
Definition bumps (key : SeriesKey) (op : MetricOp) : bool :=
  match op with
  | HttpRequest path status _ =>
      key_eqb ("http_requests_total",
               [("path", path); ("status", str_of_int status)]) key
  | WebhookResult result =>
      key_eqb ("webhook_requests_total", [("result", result)]) key
  end.

(** Number of calls a sequence makes on a counter series. *)
Definition calls (key : SeriesKey) (ops : list MetricOp) : Z :=
  Z.of_nat (List.length (filter (bumps key) ops)).

(* ================================================================== *)
(** * The routes [get_messages] and [health_ready] of [app/main.py] *)
(* ================================================================== *)





(** [health_ready], given what [check_connection] returned. *)
Definition health_ready (db_ok : bool) (WEBHOOK_SECRET : string)
  : result string :=
  let secret_ok := truthy (Some WEBHOOK_SECRET) in
  if db_ok && secret_ok then Ok "ready"
  else Raise (HTTPException 503 "Not ready").

(** Another body under the signature of the body of [msg1]. *)
Definition tampered_request : Request :=
  signed_request "x-signature" (sign_payload msg1_body "secret123")
                 (bytes_of_string "{}").

Definition forged_request : Request :=
  signed_request "x-signature" "wrongsignature" msg1_body.

(* ================================================================== *)
(** * [Settings] of [app/config.py] *)
(* ================================================================== *)

Record Settings : Type := mkSettings
  { WEBHOOK_SECRET : string;
    DATABASE_URL : string;
    LOG_LEVEL : string }.

(** [Settings()]: [WEBHOOK_SECRET] is required with [min_length=1],
    [DATABASE_URL] is required, [LOG_LEVEL] defaults to [INFO]; [None]
    stands for the [ValidationError] that stops the process.  [env] gives
    the value of a variable in the process environment or, failing that, in
    the [.env] file. *)
Definition load_settings (env : string -> option string) : option Settings :=
  match env "WEBHOOK_SECRET", env "DATABASE_URL" with
  | Some secret, Some url =>
      if (1 <=? String.length secret)%nat then
        Some (mkSettings secret url
                (match env "LOG_LEVEL" with
                 | Some level => level
                 | None => "INFO"
                 end))
      else None
  | _, _ => None
  end.

(** The environment of [tests/test_webhook.py]. *)
Definition test_env (name : string) : option string :=
  if String.eqb name "WEBHOOK_SECRET" then Some "secret123"
  else if String.eqb name "DATABASE_URL" then Some "sqlite:///test_messages.db"
  else None.

(* ================================================================== *)
(** * The exposition format, in the words of the specification

    [render()] writes one line per counter series, [name{pairs} value],
    and per histogram series a bucket line per bound, a [+Inf] bucket
    line, a [name_sum] line and a [name_count] line.  The definitions
    below write these lines from an explicit list of label pairs, so that
    the order of the pairs on a line can be stated. *)
(* ================================================================== *)

(** One sample line, [name{k1="v1",k2="v2"} value]: the pairs in the order
    of the list, and no braces when there is none. *)
Definition sample_line (name : string) (pairs : Labels) (value : string)
  : string :=
  (name
   ++ match pairs with
      | [] => ""
      | _ => "{" ++ String.concat "," (map render_pair pairs) ++ "}"
      end
   ++ " " ++ value)%string.

(** The bounds of the bucket lines of a series, in the order of the lines,
    and the bucket each line reads. *)
Definition bucket_bounds : list string :=
  map str_of_int latency_buckets ++ ["+Inf"].

Definition bucket_values (buckets : list Z) : list Z :=
  map (fun i => nth i buckets 0) (seq 0 (List.length latency_buckets))
  ++ [last buckets 0].

(** The lines of one histogram series: on a bucket line the pair [le]
    comes after the pairs of the series. *)
Definition histogram_samples (float_repr : Q -> string) (name : string)
    (pairs : Labels) (buckets : list Z) (sum : Q) (count : Z) : list string :=
  map (fun bv => sample_line (name ++ "_bucket") (pairs ++ [("le", fst bv)])
                             (float_int_repr (snd bv)))
      (combine bucket_bounds (bucket_values buckets))
  ++ [ sample_line (name ++ "_sum") pairs (float_repr sum);
       sample_line (name ++ "_count") pairs (str_of_int count) ].

(** The lines of a registry, counters first, the pairs of each series in
    the order [pairs_of] puts them in. *)
Definition exposition (pairs_of : Labels -> Labels)
    (float_repr : Q -> string) (m : Metrics) : list string :=
  map (fun e => sample_line (fst (fst e)) (pairs_of (snd (fst e)))
                            (float_int_repr (snd e)))
      (counters m)
  ++ flat_map
       (fun e => histogram_samples float_repr (fst (fst e))
                   (pairs_of (snd (fst e))) (snd e)
                   (dict_get (histogram_sums m) (fst e) (0 : Q))
                   (dict_get (histogram_counts m) (fst e) 0))
       (histograms m).

(** The pairs on the first bucket line of the series of [registry1]. *)
Definition bucket_line_pairs : Labels :=
  [("path", "/webhook"); ("status", "200"); ("le", "10")].

(* ================================================================== *)
(** * Lines of a text *)
(* ================================================================== *)

(** Number of line feeds in a text. *)
Fixpoint count_line_feeds (s : string) : nat :=
  match s with
  | EmptyString => 0
  | String c rest =>
      ((if Ascii.eqb c line_feed then 1 else 0) + count_line_feeds rest)%nat
  end.

Definition single_line (s : string) : Prop := count_line_feeds s = 0%nat.

(** No metric name, label key or label value of the registry holds a line
    feed. *)
Definition single_line_key (k : SeriesKey) : Prop :=
  single_line (fst k) /\
  Forall (fun kv => single_line (fst kv) /\ single_line (snd kv)) (snd k).

Definition single_line_registry (m : Metrics) : Prop :=
  Forall (fun e => single_line_key (fst e)) (counters m) /\
  Forall (fun e => single_line_key (fst e)) (histograms m).

(* ================================================================== *)
(** * Test vectors and runs of the model *)
(* ================================================================== *)

Example sha256_abc :
  Hmac.hex (Sha256.digest (bytes_of_string "abc")) =
  "ba7816bf8f01cfea414140de5dae2223b00361a396177a9cb410ff61f20015ad".
Proof. vm_compute. reflexivity. Qed.

Example sha256_empty :
  Hmac.hex (Sha256.digest []) =
  "e3b0c44298fc1c149afbf4c8996fb92427ae41e4649b934ca495991b7852b855".
Proof. vm_compute. reflexivity. Qed.

Example sha256_two_blocks :
  Hmac.hex (Sha256.digest (bytes_of_string
    "abcdbcdecdefdefgefghfghighijhijkijkljklmklmnlmnomnopnopq")) =
  "248d6a61d20638b8e5c026930c3e6039a33ce45964ff2167f6ecedd419db06c1".
Proof. vm_compute. reflexivity. Qed.

Example hmac_rfc4231_case2 :
  Hmac.hexdigest (bytes_of_string "Jefe")
                 (bytes_of_string "what do ya want for nothing?") =
  "5bdcc146bf60754e6a042426089575c75a003f089d2739839dec58b964ec3843".
Proof. vm_compute. reflexivity. Qed.

Example verify_bare_ok :
  let b := bytes_of_string "{}" in
  verify_signature "secret123"
    (signed_request "x-hub-signature-256" (sign_payload b "secret123") b)
  = Ok tt.
Proof. vm_compute. reflexivity. Qed.

Example verify_prefixed_ok :
  let b := bytes_of_string "{}" in
  verify_signature "secret123"
    (signed_request "x-signature"
       (sha256_prefix ++ sign_payload b "secret123")%string b)
  = Ok tt.
Proof. vm_compute. reflexivity. Qed.

Example verify_wrong_signature :
  verify_signature "secret123"
    (signed_request "x-hub-signature-256" "wrongsignature"
       (bytes_of_string "{}"))
  = Raise (HTTPException 401 "invalid signature").
Proof. vm_compute. reflexivity. Qed.

Example str_of_int_0 : str_of_int 0 = "0".
Proof. reflexivity. Qed.

Example str_of_int_401 : str_of_int 401 = "401".
Proof. reflexivity. Qed.

Example str_of_int_big : str_of_int 9007199254740992 = "9007199254740992".
Proof. reflexivity. Qed.

Example isoformat_utc :
  isoformat (utc 2023 10 27 10 0 0 0) = "2023-10-27T10:00:00+00:00".
Proof. reflexivity. Qed.

Example isoformat_micro :
  isoformat (mkDatetime 2025 1 15 9 30 5 12500 (Some 330))
  = "2025-01-15T09:30:05.012500+05:30".
Proof. reflexivity. Qed.

Example query_filter_from :
  map d_message_id (fst (query_messages test_db 50 0 (Some "+111") None None))
  = ["1"].
Proof. reflexivity. Qed.

Example query_filter_since :
  map d_message_id
    (fst (query_messages test_db 50 0 None (Some (utc 2023 1 2 0 0 0 0)) None))
  = ["2"].
Proof. reflexivity. Qed.

Example query_like_ignores_case :
  query_messages test_db 50 0 None None (Some "FOO")
  = ([to_dict (mkRow "1" "+111" "+999" "2023-01-01T10:00:00+00:00" (Some "foo")
                     "2024-01-01T00:00:00+00:00")], 1).
Proof. reflexivity. Qed.

Example webhook_success_then_duplicate :
  let '(r1, w1) := run msg1_request msg1 empty_world in
  let '(r2, w2) := run msg1_request msg1 w1 in
  r1 = Ok (mkResponse 200 ok_body) /\ r2 = r1 /\
  List.length (w_db w2) = 1%nat /\
  map fst (counters (w_metrics w2)) =
    [ ("webhook_requests_total", [("result", "success")]);
      ("http_requests_total", [("path", "/webhook"); ("status", "200")]);
      ("webhook_requests_total", [("result", "duplicate")]) ].
Proof. vm_compute. repeat split; reflexivity. Qed.

(* ================================================================== *)
(** * The store is idempotent on [message_id] *)
(* ================================================================== *)

Lemma insert_message_eq db now mid s r t x :
  insert_message db now mid s r t x =
  if has_key db mid then (Ok false, db)
  else (Ok true, db ++ [mkRow mid s r (isoformat t) x (isoformat now)]).
Proof.
  unfold insert_message, sql_insert; cbn [message_id].
  destruct (has_key db mid); reflexivity.
Qed.

Lemma call_insert_eq db c :
  call_insert db c =
  if has_key db (c_message_id c) then (Ok false, db)
  else (Ok true, db ++ [row_of_call c]).
Proof. unfold call_insert, row_of_call. apply insert_message_eq. Qed.

Lemma has_key_app db1 db2 mid :
  has_key (db1 ++ db2) mid = has_key db1 mid || has_key db2 mid.
Proof. unfold has_key. apply existsb_app. Qed.

Lemma find_row_has_key db mid r :
  find_row db mid = Some r -> has_key db mid = true.
Proof.
  unfold find_row, has_key. intros H.
  apply existsb_exists. exists r.
  apply find_some in H. exact H.
Qed.

Lemma find_row_app_l db1 db2 mid r :
  find_row db1 mid = Some r -> find_row (db1 ++ db2) mid = Some r.
Proof.
  unfold find_row. induction db1 as [|x db1 IH]; cbn; [discriminate|].
  destruct (String.eqb (message_id x) mid); auto.
Qed.

Lemma find_row_fresh db r :
  has_key db (message_id r) = false ->
  find_row (db ++ [r]) (message_id r) = Some r.
Proof.
  unfold find_row, has_key.
  induction db as [|x db IH]; cbn.
  - now rewrite String.eqb_refl.
  - destruct (String.eqb (message_id x) (message_id r)); cbn;
      [discriminate | exact IH].
Qed.

Lemma count_id_app db1 db2 mid :
  count_id (db1 ++ db2) mid = (count_id db1 mid + count_id db2 mid)%nat.
Proof. unfold count_id. now rewrite filter_app, length_app. Qed.

Lemma count_id_fresh db mid :
  has_key db mid = false -> count_id db mid = 0%nat.
Proof.
  unfold has_key, count_id.
  induction db as [|x db IH]; cbn; [reflexivity|].
  destruct (String.eqb (message_id x) mid); cbn; [discriminate | exact IH].
Qed.

(** A call leaves a stored row, and the number of rows under its key,
    alone. *)
Lemma call_insert_keeps db c mid r :
  find_row db mid = Some r ->
  find_row (snd (call_insert db c)) mid = Some r /\
  count_id (snd (call_insert db c)) mid = count_id db mid.
Proof.
  intros Hfind. rewrite call_insert_eq.
  destruct (has_key db (c_message_id c)) eqn:Hk; cbn [snd]; [now split|].
  split; [now apply find_row_app_l|].
  rewrite count_id_app. unfold count_id at 2. cbn.
  destruct (String.eqb (c_message_id c) mid) eqn:E; [|cbn; lia].
  apply String.eqb_eq in E. subst mid.
  apply find_row_has_key in Hfind. congruence.
Qed.

Lemma run_inserts_keeps cs : forall db mid r,
  find_row db mid = Some r ->
  find_row (run_inserts db cs) mid = Some r /\
  count_id (run_inserts db cs) mid = count_id db mid.
Proof.
  unfold run_inserts.
  induction cs as [|c cs IH]; intros db mid r Hfind; cbn [fold_left].
  - now split.
  - destruct (call_insert_keeps db c mid r Hfind) as [Hf Hc].
    destruct (IH _ _ _ Hf) as [Hf' Hc'].
    split; [exact Hf' | congruence].
Qed.

(** C1.  Once a call of [insert_message] has inserted a message, then after
    any further calls whatever, a call with the same [message_id] returns
    [False], leaves the table as it is, the table holds exactly one row
    under that [message_id], and that row has the sender, receiver,
    timestamp, text and [created_at] of the first call. *)
Theorem insert_same_id_keeps_first_row :
  forall (db : Table) (first : InsertCall) (db1 : Table),
    call_insert db first = (Ok true, db1) ->
    forall (later : list InsertCall) (again : InsertCall),
      c_message_id again = c_message_id first ->
      let db2 := run_inserts db1 later in
      call_insert db2 again = (Ok false, db2) /\
      count_id db2 (c_message_id first) = 1%nat /\
      find_row db2 (c_message_id first) = Some (row_of_call first).
Proof.
  intros db first db1 Hfirst later again Hid db2.
  rewrite call_insert_eq in Hfirst.
  destruct (has_key db (c_message_id first)) eqn:Hk; [discriminate|].
  injection Hfirst as <-.
  assert (Hrow : message_id (row_of_call first) = c_message_id first)
    by reflexivity.
  assert (Hfind : find_row (db ++ [row_of_call first]) (c_message_id first)
                  = Some (row_of_call first)).
  { rewrite <- Hrow at 1. apply find_row_fresh. now rewrite Hrow. }
  destruct (run_inserts_keeps later _ _ _ Hfind) as [Hf Hc].
  fold db2 in Hf, Hc.
  split; [|split].
  - rewrite call_insert_eq, Hid.
    now rewrite (find_row_has_key _ _ _ Hf).
  - rewrite Hc, count_id_app, (count_id_fresh _ _ Hk).
    unfold count_id; cbn. now rewrite String.eqb_refl.
  - exact Hf.
Qed.

Lemma insert_same_id_keeps_first_row_witness :
  let db2 := run_inserts [row_of_call call_msg1] [call_msg2; call_msg1_again] in
  call_insert db2 call_msg1_again = (Ok false, db2) /\
  count_id db2 "msg1" = 1%nat /\
  find_row db2 "msg1" = Some (row_of_call call_msg1).
Proof.
  exact (insert_same_id_keeps_first_row [] call_msg1 [row_of_call call_msg1]
           eq_refl [call_msg2; call_msg1_again] call_msg1_again eq_refl).
Defined.

(* ================================================================== *)
(** * The signature gate *)
(* ================================================================== *)

Lemma Ok_inj {A : Type} (a b : A) : Ok a = Ok b -> a = b.
Proof. intros H. injection H. auto. Qed.

Lemma hex_digit_is_hex n : is_hex (Hmac.hex_digit n) = true.
Proof.
  unfold Hmac.hex_digit. generalize (Z.to_nat n) as k. intro k.
  do 16 (destruct k as [|k]; [reflexivity|]).
  destruct k; reflexivity.
Qed.

Lemma is_hex_ascii c : is_hex c = true -> (code c <? 128) = true.
Proof.
  unfold is_hex. intros H. apply existsb_exists in H.
  destruct H as [x [Hin Hx]]. apply Ascii.eqb_eq in Hx. subst x.
  cbn in Hin.
  repeat (destruct Hin as [<- | Hin]; [reflexivity|]). contradiction.
Qed.

Lemma is_hex_not_s c : is_hex c = true -> Ascii.eqb c "s" = false.
Proof.
  unfold is_hex. intros H. apply existsb_exists in H.
  destruct H as [x [Hin Hx]]. apply Ascii.eqb_eq in Hx. subst x.
  cbn in Hin.
  repeat (destruct Hin as [<- | Hin]; [reflexivity|]). contradiction.
Qed.

Lemma hex_is_ascii bs : is_ascii (Hmac.hex bs) = true.
Proof.
  unfold is_ascii. induction bs as [|b bs IH]; [reflexivity|].
  cbn [Hmac.hex list_ascii_of_string forallb].
  now rewrite !is_hex_ascii by apply hex_digit_is_hex.
Qed.

Lemma unhex_hex_byte (b : byte) :
  Sha256.byte_of_Z
    (16 * unhex_digit (Hmac.hex_digit (Z.shiftr (Sha256.zbyte b) 4))
     + unhex_digit (Hmac.hex_digit (Z.land (Sha256.zbyte b) 0xF))) = b.
Proof. destruct b; reflexivity. Qed.

Lemma unhex_hex bs : unhex (Hmac.hex bs) = bs.
Proof.
  induction bs as [|b bs IH]; [reflexivity|].
  cbn [Hmac.hex unhex]. now rewrite unhex_hex_byte, IH.
Qed.

Lemma hex_inj bs1 bs2 : Hmac.hex bs1 = Hmac.hex bs2 -> bs1 = bs2.
Proof.
  intros H. rewrite <- (unhex_hex bs1), <- (unhex_hex bs2). now f_equal.
Qed.

Lemma sha256_digest_cons msg :
  exists b rest, Sha256.digest msg = b :: rest.
Proof.
  unfold Sha256.digest. cbv zeta.
  unfold Sha256.bytes_of_word at 1. cbn [app].
  eexists. eexists. reflexivity.
Qed.

(** The expected digest is a non-empty string of hexadecimal digits. *)
Lemma expected_hash_shape secret b :
  exists c rest,
    expected_hash secret b = String c rest /\ is_hex c = true /\
    is_ascii (expected_hash secret b) = true.
Proof.
  unfold expected_hash, Hmac.hexdigest, Hmac.digest. cbv zeta.
  match goal with
  | |- context [Hmac.hex (Sha256.digest ?m)] =>
      destruct (sha256_digest_cons m) as [x [rest E]]
  end.
  rewrite E. cbn [Hmac.hex].
  eexists. eexists. split; [reflexivity|]. split.
  - apply hex_digit_is_hex.
  - change (is_ascii (Hmac.hex (x :: rest)) = true). apply hex_is_ascii.
Qed.

Lemma startswith_sha256_first c rest :
  Ascii.eqb c "s" = false -> startswith (String c rest) sha256_prefix = false.
Proof.
  intros H. unfold startswith, sha256_prefix. cbn [String.prefix].
  destruct (ascii_dec "s" c) as [E|E]; [|reflexivity].
  subst c. discriminate.
Qed.

(** What the gate returns, in terms of the digest candidate. *)
Lemma verify_signature_ok_iff secret request :
  verify_signature secret request = Ok tt <->
  secret <> "" /\
  exists s, signature_header request = Some s /\ s <> "" /\
            sig_hash_of s = Ok (expected_hash secret (body request)).
Proof.
  unfold verify_signature. fold (signature_header request).
  destruct (expected_hash_shape secret (body request)) as [c [rest [_ [_ Ha]]]].
  destruct secret as [|s0 secret']; cbn [truthy negb].
  { split; [discriminate | intros [H _]; now elim H]. }
  set (sec := String s0 secret') in *.
  destruct (signature_header request) as [[|c1 s1]|].
  - split; [discriminate|]. intros [_ [s [E [Hne _]]]]. congruence.
  - destruct (sig_hash_of (String c1 s1)) as [h|e] eqn:Eh; cbn [bind].
    + unfold compare_digest.
      destruct (is_ascii h) eqn:Hh; cbn [andb].
      * rewrite Ha. cbn [bind].
        destruct (String.eqb h (expected_hash sec (body request))) eqn:E;
          cbn [negb].
        -- apply String.eqb_eq in E. subst h.
           split; [intros _|reflexivity].
           split; [discriminate|].
           exists (String c1 s1). repeat split; [discriminate | exact Eh].
        -- apply String.eqb_neq in E.
           split; [discriminate|].
           intros [_ [s [Es [_ Hs]]]]. injection Es as <-. congruence.
      * cbn [bind]. split; [discriminate|].
        intros [_ [s [Es [_ Hs]]]]. injection Es as <-.
        rewrite Eh in Hs. injection Hs as ->. congruence.
    + split; [discriminate|].
      intros [_ [s [Es [_ Hs]]]]. injection Es as <-. congruence.
  - split; [discriminate|]. intros [_ [s [E _]]]. discriminate.
Qed.

(** X16.  A request that carries the hexadecimal HMAC-SHA256 of its own
    body under the configured, non-empty secret passes the gate, in
    whichever of the two headers the signature is found. *)
Lemma verify_signature_signed secret request :
  secret <> "" ->
  signature_header request = Some (sign_payload (body request) secret) ->
  verify_signature secret request = Ok tt.
Proof.
  intros Hs Hh. apply verify_signature_ok_iff. split; [exact Hs|].
  exists (sign_payload (body request) secret).
  change (sign_payload (body request) secret)
    with (expected_hash secret (body request)) in *.
  destruct (expected_hash_shape secret (body request)) as [c [rest [E [Hc _]]]].
  split; [exact Hh|]. split; [rewrite E; discriminate|].
  unfold sig_hash_of. rewrite E at 1.
  rewrite startswith_sha256_first by now apply is_hex_not_s.
  now rewrite E.
Qed.

(** X17.  The signature of one body is accepted for another body exactly
    when the two bodies have the same HMAC-SHA256 under the secret. *)
Lemma verify_signature_other_body secret request b :
  secret <> "" ->
  signature_header request = Some (sign_payload b secret) ->
  (verify_signature secret request = Ok tt <->
   Hmac.digest (encode secret) (body request) = Hmac.digest (encode secret) b).
Proof.
  intros Hs Hh. rewrite verify_signature_ok_iff.
  change (sign_payload b secret) with (expected_hash secret b) in *.
  destruct (expected_hash_shape secret b) as [c [rest [E [Hc _]]]].
  assert (Hcand : sig_hash_of (expected_hash secret b) = Ok (expected_hash secret b)).
  { unfold sig_hash_of. rewrite E at 1.
    rewrite startswith_sha256_first by now apply is_hex_not_s.
    now rewrite E. }
  split.
  - intros [_ [s [Es [_ Hc']]]]. rewrite Hh in Es. injection Es as <-.
    rewrite Hcand in Hc'. apply Ok_inj in Hc'.
    unfold expected_hash, Hmac.hexdigest in Hc'. symmetry. now apply hex_inj.
  - intros Hd. split; [exact Hs|]. exists (expected_hash secret b).
    split; [exact Hh|]. split; [rewrite E; discriminate|].
    rewrite Hcand. unfold expected_hash, Hmac.hexdigest. now rewrite Hd.
Qed.

Lemma prefix_empty s : String.prefix "" s = true.
Proof. destruct s; reflexivity. Qed.

Lemma contains_cons_false c rest sep :
  contains (String c rest) (String sep "") = false ->
  Ascii.eqb c sep = false /\ contains rest (String sep "") = false.
Proof.
  cbn [contains String.prefix]. intros H.
  apply orb_false_iff in H. destruct H as [H1 H2].
  split; [|exact H2].
  destruct (ascii_dec sep c) as [E|E].
  - rewrite prefix_empty in H1. discriminate.
  - apply Ascii.eqb_neq. congruence.
Qed.

Lemma split_no_sep sep d :
  contains d (String sep "") = false -> split sep d = [d].
Proof.
  induction d as [|c d IH]; intros H; [reflexivity|].
  apply contains_cons_false in H. destruct H as [Hc Hd].
  cbn [split]. now rewrite Hc, (IH Hd).
Qed.

Lemma sig_hash_of_sha256 d :
  contains d "=" = false -> sig_hash_of (sha256_prefix ++ d) = Ok d.
Proof.
  intros H. unfold sig_hash_of, startswith, sha256_prefix.
  cbn [String.append String.prefix split Ascii.eqb Bool.eqb].
  rewrite prefix_empty, (split_no_sep _ _ H).
  reflexivity.
Qed.

(** C3, as stated, fails: the value [sha1=<digest>], whose part after the
    first [=] is the expected digest, is compared whole and rejected. *)
Lemma other_scheme_tag_is_not_stripped :
  spec_sig_hash sha1_tagged_signature = expected_hash "secret123" msg1_body /\
  sig_hash_of sha1_tagged_signature = Ok sha1_tagged_signature /\
  verify_signature "secret123"
    (signed_request "x-signature" sha1_tagged_signature msg1_body)
  = Raise (HTTPException 401 "invalid signature").
Proof. vm_compute. repeat split; reflexivity. Qed.

(** C3, amended.  The header value is taken either bare or with the literal
    prefix [sha256=]: a value that does not start with [sha256=] is compared
    whole, whatever else it starts with; of a value [sha256=<d>] in which
    [<d>] holds no further [=], exactly [<d>] is compared.  Verification
    succeeds exactly when the compared text is the expected digest. *)
Theorem signature_bare_or_sha256_prefixed :
  forall (secret : string) (request : Request) (s : string),
    secret <> "" ->
    signature_header request = Some s ->
    (startswith s sha256_prefix = false ->
     sig_hash_of s = Ok s /\
     (verify_signature secret request = Ok tt <->
      s = expected_hash secret (body request)))
    /\
    (forall d : string,
        s = (sha256_prefix ++ d)%string ->
        contains d "=" = false ->
        sig_hash_of s = Ok d /\
        (verify_signature secret request = Ok tt <->
         d = expected_hash secret (body request))).
Proof.
  intros secret request s Hsec Hh.
  destruct (expected_hash_shape secret (body request)) as [c [rest [E _]]].
  assert (Hgen : forall h, sig_hash_of s = Ok h -> s <> "" \/ h = s ->
            (verify_signature secret request = Ok tt <->
             h = expected_hash secret (body request))).
  { intros h Hc Hne. rewrite verify_signature_ok_iff. split.
    - intros [_ [s' [Es [_ Hs']]]]. rewrite Hh in Es. apply Ok_inj.
      rewrite <- Hc, <- Hs'. congruence.
    - intros ->. split; [exact Hsec|]. exists s.
      split; [exact Hh|]. split; [|exact Hc].
      destruct Hne as [Hne | Hne]; [exact Hne|].
      rewrite <- Hne, E. discriminate. }
  split.
  - intros Hp.
    assert (Hc : sig_hash_of s = Ok s) by (unfold sig_hash_of; now rewrite Hp).
    split; [exact Hc|]. apply Hgen; [exact Hc | now right].
  - intros d -> Hd.
    pose proof (sig_hash_of_sha256 d Hd) as Hc.
    split; [exact Hc|]. apply Hgen; [exact Hc | left; discriminate].
Qed.

Lemma signature_bare_or_sha256_prefixed_witness :
  sig_hash_of sha256_tagged_signature = Ok (sign_payload msg1_body "secret123")
  /\
  (verify_signature "secret123"
     (signed_request "x-signature" sha256_tagged_signature msg1_body) = Ok tt
   <-> sign_payload msg1_body "secret123" = expected_hash "secret123" msg1_body).
Proof.
  refine (proj2 (signature_bare_or_sha256_prefixed "secret123"
                   (signed_request "x-signature" sha256_tagged_signature msg1_body)
                   sha256_tagged_signature _ _)
                (sign_payload msg1_body "secret123") _ _).
  - discriminate.
  - vm_compute. reflexivity.
  - reflexivity.
  - vm_compute. reflexivity.
Defined.

(* ================================================================== *)
(** * Order of strings, sorting *)
(* ================================================================== *)

Lemma ascii_compare_refl c : Ascii.compare c c = Eq.
Proof. unfold Ascii.compare. apply N.compare_refl. Qed.

Lemma ascii_compare_lt_trans a b c :
  Ascii.compare a b = Lt -> Ascii.compare b c = Lt -> Ascii.compare a c = Lt.
Proof.
  unfold Ascii.compare. rewrite !N.compare_lt_iff. apply N.lt_trans.
Qed.

Lemma str_compare_refl s : String.compare s s = Eq.
Proof.
  induction s as [|c s IH]; [reflexivity|].
  cbn. now rewrite ascii_compare_refl.
Qed.

Lemma str_compare_lt_trans a : forall b c,
  String.compare a b = Lt -> String.compare b c = Lt -> String.compare a c = Lt.
Proof.
  induction a as [|x a IH]; intros [|y b] [|z c]; cbn;
    try discriminate; try reflexivity.
  destruct (Ascii.compare x y) eqn:Exy; try discriminate;
    destruct (Ascii.compare y z) eqn:Eyz; try discriminate; intros H1 H2.
  - apply Ascii.compare_eq_iff in Exy, Eyz. subst.
    rewrite ascii_compare_refl. eauto.
  - apply Ascii.compare_eq_iff in Exy. subst. now rewrite Eyz.
  - apply Ascii.compare_eq_iff in Eyz. subst. now rewrite Exy.
  - now rewrite (ascii_compare_lt_trans _ _ _ Exy Eyz).
Qed.

Lemma str_compare_gt_lt a b : String.compare a b = Gt <-> String.compare b a = Lt.
Proof.
  rewrite (String.compare_antisym a b).
  destruct (String.compare b a); cbn; split; congruence.
Qed.

Lemma str_leb_trans a b c :
  String.leb a b = true -> String.leb b c = true -> String.leb a c = true.
Proof.
  unfold String.leb.
  destruct (String.compare a b) eqn:Eab; try discriminate;
    destruct (String.compare b c) eqn:Ebc; try discriminate; intros _ _.
  - apply String.compare_eq_iff in Eab, Ebc. subst.
    now rewrite str_compare_refl.
  - apply String.compare_eq_iff in Eab. subst. now rewrite Ebc.
  - apply String.compare_eq_iff in Ebc. subst. now rewrite Eab.
  - now rewrite (str_compare_lt_trans _ _ _ Eab Ebc).
Qed.

Lemma lex_leb_total a b : lex_leb a b = true \/ lex_leb b a = true.
Proof.
  unfold lex_leb. rewrite (String.compare_antisym (fst b) (fst a)).
  destruct (String.compare (fst a) (fst b)); cbn; auto.
  apply String.leb_total.
Qed.

Lemma lex_leb_trans a b c :
  lex_leb a b = true -> lex_leb b c = true -> lex_leb a c = true.
Proof.
  unfold lex_leb.
  destruct (String.compare (fst a) (fst b)) eqn:Eab; try discriminate;
    destruct (String.compare (fst b) (fst c)) eqn:Ebc; try discriminate;
    intros H1 H2.
  - apply String.compare_eq_iff in Eab, Ebc. rewrite Eab, Ebc.
    rewrite str_compare_refl. eapply str_leb_trans; eauto.
  - apply String.compare_eq_iff in Eab. rewrite Eab. now rewrite Ebc.
  - apply String.compare_eq_iff in Ebc. rewrite <- Ebc. now rewrite Eab.
  - now rewrite (str_compare_lt_trans _ _ _ Eab Ebc).
Qed.

Lemma lex_leb_antisym a b :
  lex_leb a b = true -> lex_leb b a = true -> a = b.
Proof.
  unfold lex_leb. rewrite (String.compare_antisym (fst b) (fst a)).
  destruct (String.compare (fst a) (fst b)) eqn:E; cbn; try discriminate.
  apply String.compare_eq_iff in E. intros H1 H2.
  destruct a, b; cbn in *. f_equal; [exact E|].
  now apply String.leb_antisym.
Qed.

Section SortingFacts.
Context {A : Type} (leb : A -> A -> bool).
Hypothesis leb_total : forall a b, leb a b = true \/ leb b a = true.
Hypothesis leb_trans :
  forall a b c, leb a b = true -> leb b c = true -> leb a c = true.

Let le (a b : A) : Prop := leb a b = true.

Lemma insert_by_perm x l : Permutation (x :: l) (insert_by leb x l).
Proof.
  induction l as [|y l IH]; cbn; [reflexivity|].
  destruct (leb x y); [reflexivity|].
  rewrite perm_swap. now constructor.
Qed.

Lemma sort_by_perm l : Permutation l (sort_by leb l).
Proof.
  induction l as [|x l IH]; cbn; [constructor|].
  rewrite <- insert_by_perm. now constructor.
Qed.

Lemma insert_by_sorted x l :
  StronglySorted le l -> StronglySorted le (insert_by leb x l).
Proof.
  induction l as [|y l IH]; intros Hs; cbn.
  - repeat constructor.
  - inversion Hs as [|? ? Hs' Hall]; subst.
    destruct (leb x y) eqn:E.
    + constructor; [exact Hs|]. constructor; [exact E|].
      eapply Forall_impl; [|exact Hall]. intros z. now apply leb_trans.
    + constructor; [now apply IH|].
      assert (Hyx : le y x) by (destruct (leb_total x y); congruence).
      eapply Permutation_Forall; [apply insert_by_perm|].
      now constructor.
Qed.

Lemma sort_by_sorted l : StronglySorted le (sort_by leb l).
Proof.
  induction l as [|x l IH]; cbn; [constructor|].
  now apply insert_by_sorted.
Qed.

(** Two sorted lists with the same elements are the same list, when the
    comparison tells their elements apart. *)
Lemma sorted_perm_eq l1 : forall l2,
  (forall a b, In a l1 -> In b l1 -> le a b -> le b a -> a = b) ->
  StronglySorted le l1 -> StronglySorted le l2 -> Permutation l1 l2 ->
  l1 = l2.
Proof.
  induction l1 as [|a l1 IH]; intros l2 Hanti H1 H2 Hp.
  - apply Permutation_nil in Hp. now subst.
  - destruct l2 as [|b l2].
    { apply Permutation_sym, Permutation_nil in Hp. discriminate. }
    inversion H1 as [|? ? H1' Ha]; subst.
    inversion H2 as [|? ? H2' Hb]; subst.
    assert (Hba : In b (a :: l1))
      by (eapply Permutation_in; [symmetry; exact Hp | now left]).
    assert (Hab : In a (b :: l2))
      by (eapply Permutation_in; [exact Hp | now left]).
    assert (E : a = b).
    { destruct Hba as [E | Hin]; [exact E|].
      destruct Hab as [E | Hin']; [now symmetry|].
      apply Hanti; [now left | now right | |].
      - rewrite Forall_forall in Ha. now apply Ha.
      - rewrite Forall_forall in Hb. now apply Hb. }
    subst b. f_equal.
    apply IH; auto.
    + intros x y Hx Hy. apply Hanti; now right.
    + now apply Permutation_cons_inv in Hp.
Qed.

Lemma sort_by_perm_eq l1 l2 :
  (forall a b, In a l1 -> In b l1 -> le a b -> le b a -> a = b) ->
  Permutation l1 l2 -> sort_by leb l1 = sort_by leb l2.
Proof.
  intros Hanti Hp. apply sorted_perm_eq.
  - intros a b Ha Hb. apply Hanti;
      (eapply Permutation_in; [symmetry; apply sort_by_perm|]); assumption.
  - apply sort_by_sorted.
  - apply sort_by_sorted.
  - rewrite <- (sort_by_perm l1), <- (sort_by_perm l2). exact Hp.
Qed.

End SortingFacts.

(* ================================================================== *)
(** * [isoformat] keeps the order of UTC timestamps *)
(* ================================================================== *)

Lemma compare_same_head c s1 s2 :
  String.compare (String c s1) (String c s2) = String.compare s1 s2.
Proof. cbn. now rewrite ascii_compare_refl. Qed.

Lemma compare_app_eqlen a : forall a' x y,
  String.length a = String.length a' ->
  String.compare (a ++ x) (a' ++ y) =
  and_then (String.compare a a') (String.compare x y).
Proof.
  induction a as [|c a IH]; intros [|c' a'] x y Hlen; cbn in Hlen;
    try discriminate; [reflexivity|].
  cbn. destruct (Ascii.compare c c'); try reflexivity.
  apply IH. now injection Hlen.
Qed.

Lemma zfill_length w : forall n, String.length (zfill w n) = w.
Proof. induction w as [|w IH]; intros n; cbn; [reflexivity | now rewrite IH]. Qed.

Lemma digit_compare a b :
  0 <= a <= 9 -> 0 <= b <= 9 -> Ascii.compare (digit a) (digit b) = (a ?= b).
Proof.
  intros Ha Hb. unfold Ascii.compare, digit.
  rewrite !N_ascii_embedding by lia.
  rewrite Z2N.inj_compare by lia.
  apply Z.add_compare_mono_l.
Qed.

Lemma zfill_compare w : forall n m,
  0 <= n < 10 ^ Z.of_nat w -> 0 <= m < 10 ^ Z.of_nat w ->
  String.compare (zfill w n) (zfill w m) = (n ?= m).
Proof.
  induction w as [|w IH]; intros n m Hn Hm.
  - cbn in *. assert (n = 0) by lia. assert (m = 0) by lia. now subst.
  - rewrite Nat2Z.inj_succ, Z.pow_succ_r in Hn, Hm by lia.
    cbn [zfill String.compare].
    set (p := 10 ^ Z.of_nat w) in *.
    assert (Hp : 0 < p) by (apply Z.pow_pos_nonneg; lia).
    pose proof (Z.div_mod n p ltac:(lia)) as En.
    pose proof (Z.div_mod m p ltac:(lia)) as Em.
    pose proof (Z.mod_pos_bound n p Hp) as Rn.
    pose proof (Z.mod_pos_bound m p Hp) as Rm.
    assert (Qn : 0 <= n / p <= 9).
    { split; [apply Z.div_pos; lia|].
      assert (n / p < 10) by (apply Z.div_lt_upper_bound; lia). lia. }
    assert (Qm : 0 <= m / p <= 9).
    { split; [apply Z.div_pos; lia|].
      assert (m / p < 10) by (apply Z.div_lt_upper_bound; lia). lia. }
    rewrite digit_compare by assumption.
    destruct (Z.compare_spec (n / p) (m / p)) as [E | L | G].
    + rewrite IH by assumption.
      destruct (Z.compare_spec (n mod p) (m mod p)) as [E' | L' | G'];
        symmetry.
      * apply Z.compare_eq_iff. nia.
      * apply Z.compare_lt_iff. nia.
      * apply Z.compare_gt_iff. nia.
    + symmetry. apply Z.compare_lt_iff. nia.
    + symmetry. apply Z.compare_gt_iff. nia.
Qed.

Lemma and_then_assoc a b c :
  and_then (and_then a b) c = and_then a (and_then b c).
Proof. now destruct a. Qed.

Lemma valid_utc_fields d :
  valid_utc d = true ->
  (0 <= year d < 10 ^ 4 /\ 0 <= month d < 10 ^ 2 /\ 0 <= day d < 10 ^ 2) /\
  (0 <= hour d < 10 ^ 2 /\ 0 <= minute d < 10 ^ 2 /\ 0 <= second d < 10 ^ 2) /\
  0 <= microsecond d < 10 ^ 6 /\ utcoffset d = Some 0.
Proof.
  unfold valid_utc. rewrite !andb_true_iff, !Z.leb_le.
  intros H. repeat match goal with H : _ /\ _ |- _ => destruct H end.
  assert (utcoffset d = Some 0)
    by (destruct (utcoffset d) as [[| |]|]; congruence).
  repeat split; try lia; assumption.
Qed.

(** The fraction and offset part of [isoformat] for a UTC value. *)
Lemma fraction_compare u1 u2 :
  0 <= u1 < 10 ^ 6 -> 0 <= u2 < 10 ^ 6 ->
  String.compare
    ((if Z.eqb u1 0 then "" else "." ++ zfill 6 u1) ++ "+00:00")
    ((if Z.eqb u2 0 then "" else "." ++ zfill 6 u2) ++ "+00:00")
  = (u1 ?= u2).
Proof.
  intros H1 H2.
  destruct (Z.eqb_spec u1 0) as [E1|E1], (Z.eqb_spec u2 0) as [E2|E2].
  - subst. reflexivity.
  - subst. symmetry. cbn [String.append String.compare].
    apply Z.compare_lt_iff. lia.
  - subst. symmetry. cbn [String.append String.compare].
    apply Z.compare_gt_iff. lia.
  - change (("." ++ zfill 6 u1) ++ "+00:00")%string
      with (String "." (zfill 6 u1 ++ "+00:00")).
    change (("." ++ zfill 6 u2) ++ "+00:00")%string
      with (String "." (zfill 6 u2 ++ "+00:00")).
    rewrite compare_same_head, compare_app_eqlen
      by now rewrite !zfill_length.
    rewrite (zfill_compare 6) by assumption.
    now destruct (u1 ?= u2).
Qed.

Lemma isoformat_compare d1 d2 :
  valid_utc d1 = true -> valid_utc d2 = true ->
  String.compare (isoformat d1) (isoformat d2) = dt_compare d1 d2.
Proof.
  intros V1 V2.
  apply valid_utc_fields in V1, V2.
  destruct V1 as [[Y1 [M1 D1]] [[H1 [I1 S1]] [U1 O1]]].
  destruct V2 as [[Y2 [M2 D2]] [[H2 [I2 S2]] [U2 O2]]].
  unfold isoformat, dt_compare. rewrite O1, O2.
  change ((if Z.ltb 0 0 then "-" else "+") ++ zfill 2 (Z.abs 0 / 60) ++ ":"
          ++ zfill 2 (Z.abs 0 mod 60))%string with "+00:00".
  repeat (rewrite compare_app_eqlen by now rewrite !zfill_length);
  repeat (change (String.compare ("-" ++ ?a) ("-" ++ ?b))
            with (String.compare (String "-" a) (String "-" b));
          rewrite compare_same_head;
          rewrite compare_app_eqlen by now rewrite !zfill_length).
  change (String.compare ("T" ++ ?a) ("T" ++ ?b))
    with (String.compare (String "T" a) (String "T" b)).
  rewrite compare_same_head.
  rewrite compare_app_eqlen by now rewrite !zfill_length.
  repeat (change (String.compare (":" ++ ?a) (":" ++ ?b))
            with (String.compare (String ":" a) (String ":" b));
          rewrite compare_same_head;
          rewrite compare_app_eqlen by now rewrite !zfill_length).
  rewrite fraction_compare by assumption.
  rewrite (zfill_compare 4), !(zfill_compare 2) by assumption.
  reflexivity.
Qed.

Lemma dt_compare_eq d1 d2 :
  valid_utc d1 = true -> valid_utc d2 = true ->
  dt_compare d1 d2 = Eq -> d1 = d2.
Proof.
  intros V1 V2 H.
  apply valid_utc_fields in V1, V2.
  destruct V1 as [_ [_ [_ O1]]], V2 as [_ [_ [_ O2]]].
  unfold dt_compare, and_then in H.
  repeat match type of H with
         | match (?a ?= ?b) with _ => _ end = Eq =>
             destruct (Z.compare_spec a b); try discriminate
         end.
  apply Z.compare_eq_iff in H.
  destruct d1, d2; cbn in *. congruence.
Qed.

Lemma isoformat_leb d1 d2 :
  valid_utc d1 = true -> valid_utc d2 = true ->
  String.leb (isoformat d1) (isoformat d2) = dt_leb d1 d2.
Proof.
  intros V1 V2. unfold String.leb, dt_leb.
  now rewrite isoformat_compare.
Qed.

Lemma isoformat_inj d1 d2 :
  valid_utc d1 = true -> valid_utc d2 = true ->
  isoformat d1 = isoformat d2 -> d1 = d2.
Proof.
  intros V1 V2 H. apply dt_compare_eq; try assumption.
  rewrite <- isoformat_compare, H by assumption. apply str_compare_refl.
Qed.

(* ================================================================== *)
(** * [query_messages]: order and total *)
(* ================================================================== *)

Lemma Forall_firstn {A} (P : A -> Prop) n : forall l,
  Forall P l -> Forall P (firstn n l).
Proof.
  induction n as [|n IH]; intros l H; [constructor|].
  destruct H; cbn; constructor; auto.
Qed.

Lemma StronglySorted_firstn {A} (R : A -> A -> Prop) n : forall l,
  StronglySorted R l -> StronglySorted R (firstn n l).
Proof.
  induction n as [|n IH]; intros l Hs; [constructor|].
  destruct l as [|x l]; [constructor|]. cbn.
  inversion Hs as [|? ? Hs' Hall]; subst.
  constructor; [now apply IH | now apply Forall_firstn].
Qed.

Lemma StronglySorted_skipn {A} (R : A -> A -> Prop) n : forall l,
  StronglySorted R l -> StronglySorted R (skipn n l).
Proof.
  induction n as [|n IH]; intros l Hs; [exact Hs|].
  destruct l as [|x l]; [constructor|]. cbn.
  inversion Hs; subst. now apply IH.
Qed.

Lemma StronglySorted_map {A B} (f : A -> B) (R : B -> B -> Prop) l :
  StronglySorted (fun a b => R (f a) (f b)) l -> StronglySorted R (map f l).
Proof.
  induction 1 as [|x l Hs IH Hall]; cbn; constructor; [exact IH|].
  now apply Forall_map.
Qed.

Lemma StronglySorted_impl {A} (R R' : A -> A -> Prop) l :
  (forall a b, R a b -> R' a b) ->
  StronglySorted R l -> StronglySorted R' l.
Proof.
  intros HR. induction 1 as [|x l Hs IH Hall]; constructor; [exact IH|].
  eapply Forall_impl; [|exact Hall]. intros b. apply HR.
Qed.

Lemma limit_offset_sorted (R : Row -> Row -> Prop) limit offset l :
  StronglySorted R l -> StronglySorted R (limit_offset limit offset l).
Proof.
  intros Hs. unfold limit_offset.
  destruct (limit <? 0).
  - now apply StronglySorted_skipn.
  - now apply StronglySorted_firstn, StronglySorted_skipn.
Qed.

Lemma row_leb_dict_before a b :
  row_leb a b = true -> dict_before (to_dict a) (to_dict b).
Proof.
  unfold row_leb, lex_leb, dict_before; cbn.
  destruct (String.compare (ts a) (ts b)) eqn:E; try discriminate.
  - apply String.compare_eq_iff in E. now right.
  - now left.
Qed.

Lemma dict_before_chron a b : dict_before a b -> chron_before a b.
Proof.
  intros H ta tb Va Vb Ea Eb. unfold dict_before in H.
  rewrite Ea, Eb in H. rewrite isoformat_compare in H by assumption.
  destruct H as [H | [H1 H2]]; [now left|].
  right. split; [|exact H2]. now apply isoformat_inj.
Qed.

(** C5.  The returned items are in ascending order of timestamp, items
    with the same timestamp in ascending order of [message_id] (on the
    stored text, and so, for rows stamped in UTC, on the instants), and the
    returned total is the number of rows the filter selects, the same for
    every [limit] and [offset]. *)
Theorem query_sorted_with_full_total :
  forall (db : Table) (limit offset : Z) (from_filter : option string)
         (since : option datetime) (q : option string),
    let items := fst (query_messages db limit offset from_filter since q) in
    let total := snd (query_messages db limit offset from_filter since q) in
    StronglySorted dict_before items /\
    StronglySorted chron_before items /\
    total = Z.of_nat (List.length (filter (where_clause from_filter since q) db)) /\
    Z.of_nat (List.length items) <= total /\
    (forall limit' offset' : Z,
        snd (query_messages db limit' offset' from_filter since q) = total).
Proof.
  intros db limit offset from_filter since q items total.
  assert (Hs : StronglySorted dict_before items).
  { unfold items, query_messages; cbn [fst].
    apply StronglySorted_map, limit_offset_sorted.
    eapply StronglySorted_impl; [apply row_leb_dict_before|].
    apply (sort_by_sorted row_leb).
    - intros a b. apply lex_leb_total.
    - intros a b c. apply lex_leb_trans. }
  split; [exact Hs|]. split.
  { eapply StronglySorted_impl; [apply dict_before_chron | exact Hs]. }
  split; [reflexivity|]. split; [|reflexivity].
  unfold items, total, query_messages; cbn [fst snd].
  rewrite length_map. apply inj_le.
  set (sel := filter (where_clause from_filter since q) db).
  rewrite (Permutation_length (sort_by_perm row_leb sel)).
  unfold order_by. generalize (sort_by row_leb sel) as l. intros l.
  unfold limit_offset. destruct (limit <? 0).
  - rewrite length_skipn. lia.
  - rewrite length_firstn, length_skipn.
    pose proof (Nat.le_min_r (Z.to_nat limit)
                  (List.length l - Z.to_nat offset)). lia.
Qed.

(* ================================================================== *)
(** * [query_messages]: the filters *)
(* ================================================================== *)




Lemma prefix_cons a s1 b s2 :
  String.prefix (String a s1) (String b s2) =
  Ascii.eqb a b && String.prefix s1 s2.
Proof.
  cbn [String.prefix]. destruct (ascii_dec a b) as [E|E].
  - subst. now rewrite Ascii.eqb_refl.
  - apply Ascii.eqb_neq in E. now rewrite E.
Qed.




Lemma limit_offset_all limit offset (l : list Row) :
  offset <= 0 -> Z.of_nat (List.length l) <= limit ->
  limit_offset limit offset l = l.
Proof.
  intros Ho Hl. unfold limit_offset.
  replace (Z.to_nat offset) with 0%nat by lia. cbn [skipn].
  destruct (limit <? 0); [reflexivity|].
  apply firstn_all2. lia.
Qed.







(* ================================================================== *)
(** * Dictionaries keyed by series *)
(* ================================================================== *)

Lemma pair_eqb_eq a b : pair_eqb a b = true <-> a = b.
Proof.
  unfold pair_eqb. rewrite andb_true_iff, !String.eqb_eq.
  destruct a, b; cbn. split; [intros [-> ->]; reflexivity|].
  intros E. injection E as -> ->. now split.
Qed.

Lemma subset_incl a b : subset a b = true <-> incl a b.
Proof.
  unfold subset, incl. rewrite forallb_forall.
  split; intros H x Hx.
  - apply H in Hx. apply existsb_exists in Hx.
    destruct Hx as [y [Hy E]]. apply pair_eqb_eq in E. now subst.
  - apply existsb_exists. exists x. split; [now apply H|].
    now apply pair_eqb_eq.
Qed.

Lemma labels_eqb_iff a b : labels_eqb a b = true <-> incl a b /\ incl b a.
Proof. unfold labels_eqb. now rewrite andb_true_iff, !subset_incl. Qed.

Lemma key_eqb_iff a b :
  key_eqb a b = true <-> fst a = fst b /\ incl (snd a) (snd b) /\ incl (snd b) (snd a).
Proof.
  unfold key_eqb. now rewrite andb_true_iff, String.eqb_eq, labels_eqb_iff.
Qed.

Lemma key_eqb_refl k : key_eqb k k = true.
Proof. apply key_eqb_iff. repeat split; apply incl_refl. Qed.

Lemma key_eqb_sym a b : key_eqb a b = true -> key_eqb b a = true.
Proof. rewrite !key_eqb_iff. intros [H1 [H2 H3]]. now repeat split. Qed.

Lemma key_eqb_trans a b c :
  key_eqb a b = true -> key_eqb b c = true -> key_eqb a c = true.
Proof.
  rewrite !key_eqb_iff. intros [H1 [H2 H3]] [H4 [H5 H6]].
  repeat split; [congruence | |]; eapply incl_tran; eauto.
Qed.

Section DictFacts.
Context {V : Type}.
Implicit Types (d : list (SeriesKey * V)) (k : SeriesKey) (v : V).

Lemma dict_get_set_same d k v default :
  dict_get (dict_set d k v) k default = v.
Proof.
  induction d as [|[k' v'] d IH]; cbn.
  - now rewrite key_eqb_refl.
  - destruct (key_eqb k' k) eqn:E; cbn; now rewrite E.
Qed.

Lemma dict_get_set_other d k k2 v default :
  key_eqb k k2 = false ->
  dict_get (dict_set d k v) k2 default = dict_get d k2 default.
Proof.
  intros Hne. induction d as [|[k' v'] d IH]; cbn.
  - now rewrite Hne.
  - destruct (key_eqb k' k) eqn:E; cbn.
    + destruct (key_eqb k' k2) eqn:E2; [|reflexivity].
      rewrite (key_eqb_trans _ _ _ (key_eqb_sym _ _ E) E2) in Hne.
      discriminate.
    + destruct (key_eqb k' k2); [reflexivity | exact IH].
Qed.

Lemma dict_mem_set d k v : dict_mem (dict_set d k v) k = true.
Proof.
  unfold dict_mem. induction d as [|[k' v'] d IH]; cbn.
  - now rewrite key_eqb_refl.
  - destruct (key_eqb k' k) eqn:E; cbn; rewrite E; [reflexivity | exact IH].
Qed.

End DictFacts.

(* ================================================================== *)
(** * The ingestion pipeline *)
(* ================================================================== *)

Lemma webhook_verified secret now request payload w :
  verify_signature secret request = Ok tt ->
  webhook secret now request payload w =
  if has_key (w_db w) (p_message_id payload)
  then (Ok (mkResponse 200 ok_body),
        mkWorld (w_db w) (record_webhook_result "duplicate" (w_metrics w)))
  else (Ok (mkResponse 200 ok_body),
        mkWorld (w_db w ++ [mkRow (p_message_id payload) (p_sender payload)
                                  (p_receiver payload)
                                  (isoformat (p_ts payload)) (p_text payload)
                                  (isoformat now)])
                (record_webhook_result "success" (w_metrics w))).
Proof.
  intros Hv. unfold webhook. rewrite Hv, insert_message_eq.
  destruct (has_key (w_db w) (p_message_id payload)); reflexivity.
Qed.

Lemma webhook_rejected secret now request payload w e :
  verify_signature secret request = Raise e ->
  webhook secret now request payload w = (Raise e, w).
Proof. intros Hv. unfold webhook. now rewrite Hv. Qed.

Lemma counter_value_http fadd path status latency m name labels :
  String.eqb "http_requests_total" name = false ->
  counter_value (record_http_request fadd path status latency m) name labels
  = counter_value m name labels.
Proof.
  intros Hn. unfold counter_value, record_http_request; cbn [counters].
  apply dict_get_set_other. unfold key_eqb; cbn [fst]. now rewrite Hn.
Qed.

Lemma split_cons sep s : exists h t, split sep s = h :: t.
Proof.
  induction s as [|c s [h [t E]]]; cbn; [now eexists; eexists|].
  destruct (Ascii.eqb c sep); [now eexists; eexists|].
  rewrite E. now eexists; eexists.
Qed.

Lemma prefix_app p : forall s,
  String.prefix p s = true -> exists d, s = (p ++ d)%string.
Proof.
  induction p as [|a p IH]; intros s H.
  - now exists s.
  - destruct s as [|b s]; [discriminate|].
    rewrite prefix_cons in H. apply andb_true_iff in H. destruct H as [E H].
    apply Ascii.eqb_eq in E. subst b.
    destruct (IH _ H) as [d ->]. now exists d.
Qed.

(** The index [[1]] after [split("=")] is never out of range. *)
Lemma sig_hash_of_total s : exists h, sig_hash_of s = Ok h.
Proof.
  unfold sig_hash_of. destruct (startswith s sha256_prefix) eqn:E.
  - apply prefix_app in E. destruct E as [d ->].
    destruct (split_cons "=" d) as [h [t Ed]].
    exists h. unfold sha256_prefix.
    cbn [String.append split Ascii.eqb Bool.eqb]. now rewrite Ed.
  - now exists s.
Qed.

(** The ways the gate fails: the secret is unset (503), the header is
    missing or empty or its digest differs (401), or the digest candidate
    holds a character outside ASCII and [compare_digest] raises. *)
Lemma verify_signature_raises secret request e :
  verify_signature secret request = Raise e ->
  (secret = "" /\ e = HTTPException 503 "Server configuration error") \/
  (secret <> "" /\ e = HTTPException 401 "invalid signature") \/
  (secret <> "" /\ e = TypeError /\
   exists s h, signature_header request = Some s /\ sig_hash_of s = Ok h /\
               is_ascii h = false).
Proof.
  unfold verify_signature. fold (signature_header request).
  destruct secret as [|c0 secret']; cbn [truthy negb].
  { intros H. injection H as <-. now left. }
  assert (Hne : String c0 secret' <> "") by discriminate.
  destruct (signature_header request) as [[|c s]|] eqn:Es;
    try (intros H; injection H as <-; right; now left).
  destruct (sig_hash_of_total (String c s)) as [h Eh]. rewrite Eh.
  cbn [bind]. unfold compare_digest.
  destruct (is_ascii h) eqn:Ha; cbn [andb bind].
  - destruct (expected_hash_shape (String c0 secret') (body request))
      as [_ [_ [_ [_ ->]]]].
    cbn [bind]. destruct (negb _); [|discriminate].
    intros H; injection H as <-. right. now left.
  - intros H; injection H as <-. right. right.
    split; [exact Hne|]. split; [reflexivity|]. now exists (String c s), h.
Qed.

(** X18.  A request that fails the gate is never answered as a success,
    writes nothing to the table, counts nothing under
    [webhook_requests_total], and is recorded by the middleware under the
    status the caller sees: that of the [HTTPException], or 500 for any
    other exception. *)
Lemma failed_verification_outcome
    (float_add : Q -> Q -> Q) secret now latency_ms request payload w e :
  verify_signature secret request = Raise e ->
  let out := dispatch float_add secret now latency_ms request payload w in
  seen_status (fst out) =
    match e with
    | HTTPException status _ => status
    | _ => 500
    end /\
  seen_status (fst out) <> 200 /\
  w_db (snd out) = w_db w /\
  w_metrics (snd out) =
    record_http_request float_add (url_path request) (seen_status (fst out))
                        latency_ms (w_metrics w) /\
  forall labels,
    counter_value (w_metrics (snd out)) "webhook_requests_total" labels
    = counter_value (w_metrics w) "webhook_requests_total" labels.
Proof.
  intros Hv out.
  assert (Hout : out =
    (match e with
     | HTTPException status detail => Ok (mkResponse status (detail_body detail))
     | _ => Raise e
     end,
     mkWorld (w_db w)
       (record_http_request float_add (url_path request)
          match e with HTTPException status _ => status | _ => 500 end
          latency_ms (w_metrics w)))).
  { unfold out, dispatch, call_next.
    rewrite (webhook_rejected _ _ _ _ _ _ Hv). now destruct e. }
  rewrite Hout. cbn [fst snd w_db w_metrics].
  assert (Hst : seen_status
            match e with
            | HTTPException status detail =>
                Ok (mkResponse status (detail_body detail))
            | _ => Raise e
            end = match e with HTTPException status _ => status | _ => 500 end)
    by now destruct e.
  rewrite Hst. split; [reflexivity|]. split.
  { destruct (verify_signature_raises _ _ _ Hv)
      as [[_ ->] | [[_ ->] | [_ [-> _]]]]; discriminate. }
  split; [reflexivity|]. split; [reflexivity|].
  intros labels. now apply counter_value_http.
Qed.

(** With a signature that holds only ASCII characters, or none at all, the
    failure the caller sees is 401 or 503. *)
Lemma failed_verification_status secret request e :
  verify_signature secret request = Raise e ->
  (forall s h, signature_header request = Some s -> sig_hash_of s = Ok h ->
               is_ascii h = true) ->
  e = HTTPException 503 "Server configuration error" \/
  e = HTTPException 401 "invalid signature".
Proof.
  intros Hv Hascii.
  destruct (verify_signature_raises _ _ _ Hv)
    as [[_ ->] | [[_ ->] | [_ [_ [s [h [Hs [Hh Ha]]]]]]]]; auto.
  rewrite (Hascii _ _ Hs Hh) in Ha. discriminate.
Qed.

(** C7 at the failing input: a signature header with a non-ASCII character
    makes [hmac.compare_digest] raise [TypeError]; the exception leaves the
    application and the caller sees 500, not 401.  Nothing is stored and
    the request is counted under status 500. *)
Theorem non_ascii_signature_is_server_error :
  let request := signed_request "x-signature" non_ascii_signature msg1_body in
  let out := run request msg1 empty_world in
  verify_signature "secret123" request = Raise TypeError /\
  fst out = Raise TypeError /\
  seen_status (fst out) = 500 /\
  w_db (snd out) = [] /\
  counter_value (w_metrics (snd out)) "http_requests_total"
                [("path", "/webhook"); ("status", "500")] = 1.
Proof. vm_compute. repeat split; reflexivity. Qed.

(* ================================================================== *)
(** * Histogram buckets are cumulative *)
(* ================================================================== *)

Lemma float_succ_ge x : x <= float_succ x.
Proof. unfold float_succ. destruct (x <? 2 ^ 53); lia. Qed.

Lemma float_succ_mono x y : x <= y -> float_succ x <= float_succ y.
Proof.
  unfold float_succ. intros H.
  destruct (Z.ltb_spec x (2 ^ 53)), (Z.ltb_spec y (2 ^ 53)); lia.
Qed.

Lemma float_succ_min n :
  0 <= n -> float_succ (Z.min n (2 ^ 53)) = Z.min (n + 1) (2 ^ 53).
Proof.
  unfold float_succ. intros H.
  destruct (Z.ltb_spec (Z.min n (2 ^ 53)) (2 ^ 53)); lia.
Qed.

Lemma float_le_int_mono x a b :
  a <= b -> float_le_int x a = true -> float_le_int x b = true.
Proof.
  unfold float_le_int. rewrite !Qle_bool_iff. intros Hab Hx.
  eapply Qle_trans; [exact Hx|]. now rewrite <- Zle_Qle.
Qed.

(** Adding one to a tail of a non-decreasing list keeps it
    non-decreasing. *)
Lemma bump_suffix_sorted k : forall bs,
  StronglySorted Z.le bs ->
  StronglySorted Z.le (firstn k bs ++ map float_succ (skipn k bs)).
Proof.
  induction k as [|k IH]; intros bs Hs.
  - cbn. induction Hs as [|b bs Hs IHs Hall]; cbn; constructor; [exact IHs|].
    apply Forall_map. eapply Forall_impl; [|exact Hall].
    intros y Hy. now apply float_succ_mono.
  - destruct bs as [|b bs]; [constructor|]. cbn.
    inversion Hs as [|? ? Hs' Hall]; subst.
    constructor; [now apply IH|].
    apply Forall_app. split; [now apply Forall_firstn|].
    apply Forall_map.
    assert (Hsk : Forall (Z.le b) (skipn k bs)).
    { rewrite <- (firstn_skipn k bs) in Hall.
      now apply Forall_app in Hall. }
    eapply Forall_impl; [|exact Hsk].
    intros y Hy. pose proof (float_succ_ge y). lia.
Qed.

(** Once one bound is at or above the latency, so are the larger ones. *)
Ltac chain_bounds :=
  repeat match goal with
         | H : true = true -> _ |- _ => specialize (H eq_refl)
         | H : ?a = true -> _, H' : ?a = true |- _ => specialize (H H')
         end;
  repeat match goal with
         | H : float_le_int _ _ = true |- _ => rewrite H; clear H
         end;
  split; [lia | reflexivity].

(** One observation adds one to the buckets from the first bound that is
    at or above the latency on, the [+Inf] bucket included. *)
Lemma observe_bumps_suffix x b0 b1 b2 b3 b4 b5 b6 b7 :
  exists k, (k < 8)%nat /\
    observe x [b0; b1; b2; b3; b4; b5; b6; b7] =
    firstn k [b0; b1; b2; b3; b4; b5; b6; b7]
    ++ map float_succ (skipn k [b0; b1; b2; b3; b4; b5; b6; b7]).
Proof.
  unfold observe, latency_buckets. cbn [bump_bounded bump_last].
  pose proof (float_le_int_mono x 10 50 ltac:(lia)) as H1.
  pose proof (float_le_int_mono x 50 100 ltac:(lia)) as H2.
  pose proof (float_le_int_mono x 100 200 ltac:(lia)) as H3.
  pose proof (float_le_int_mono x 200 500 ltac:(lia)) as H4.
  pose proof (float_le_int_mono x 500 1000 ltac:(lia)) as H5.
  pose proof (float_le_int_mono x 1000 5000 ltac:(lia)) as H6.
  destruct (float_le_int x 10); [exists 0%nat; chain_bounds|].
  destruct (float_le_int x 50); [exists 1%nat; chain_bounds|].
  destruct (float_le_int x 100); [exists 2%nat; chain_bounds|].
  destruct (float_le_int x 200); [exists 3%nat; chain_bounds|].
  destruct (float_le_int x 500); [exists 4%nat; chain_bounds|].
  destruct (float_le_int x 1000); [exists 5%nat; chain_bounds|].
  destruct (float_le_int x 5000); [exists 6%nat | exists 7%nat];
    (split; [lia | reflexivity]).
Qed.

Lemma cumulative_fresh : cumulative (repeat 0 (List.length latency_buckets + 1)) 0.
Proof.
  unfold cumulative. cbn.
  split; [lia|]. split; [|split; [reflexivity | now left]].
  repeat (constructor; [|repeat constructor; lia]). constructor.
Qed.

Lemma cumulative_observe x bs n :
  List.length bs = 8%nat -> cumulative bs n ->
  cumulative (observe x bs) (n + 1).
Proof.
  intros Hlen [Hn [Hs [Hl _]]].
  do 8 (destruct bs as [|? bs]; [discriminate|]).
  destruct bs; [|discriminate].
  destruct (observe_bumps_suffix x z z0 z1 z2 z3 z4 z5 z6) as [k [Hk ->]].
  repeat split.
  - lia.
  - now apply bump_suffix_sorted.
  - rewrite <- float_succ_min, <- Hl by assumption.
    do 8 (destruct k as [|k]; [reflexivity|]). lia.
  - left. do 8 (destruct k as [|k]; [reflexivity|]). lia.
Qed.

Section DictKeyFacts.
Context {V : Type}.
Implicit Types (d : list (SeriesKey * V)) (k : SeriesKey) (v : V).

Lemma key_eqb_compat k k2 k' :
  key_eqb k k2 = true -> key_eqb k' k = key_eqb k' k2.
Proof.
  intros E. destruct (key_eqb k' k) eqn:E1, (key_eqb k' k2) eqn:E2; auto.
  - now rewrite (key_eqb_trans _ _ _ E1 E) in E2.
  - now rewrite (key_eqb_trans _ _ _ E2 (key_eqb_sym _ _ E)) in E1.
Qed.

Lemma dict_get_eqb d k k2 default :
  key_eqb k k2 = true -> dict_get d k default = dict_get d k2 default.
Proof.
  intros E. induction d as [|[k' v'] d IH]; cbn; [reflexivity|].
  now rewrite (key_eqb_compat _ _ k' E), IH.
Qed.

Lemma dict_mem_eqb d k k2 :
  key_eqb k k2 = true -> dict_mem d k = dict_mem d k2.
Proof.
  intros E. unfold dict_mem. induction d as [|[k' v'] d IH]; cbn; [reflexivity|].
  now rewrite (key_eqb_compat _ _ k' E), IH.
Qed.

Lemma dict_mem_set_other d k k2 v :
  key_eqb k k2 = false -> dict_mem (dict_set d k v) k2 = dict_mem d k2.
Proof.
  intros Hne. unfold dict_mem. induction d as [|[k' v'] d IH]; cbn.
  - now rewrite Hne.
  - destruct (key_eqb k' k) eqn:E; cbn; [reflexivity|]. now rewrite IH.
Qed.

Lemma dict_get_not_mem d k default :
  dict_mem d k = false -> dict_get d k default = default.
Proof.
  unfold dict_mem. induction d as [|[k' v'] d IH]; cbn; [reflexivity|].
  intros H. apply orb_false_iff in H. destruct H as [E H].
  rewrite E. now apply IH.
Qed.

End DictKeyFacts.

Lemma observations_snoc key ops op :
  observations key (ops ++ [op]) =
  observations key ops + (if observes key op then 1 else 0).
Proof.
  unfold observations. rewrite filter_app, length_app. cbn [filter].
  destruct (observes key op); cbn [List.length]; lia.
Qed.

Lemma series_inv_empty key : series_inv empty_metrics [] key.
Proof.
  unfold series_inv, cumulative, series_buckets, series_count, observations.
  cbn. repeat split; try lia; try discriminate; [constructor | now right].
Qed.

(** The observed series after [record_http_request]. *)
Lemma record_http_request_observed fadd path status x m :
  let hk : SeriesKey :=
    ("request_latency_ms", [("path", path); ("status", str_of_int status)]) in
  let m' := record_http_request fadd path status x m in
  dict_mem (histograms m') hk = true /\
  series_buckets m' hk =
    observe x (if dict_mem (histograms m) hk then series_buckets m hk
               else repeat 0 (List.length latency_buckets + 1)) /\
  series_count m' hk =
    (if dict_mem (histograms m) hk then series_count m hk else 0) + 1.
Proof.
  intros hk m'. subst hk m'.
  unfold record_http_request, series_buckets, series_count.
  cbn [histograms histogram_counts].
  rewrite dict_mem_set, !dict_get_set_same.
  destruct (dict_mem (histograms m) _); cbn [negb];
    now rewrite ?dict_get_set_same.
Qed.

(** Every other series after [record_http_request]. *)
Lemma record_http_request_others fadd path status x m key :
  key_eqb ("request_latency_ms",
           [("path", path); ("status", str_of_int status)]) key = false ->
  let m' := record_http_request fadd path status x m in
  dict_mem (histograms m') key = dict_mem (histograms m) key /\
  series_buckets m' key = series_buckets m key /\
  series_count m' key = series_count m key.
Proof.
  intros Hne m'. unfold m', record_http_request, series_buckets, series_count.
  cbn [histograms histogram_counts].
  destruct (dict_mem (histograms m) _); cbn [negb];
    now rewrite ?dict_mem_set_other, ?dict_get_set_other by assumption.
Qed.

Lemma series_inv_step fadd m ops op :
  (forall key, series_inv m ops key) ->
  forall key, series_inv (apply_op fadd m op) (ops ++ [op]) key.
Proof.
  intros Hinv key. destruct (Hinv key) as [Hc [Hn Hlen]].
  unfold series_inv. rewrite observations_snoc.
  destruct op as [path status x | result]; cbn [apply_op observes].
  2:{ unfold series_buckets, series_count, record_webhook_result in *.
      cbn [histograms histogram_counts].
      split; [exact Hc|]. split; [lia | exact Hlen]. }
  set (hk := ("request_latency_ms",
              [("path", path); ("status", str_of_int status)]) : SeriesKey).
  destruct (key_eqb hk key) eqn:E.
  - destruct (record_http_request_observed fadd path status x m)
      as [Hmem [Hb Hcount]]. fold hk in Hmem, Hb, Hcount.
    unfold series_buckets, series_count in *.
    rewrite <- (dict_get_eqb (histograms _) _ _ [] E),
            <- (dict_get_eqb (histogram_counts _) _ _ 0 E),
            <- (dict_mem_eqb (histograms _) _ _ E).
    rewrite <- (dict_get_eqb (histograms m) _ _ [] E),
            <- (dict_get_eqb (histogram_counts m) _ _ 0 E) in Hc.
    rewrite <- (dict_get_eqb (histogram_counts m) _ _ 0 E) in Hn.
    rewrite <- (dict_get_eqb (histograms m) _ _ [] E),
            <- (dict_mem_eqb (histograms m) _ _ E) in Hlen.
    rewrite Hb, Hcount, Hmem.
    destruct (dict_mem (histograms m) hk) eqn:Em.
    + assert (Hobs : cumulative (observe x (dict_get (histograms m) hk []))
                                (dict_get (histogram_counts m) hk 0 + 1))
        by (apply cumulative_observe; auto).
      split; [exact Hobs|]. split; [lia|]. intros _.
      destruct Hobs as [H0 [_ [_ [H8 | [_ Hz]]]]]; [exact H8|].
      destruct Hc as [Hc0 _]. lia.
    + assert (Hz : dict_get (histogram_counts m) hk 0 = 0).
      { destruct Hc as [_ [_ [_ [H8 | [_ Hz]]]]]; [|exact Hz].
        rewrite (dict_get_not_mem _ _ _ Em) in H8. discriminate. }
      assert (Hobs : cumulative
                (observe x (repeat 0 (List.length latency_buckets + 1))) (0 + 1))
        by (apply cumulative_observe; [reflexivity | apply cumulative_fresh]).
      split; [exact Hobs|]. split; [lia|]. intros _.
      destruct Hobs as [_ [_ [_ [H8 | [_ H1]]]]]; [exact H8 | lia].
  - destruct (record_http_request_others fadd path status x m key E)
      as [Hmem [Hb Hcount]]. fold hk in Hmem, Hb, Hcount.
    rewrite Hmem, Hb, Hcount.
    split; [exact Hc|]. split; [lia | exact Hlen].
Qed.

(** The registry built by any sequence of calls keeps every series
    cumulative, with its count the number of observations made on it. *)
Lemma run_ops_series_inv fadd ops :
  forall key, series_inv (run_ops fadd empty_metrics ops) ops key.
Proof.
  induction ops as [|op ops IH] using rev_ind.
  - apply series_inv_empty.
  - unfold run_ops. rewrite fold_left_app. cbn [fold_left].
    now apply series_inv_step.
Qed.

Lemma filter_repeat_true {A} (f : A -> bool) a n :
  f a = true -> filter f (repeat a n) = repeat a n.
Proof.
  intros H. induction n as [|n IH]; cbn; [reflexivity|]. now rewrite H, IH.
Qed.

Lemma observations_repeat key op n :
  observes key op = true -> observations key (repeat op n) = Z.of_nat n.
Proof.
  intros H. unfold observations.
  now rewrite (filter_repeat_true _ _ _ H), repeat_length.
Qed.

Lemma one_ms_request_observes : observes webhook_200 one_ms_request = true.
Proof. reflexivity. Qed.

(** C8, as stated, fails: a bucket count is a [float], and after
    [2^53 + 1] observations on one series its [+Inf] bucket holds [2^53]
    while the count of the series is [2^53 + 1]. *)
Lemma inf_bucket_stops_at_2_53 :
  series_count
    (run_ops Qplus empty_metrics (repeat one_ms_request (Z.to_nat (2 ^ 53 + 1))))
    webhook_200 = 2 ^ 53 + 1 /\
  inf_bucket
    (run_ops Qplus empty_metrics (repeat one_ms_request (Z.to_nat (2 ^ 53 + 1))))
    webhook_200 = 2 ^ 53.
Proof.
  remember (Z.to_nat (2 ^ 53 + 1)) as k eqn:Ek.
  assert (Hk : Z.of_nat k = 2 ^ 53 + 1).
  { rewrite Ek. apply Z2Nat.id. apply Z.lt_le_incl. reflexivity. }
  clear Ek.
  destruct (run_ops_series_inv Qplus (repeat one_ms_request k) webhook_200)
    as [[_ [_ [Hl _]]] [Hn _]].
  rewrite (observations_repeat _ _ k one_ms_request_observes), Hk in Hn.
  unfold inf_bucket. rewrite Hl, Hn.
  split; [reflexivity|]. apply Z.min_r. apply Z.lt_le_incl. reflexivity.
Qed.

(** C8, amended.  After any sequence of recording calls, for every series:
    the bucket counts are non-decreasing in bucket-bound order, the count
    of the series is the number of observations made on it, and the [+Inf]
    bucket holds that count as long as it is at most [2^53], and [2^53]
    beyond. *)
Theorem histogram_buckets_cumulative :
  forall (float_add : Q -> Q -> Q) (ops : list MetricOp) (key : SeriesKey),
    let m := run_ops float_add empty_metrics ops in
    StronglySorted Z.le (series_buckets m key) /\
    series_count m key = observations key ops /\
    inf_bucket m key = Z.min (series_count m key) (2 ^ 53) /\
    (observations key ops <= 2 ^ 53 -> inf_bucket m key = series_count m key).
Proof.
  intros float_add ops key m.
  destruct (run_ops_series_inv float_add ops key) as [[H0 [Hs [Hl _]]] [Hn _]].
  fold m in H0, Hs, Hl, Hn. unfold inf_bucket.
  repeat split; try assumption.
  intros Hle. rewrite Hl. apply Z.min_l. now rewrite Hn.
Qed.

(* ================================================================== *)
(** * [render_metrics] is stable *)
(* ================================================================== *)

Lemma sorted_perm labels : Permutation labels (sorted labels).
Proof. apply sort_by_perm. Qed.

Lemma lex_leb_by_key a b : lex_leb a b = true -> by_label_key a b.
Proof.
  unfold lex_leb, by_label_key, String.leb.
  destruct (String.compare (fst a) (fst b)); congruence.
Qed.

Lemma sorted_by_label_key labels : StronglySorted by_label_key (sorted labels).
Proof.
  eapply StronglySorted_impl; [apply lex_leb_by_key|].
  apply (sort_by_sorted pair_leb).
  - apply lex_leb_total.
  - apply lex_leb_trans.
Qed.

(** [sorted] does not depend on the order its argument is listed in. *)
Lemma sorted_perm_invariant l1 l2 :
  Permutation l1 l2 -> sorted l1 = sorted l2.
Proof.
  intros Hp. apply (sort_by_perm_eq pair_leb).
  - apply lex_leb_total.
  - apply lex_leb_trans.
  - intros a b _ _. apply lex_leb_antisym.
  - exact Hp.
Qed.

Lemma render_labels_perm l1 l2 :
  Permutation l1 l2 -> render_labels l1 = render_labels l2.
Proof. intros Hp. unfold render_labels. now rewrite (sorted_perm_invariant _ _ Hp). Qed.

Lemma same_key_refl k : same_key k k.
Proof. now split. Qed.

Lemma same_dict_refl {V} (d : list (SeriesKey * V)) : same_dict d d.
Proof.
  unfold same_dict. induction d; constructor; auto.
  split; [apply same_key_refl | reflexivity].
Qed.

Lemma same_registry_refl m : same_registry m m.
Proof. repeat split; apply same_dict_refl. Qed.

Lemma same_key_eqb a a' b b' :
  same_key a a' -> same_key b b' -> key_eqb a b = key_eqb a' b'.
Proof.
  intros [Na Pa] [Nb Pb].
  assert (H : key_eqb a b = true <-> key_eqb a' b' = true).
  { rewrite !key_eqb_iff, Na, Nb.
    split; intros [E [I1 I2]]; (split; [exact E|]); split; intros x Hx.
    - eapply Permutation_in; [exact Pb|]. apply I1.
      eapply Permutation_in; [symmetry; exact Pa | exact Hx].
    - eapply Permutation_in; [exact Pa|]. apply I2.
      eapply Permutation_in; [symmetry; exact Pb | exact Hx].
    - eapply Permutation_in; [symmetry; exact Pb|]. apply I1.
      eapply Permutation_in; [exact Pa | exact Hx].
    - eapply Permutation_in; [symmetry; exact Pa|]. apply I2.
      eapply Permutation_in; [exact Pb | exact Hx]. }
  destruct (key_eqb a b), (key_eqb a' b'); intuition congruence.
Qed.

Lemma same_dict_get {V} (d1 d2 : list (SeriesKey * V)) k1 k2 default :
  same_dict d1 d2 -> same_key k1 k2 ->
  dict_get d1 k1 default = dict_get d2 k2 default.
Proof.
  intros Hd Hk. induction Hd as [|[ka va] [kb vb] d1 d2 [Hkey Hv] Hd IH];
    cbn; [reflexivity|].
  cbn in Hkey, Hv. subst vb.
  now rewrite (same_key_eqb _ _ _ _ Hkey Hk), IH.
Qed.

Lemma render_counter_same e1 e2 :
  same_key (fst e1) (fst e2) /\ snd e1 = snd e2 ->
  render_counter e1 = render_counter e2.
Proof.
  destruct e1 as [[n1 l1] v1], e2 as [[n2 l2] v2].
  intros [[Hn Hp] Hv]. cbn in Hn, Hp, Hv. subst n2 v2.
  unfold render_counter. rewrite (render_labels_perm _ _ Hp).
  destruct l1, l2; try reflexivity.
  - apply Permutation_nil in Hp. discriminate.
  - apply Permutation_sym, Permutation_nil in Hp. discriminate.
Qed.

Lemma render_histogram_same frepr m1 m2 e1 e2 :
  same_registry m1 m2 ->
  same_key (fst e1) (fst e2) /\ snd e1 = snd e2 ->
  render_histogram frepr m1 e1 = render_histogram frepr m2 e2.
Proof.
  destruct e1 as [[n1 l1] b1], e2 as [[n2 l2] b2].
  intros [_ [_ [Hs Hc]]] [[Hn Hp] Hv]. cbn in Hn, Hp, Hv. subst n2 b2.
  unfold render_histogram. rewrite (render_labels_perm _ _ Hp).
  rewrite (same_dict_get _ _ (n1, l1) (n1, l2) _ Hs) by now split.
  rewrite (same_dict_get _ _ (n1, l1) (n1, l2) _ Hc) by now split.
  reflexivity.
Qed.

Lemma render_histograms_same frepr m1 m2 d1 d2 :
  same_registry m1 m2 -> same_dict d1 d2 ->
  flat_map (render_histogram frepr m1) d1
  = flat_map (render_histogram frepr m2) d2.
Proof.
  intros Hsame Hd.
  induction Hd as [|e1 e2 d1 d2 He Hd IH]; cbn; [reflexivity|].
  now rewrite (render_histogram_same frepr _ _ _ _ Hsame He), IH.
Qed.

Lemma render_metrics_same frepr m1 m2 :
  same_registry m1 m2 -> render_metrics frepr m1 = render_metrics frepr m2.
Proof.
  intros Hsame. unfold render_metrics, render_lines. do 2 f_equal.
  f_equal.
  - destruct Hsame as [Hc _].
    induction Hc as [|e1 e2 d1 d2 He Hc IH]; cbn; [reflexivity|].
    now rewrite (render_counter_same _ _ He), IH.
  - apply render_histograms_same; [exact Hsame | apply Hsame].
Qed.

Lemma str_app_assoc (a b c : string) : ((a ++ b) ++ c = a ++ (b ++ c))%string.
Proof. induction a as [|x a IH]; cbn; [reflexivity | now rewrite IH]. Qed.

Lemma str_app_nil_r (a : string) : (a ++ "")%string = a.
Proof. induction a as [|x a IH]; cbn; [reflexivity | now rewrite IH]. Qed.

Lemma concat_snoc sep (l : list string) x :
  String.concat sep (l ++ [x]) =
  match l with
  | [] => x
  | _ => (String.concat sep l ++ sep ++ x)%string
  end.
Proof.
  induction l as [|a l IH]; [reflexivity|].
  destruct l as [|b l]; [reflexivity|].
  change (String.concat sep ((a :: b :: l) ++ [x]))
    with (a ++ sep ++ String.concat sep ((b :: l) ++ [x]))%string.
  rewrite IH.
  change (String.concat sep (a :: b :: l))
    with (a ++ sep ++ String.concat sep (b :: l))%string.
  now rewrite !str_app_assoc.
Qed.

(** A joined, non-empty list of pairs ends with the closing quote of its
    last pair. *)
Lemma joined_pairs_end (pairs : Labels) :
  pairs <> [] ->
  exists a, String.concat "," (map render_pair pairs) = (a ++ quote)%string.
Proof.
  induction pairs as [|p pairs IH]; [congruence|]. intros _.
  destruct pairs as [|p' pairs].
  - exists (fst p ++ "=" ++ quote ++ snd p)%string. cbn [map String.concat].
    unfold render_pair. now rewrite !str_app_assoc.
  - destruct IH as [a Ea]; [discriminate|].
    exists (render_pair p ++ "," ++ a)%string.
    change (String.concat "," (map render_pair (p :: p' :: pairs)))
      with (render_pair p ++ ","
            ++ String.concat "," (map render_pair (p' :: pairs)))%string.
    rewrite Ea. now rewrite !str_app_assoc.
Qed.

Lemma app_quote_cons a : exists c s, (a ++ quote)%string = String c s.
Proof. unfold quote. destruct a as [|c a]; cbn; do 2 eexists; reflexivity. Qed.

Lemma rstrip_comma_quote a :
  rstrip_comma ((a ++ quote) ++ ",") = (a ++ quote)%string.
Proof.
  induction a as [|c a IH]; [reflexivity|].
  cbn [String.append rstrip_comma]. rewrite IH.
  destruct (app_quote_cons a) as [c' [s E]]. now rewrite E.
Qed.

(** The label text of a histogram line, as [render_metrics] builds it. *)
Lemma base_label_str_cases (pairs : Labels) :
  let joined := String.concat "," (map render_pair pairs) in
  match pairs with
  | [] => joined = ""
  | _ => exists c s, joined = String c s /\
                     rstrip_comma (joined ++ ",") = joined
  end.
Proof.
  destruct pairs as [|p pairs]; [reflexivity|]. cbv zeta.
  destruct (joined_pairs_end (p :: pairs)) as [a Ea]; [discriminate|].
  rewrite Ea. destruct (app_quote_cons a) as [c [s E]].
  exists c, s. split; [exact E | apply rstrip_comma_quote].
Qed.

Ltac norm_strings :=
  repeat (rewrite ?str_app_assoc; cbn [String.append]).

Lemma render_counter_sample name labels value :
  render_counter ((name, labels), value)
  = sample_line name (sorted labels) (float_int_repr value).
Proof.
  unfold render_counter, sample_line, render_labels.
  pose proof (sorted_perm labels) as Hp.
  destruct labels as [|p labels].
  - apply Permutation_nil in Hp. now rewrite Hp.
  - destruct (sorted (p :: labels)) as [|q qs] eqn:E; [|reflexivity].
    apply Permutation_sym, Permutation_nil in Hp. discriminate.
Qed.

Lemma sample_line_snoc name (pairs : Labels) x value :
  sample_line name (pairs ++ [x]) value =
  (name ++ "{"
   ++ match pairs with
      | [] => ""
      | _ => String.concat "," (map render_pair pairs) ++ ","
      end
   ++ render_pair x ++ "} " ++ value)%string.
Proof.
  unfold sample_line.
  destruct (pairs ++ [x]) as [|q qs] eqn:E; [now destruct pairs|].
  rewrite <- E, map_app. cbn [map]. rewrite concat_snoc.
  destruct pairs as [|p pairs]; cbn [map]; norm_strings; reflexivity.
Qed.

Lemma render_histogram_samples frepr m name labels buckets :
  render_histogram frepr m ((name, labels), buckets)
  = histogram_samples frepr name (sorted labels) buckets
      (dict_get (histogram_sums m) (name, labels) (0 : Q))
      (dict_get (histogram_counts m) (name, labels) 0).
Proof.
  unfold render_histogram, histogram_samples, render_labels.
  generalize (sorted labels) as pairs. intros pairs.
  pose proof (base_label_str_cases pairs) as Hb. cbv zeta in Hb.
  unfold bucket_bounds, bucket_values.
  cbn [latency_buckets List.length seq map combine app bucket_lines fst snd].
  rewrite !sample_line_snoc. unfold sample_line.
  destruct pairs as [|p pairs].
  - cbn [map String.concat rstrip_comma]. unfold render_pair.
    cbn [fst snd]. norm_strings. reflexivity.
  - destruct Hb as [c [s [Ej Er]]].
    set (joined := String.concat "," (map render_pair (p :: pairs))) in *.
    rewrite Ej in Er |- *. cbv beta iota. rewrite Er.
    unfold render_pair. cbn [fst snd]. norm_strings. reflexivity.
Qed.

Lemma render_lines_exposition frepr m :
  render_lines frepr m = exposition sorted frepr m.
Proof.
  unfold render_lines, exposition. f_equal.
  - apply map_ext. intros [[name labels] value]. apply render_counter_sample.
  - induction (histograms m) as [|[[name labels] buckets] hs IH];
      [reflexivity|].
    cbn [flat_map fst snd]. now rewrite render_histogram_samples, IH.
Qed.

(** C9, as stated, fails on the bucket lines of a histogram: the pair [le]
    is written after the pairs of the series, whatever their keys are.
    After one request to [/webhook], the first bucket line carries [path],
    [status], [le] in this order, which is not ascending by key, and the
    line with the three pairs in ascending order is not in the text. *)
Lemma bucket_line_not_sorted_by_key :
  let line := sample_line "request_latency_ms_bucket" bucket_line_pairs "1.0" in
  In line (render_lines (fun _ => "2.5") registry1) /\
  contains (render_metrics (fun _ => "2.5") registry1) (line ++ newline) = true /\
  ~ StronglySorted by_label_key bucket_line_pairs /\
  ~ In (sample_line "request_latency_ms_bucket" (sorted bucket_line_pairs) "1.0")
       (render_lines (fun _ => "2.5") registry1).
Proof.
  cbv zeta. split; [|split; [|split]].
  - vm_compute. tauto.
  - vm_compute. reflexivity.
  - intros H. inversion H as [|? ? _ F]; subst.
    inversion F as [|? ? _ F']; subst.
    inversion F' as [|? ? E _]; subst. vm_compute in E. discriminate E.
  - intros H.
    assert (E : existsb
                  (String.eqb (sample_line "request_latency_ms_bucket"
                                 (sorted bucket_line_pairs) "1.0"))
                  (render_lines (fun _ => "2.5") registry1) = true).
    { apply existsb_exists. eexists. split; [exact H | apply String.eqb_refl]. }
    vm_compute in E. discriminate E.
Qed.

(** C9, amended.  The text depends on the state alone: two calls on an
    unchanged registry return the same bytes, in whatever order each call
    finds the pairs of a label set.  The text is the exposition in which
    every line carries the pairs of its series in ascending order of label
    key; on a bucket line they are followed by the pair [le]. *)
Theorem render_metrics_stable :
  forall (float_repr : Q -> string) (m : Metrics),
    (forall m1 m2, same_registry m m1 -> same_registry m m2 ->
        render_metrics float_repr m1 = render_metrics float_repr m2) /\
    render_metrics float_repr m
    = (String.concat newline (exposition sorted float_repr m) ++ newline)%string /\
    (forall labels : Labels,
        Permutation labels (sorted labels) /\
        StronglySorted by_label_key (sorted labels)).
Proof.
  intros float_repr m. split; [|split].
  - intros m1 m2 H1 H2.
    now rewrite <- (render_metrics_same float_repr m m1 H1),
                <- (render_metrics_same float_repr m m2 H2).
  - unfold render_metrics. now rewrite render_lines_exposition.
  - intros labels. split; [apply sorted_perm | apply sorted_by_label_key].
Qed.

Lemma registry1_same_swapped : same_registry registry1 registry1_swapped.
Proof.
  repeat split; (constructor; [|constructor]);
    (split; [|reflexivity]); (split; [reflexivity|]); apply perm_swap.
Qed.

Lemma render_metrics_stable_witness :
  render_metrics (fun _ => "2.5") registry1_swapped
  = render_metrics (fun _ => "2.5") registry1.
Proof.
  exact (proj1 (render_metrics_stable (fun _ => "2.5") registry1)
               registry1_swapped registry1 registry1_same_swapped
               (same_registry_refl registry1)).
Defined.

Lemma histogram_buckets_cumulative_witness :
  inf_bucket (run_ops Qplus empty_metrics [one_ms_request; one_ms_request])
             webhook_200
  = series_count (run_ops Qplus empty_metrics [one_ms_request; one_ms_request])
                 webhook_200.
Proof.
  refine (proj2 (proj2 (proj2 (histogram_buckets_cumulative Qplus
                   [one_ms_request; one_ms_request] webhook_200))) _).
  vm_compute. discriminate.
Defined.

(* ================================================================== *)
(** * Further runs of the model *)
(* ================================================================== *)

(** The text after a second [=] is dropped by [split("=")[1]]: a valid
    digest followed by [=] and anything passes the gate. *)
Example verify_ignores_text_after_second_eq :
  verify_signature "secret123"
    (signed_request "x-signature"
       (sha256_tagged_signature ++ "=anything")%string msg1_body)
  = Ok tt.
Proof. vm_compute. reflexivity. Qed.

(** An [X-Signature] header that is present but empty gives way to
    [X-Hub-Signature-256]. *)
Example verify_falls_back_to_hub_header :
  verify_signature "secret123"
    (mkRequest [("x-signature", "");
                ("x-hub-signature-256", sign_payload msg1_body "secret123")]
               "POST" "/webhook" msg1_body)
  = Ok tt.
Proof. vm_compute. reflexivity. Qed.

Example verify_without_secret :
  verify_signature "" msg1_request
  = Raise (HTTPException 503 "Server configuration error").
Proof. reflexivity. Qed.

Example verify_without_header :
  verify_signature "secret123" (mkRequest [] "POST" "/webhook" msg1_body)
  = Raise (HTTPException 401 "invalid signature").
Proof. reflexivity. Qed.

Example render_after_one_request :
  render_metrics (fun _ => "2.5") registry1 =
  String.concat newline
    [ ("http_requests_total{path=" ++ quote ++ "/webhook" ++ quote
       ++ ",status=" ++ quote ++ "200" ++ quote ++ "} 1.0")%string;
      hist_line "10"; hist_line "50"; hist_line "100"; hist_line "200";
      hist_line "500"; hist_line "1000"; hist_line "5000"; hist_line "+Inf";
      ("request_latency_ms_sum{path=" ++ quote ++ "/webhook" ++ quote
       ++ ",status=" ++ quote ++ "200" ++ quote ++ "} 2.5")%string;
      ("request_latency_ms_count{path=" ++ quote ++ "/webhook" ++ quote
       ++ ",status=" ++ quote ++ "200" ++ quote ++ "} 1")%string;
      "" ].
Proof. vm_compute. reflexivity. Qed.

(* ================================================================== *)
(** * [query_messages] does not depend on the scan order *)
(* ================================================================== *)

Lemma filter_perm {A} (f : A -> bool) l1 l2 :
  Permutation l1 l2 -> Permutation (filter f l1) (filter f l2).
Proof.
  induction 1 as [|x l1 l2 Hp IH|x y l|l1 l2 l3 H1 IH1 H2 IH2]; cbn.
  - constructor.
  - destruct (f x); [now constructor | exact IH].
  - destruct (f x), (f y); try reflexivity. apply perm_swap.
  - now transitivity (filter f l2).
Qed.

Lemma NoDup_map_eq {A B} (f : A -> B) l a b :
  NoDup (map f l) -> In a l -> In b l -> f a = f b -> a = b.
Proof.
  induction l as [|x l IH]; intros Hnd Ha Hb E; [contradiction|].
  cbn in Hnd. inversion Hnd as [|? ? Hx Hnd']; subst.
  destruct Ha as [<- | Ha], Hb as [<- | Hb]; auto.
  - elim Hx. rewrite E. now apply in_map.
  - elim Hx. rewrite <- E. now apply in_map.
Qed.

(** X19.  With [message_id] unique, the page and the total are the same
    for every order in which the table holds its rows. *)
Lemma query_messages_scan_order db db' limit offset from_filter since q :
  NoDup (map message_id db) -> Permutation db db' ->
  query_messages db limit offset from_filter since q
  = query_messages db' limit offset from_filter since q.
Proof.
  intros Hnd Hp. unfold query_messages.
  pose proof (filter_perm (where_clause from_filter since q) _ _ Hp) as Hf.
  rewrite (Permutation_length Hf). do 3 f_equal.
  unfold order_by. apply sort_by_perm_eq; try exact Hf.
  - intros a b. apply lex_leb_total.
  - intros a b c. apply lex_leb_trans.
  - intros a b Ha Hb Hab Hba.
    apply filter_In in Ha, Hb. destruct Ha as [Ha _], Hb as [Hb _].
    pose proof (lex_leb_antisym _ _ Hab Hba) as E.
    apply (NoDup_map_eq message_id db); auto. congruence.
Qed.

Example sha256_constants :
  List.length Sha256.round_constants = 64%nat /\
  hd 0 Sha256.round_constants = 0x428a2f98 /\
  last Sha256.round_constants 0 = 0xc67178f2 /\
  Sha256.ha Sha256.initial_hash = 0x6a09e667 /\
  Sha256.hh Sha256.initial_hash = 0x5be0cd19.
Proof. vm_compute. repeat split; reflexivity. Qed.

(* ================================================================== *)
(** * Invariants of the table *)
(* ================================================================== *)

Lemma has_key_false_not_in db mid :
  has_key db mid = false -> ~ In mid (map message_id db).
Proof.
  unfold has_key. intros H Hin. apply in_map_iff in Hin.
  destruct Hin as [r [E Hr]].
  assert (Ht : existsb (fun r => String.eqb (message_id r) mid) db = true).
  { apply existsb_exists. exists r. split; [exact Hr|]. now apply String.eqb_eq. }
  congruence.
Qed.

(** [insert_message] keeps [message_id] unique, and a UTC timestamp keeps
    the table stamped in UTC: the two conditions under which the results on
    [query_messages] are stated hold of every table [webhook] builds. *)
Lemma insert_message_invariants db now mid s r t x :
  valid_utc t = true ->
  utc_stamped db -> NoDup (map message_id db) ->
  utc_stamped (snd (insert_message db now mid s r t x)) /\
  NoDup (map message_id (snd (insert_message db now mid s r t x))).
Proof.
  intros Vt Hutc Hnd. rewrite insert_message_eq.
  destruct (has_key db mid) eqn:Hk; cbn [snd]; [now split|]. split.
  - unfold utc_stamped. apply Forall_app. split; [exact Hutc|].
    constructor; [|constructor]. now exists t.
  - rewrite map_app. cbn [map message_id].
    apply NoDup_app; [exact Hnd | repeat constructor; intros [] |].
    intros y Hy [<- | []]. now apply (has_key_false_not_in _ _ Hk).
Qed.

(* ================================================================== *)
(** * [compute_stats] *)
(* ================================================================== *)

Lemma fold_text_min rest : forall x,
  (In (fold_left text_min rest x) (x :: rest)) /\
  (forall y, In y (x :: rest) ->
             String.leb (fold_left text_min rest x) y = true).
Proof.
  induction rest as [|a rest IH]; intros x; cbn [fold_left].
  - split; [now left|]. intros y [<- | []].
    unfold String.leb. now rewrite str_compare_refl.
  - destruct (IH (text_min x a)) as [Hin Hle]. split.
    + destruct Hin as [E | Hin]; [|now right; right].
      rewrite <- E. unfold text_min.
      destruct (String.leb x a); [now left | right; now left].
    + assert (Hx : String.leb (text_min x a) x = true /\
                   String.leb (text_min x a) a = true).
      { unfold text_min. destruct (String.leb x a) eqn:E.
        - split; [|exact E]. unfold String.leb. now rewrite str_compare_refl.
        - split; [|unfold String.leb; now rewrite str_compare_refl].
          destruct (String.leb_total x a); congruence. }
      destruct Hx as [H1 H2].
      intros y [<- | [<- | Hy]].
      * eapply str_leb_trans; [apply Hle; now left | exact H1].
      * eapply str_leb_trans; [apply Hle; now left | exact H2].
      * apply Hle. now right.
Qed.

Lemma fold_text_max rest : forall x,
  (In (fold_left text_max rest x) (x :: rest)) /\
  (forall y, In y (x :: rest) ->
             String.leb y (fold_left text_max rest x) = true).
Proof.
  induction rest as [|a rest IH]; intros x; cbn [fold_left].
  - split; [now left|]. intros y [<- | []].
    unfold String.leb. now rewrite str_compare_refl.
  - destruct (IH (text_max x a)) as [Hin Hle]. split.
    + destruct Hin as [E | Hin]; [|now right; right].
      rewrite <- E. unfold text_max.
      destruct (String.leb x a); [right; now left | now left].
    + assert (Hx : String.leb x (text_max x a) = true /\
                   String.leb a (text_max x a) = true).
      { unfold text_max. destruct (String.leb x a) eqn:E.
        - split; [exact E|]. unfold String.leb. now rewrite str_compare_refl.
        - split; [unfold String.leb; now rewrite str_compare_refl|].
          destruct (String.leb_total x a); congruence. }
      destruct Hx as [H1 H2].
      intros y [<- | [<- | Hy]].
      * eapply str_leb_trans; [exact H1 | apply Hle; now left].
      * eapply str_leb_trans; [exact H2 | apply Hle; now left].
      * apply Hle. now right.
Qed.

(** X1.  The first and last timestamps of the statistics are absent exactly
    on an empty table; otherwise each is the timestamp of a stored row, no
    row is stamped before the first or after the last (in the order of the
    stored text), and the count of senders lies between 1 and the count of
    messages. *)
Theorem compute_stats_range :
  forall (order : list (string * Z) -> list (string * Z)) (db : Table),
    let s := compute_stats order db in
    match first_message_ts s, last_message_ts s with
    | None, None =>
        db = [] /\ total_messages s = 0 /\ senders_count s = 0
    | Some lo, Some hi =>
        In lo (map ts db) /\ In hi (map ts db) /\
        (forall r, In r db ->
           String.leb lo (ts r) = true /\ String.leb (ts r) hi = true) /\
        1 <= senders_count s <= total_messages s
    | _, _ => False
    end.
Proof.
  intros order db s. unfold s, compute_stats.
  cbn [first_message_ts last_message_ts total_messages senders_count].
  destruct db as [|r0 db]; [now cbn|].
  cbn [map sql_min sql_max].
  destruct (fold_text_min (map ts db) (ts r0)) as [Hlo Hlo'].
  destruct (fold_text_max (map ts db) (ts r0)) as [Hhi Hhi'].
  split; [exact Hlo|]. split; [exact Hhi|]. split.
  - intros r Hr. apply (in_map ts) in Hr. now split; [apply Hlo' | apply Hhi'].
  - unfold distinct_senders. split.
    + assert (Hin : In (from_msisdn r0)
                       (nodup string_dec (map from_msisdn (r0 :: db))))
        by (apply nodup_In; now left).
      destruct (nodup string_dec (map from_msisdn (r0 :: db)));
        [contradiction | cbn [List.length]; lia].
    + apply inj_le. rewrite <- (length_map from_msisdn (r0 :: db)).
      apply NoDup_incl_length; [apply NoDup_nodup|].
      intros x Hx. now apply nodup_In in Hx.
Qed.

Lemma In_firstn {A} n (l : list A) x : In x (firstn n l) -> In x l.
Proof.
  intros H. rewrite <- (firstn_skipn n l). apply in_or_app. now left.
Qed.

Lemma NoDup_firstn {A} n (l : list A) : NoDup l -> NoDup (firstn n l).
Proof.
  intros H. rewrite <- (firstn_skipn n l) in H.
  now apply NoDup_app_remove_r in H.
Qed.

Lemma StronglySorted_app_inv {A} (R : A -> A -> Prop) l1 : forall l2,
  StronglySorted R (l1 ++ l2) ->
  forall a b, In a l1 -> In b l2 -> R a b.
Proof.
  induction l1 as [|x l1 IH]; intros l2 Hs a b Ha Hb; [contradiction|].
  cbn in Hs. inversion Hs as [|? ? Hs' Hall]; subst.
  destruct Ha as [<- | Ha].
  - rewrite Forall_forall in Hall. apply Hall. apply in_or_app. now right.
  - eapply IH; eauto.
Qed.

Lemma group_by_sender_In db s c :
  In (s, c) (group_by_sender db) <->
  c = sender_count db s /\ In s (map from_msisdn db).
Proof.
  unfold group_by_sender, distinct_senders. rewrite in_map_iff. split.
  - intros [x [E Hx]]. injection E as <- <-.
    split; [reflexivity | now apply nodup_In in Hx].
  - intros [-> Hs]. exists s. split; [reflexivity | now apply nodup_In].
Qed.

Lemma group_by_sender_keys db : map fst (group_by_sender db) = distinct_senders db.
Proof.
  unfold group_by_sender. rewrite map_map. cbn [fst]. apply map_id.
Qed.

Lemma sender_count_pos db r : In r db -> 1 <= sender_count db (from_msisdn r).
Proof.
  intros Hr. unfold sender_count.
  assert (Hin : In r (filter (fun x => String.eqb (from_msisdn x) (from_msisdn r)) db))
    by (apply filter_In; split; [exact Hr | apply String.eqb_refl]).
  destruct (filter _ db); [contradiction | cbn [List.length]; lia].
Qed.

Lemma stable_by_count_desc_orders : orders_by_count_desc stable_by_count_desc.
Proof.
  intros l. unfold stable_by_count_desc. split; [apply sort_by_perm|].
  eapply StronglySorted_impl;
    [|apply (sort_by_sorted count_desc_leb)].
  - intros a b H. unfold count_desc_leb in H. now apply Z.leb_le.
  - intros a b. unfold count_desc_leb. rewrite !Z.leb_le. lia.
  - intros a b c. unfold count_desc_leb. rewrite !Z.leb_le. lia.
Qed.

(** X2.  Whatever order the database gives to senders with equal counts,
    [messages_per_sender] lists at most ten senders, no sender twice, each
    with the exact number of its rows (at least one), in descending order
    of count; all senders are listed when there are at most ten, and a
    sender that is left out has no more rows than any listed one. *)
Theorem compute_stats_top_senders :
  forall (order : list (string * Z) -> list (string * Z)) (db : Table),
    orders_by_count_desc order ->
    let top := messages_per_sender (compute_stats order db) in
    List.length top = Nat.min 10 (List.length (distinct_senders db)) /\
    NoDup (map fst top) /\
    StronglySorted (fun a b => snd b <= snd a) top /\
    (forall s c, In (s, c) top ->
                 c = sender_count db s /\ 1 <= c /\ In s (map from_msisdn db)) /\
    (forall r s c, In r db -> In (s, c) top ->
                   ~ In (from_msisdn r) (map fst top) ->
                   sender_count db (from_msisdn r) <= c).
Proof.
  intros order db Horder top. unfold top, compute_stats.
  cbn [messages_per_sender].
  destruct (Horder (group_by_sender db)) as [Hperm Hsorted].
  set (groups := group_by_sender db) in *.
  set (sorted_groups := order groups) in *.
  assert (Hin : forall s c, In (s, c) sorted_groups ->
                  c = sender_count db s /\ In s (map from_msisdn db)).
  { intros s c H. apply group_by_sender_In.
    eapply Permutation_in; [symmetry; exact Hperm | exact H]. }
  split; [|split; [|split; [|split]]].
  - rewrite length_firstn. f_equal.
    rewrite <- (Permutation_length Hperm). unfold groups, group_by_sender.
    apply length_map.
  - rewrite <- firstn_map. apply NoDup_firstn.
    eapply Permutation_NoDup; [apply Permutation_map; exact Hperm|].
    unfold groups. rewrite group_by_sender_keys. apply NoDup_nodup.
  - now apply StronglySorted_firstn.
  - intros s c H. apply In_firstn in H. destruct (Hin _ _ H) as [-> Hs].
    repeat split; [|exact Hs].
    apply in_map_iff in Hs. destruct Hs as [r [<- Hr]].
    now apply sender_count_pos.
  - intros r s c Hr Htop Hout.
    assert (Hg : In (from_msisdn r, sender_count db (from_msisdn r)) sorted_groups).
    { eapply Permutation_in; [exact Hperm|]. apply group_by_sender_In.
      split; [reflexivity | now apply in_map]. }
    rewrite <- (firstn_skipn 10 sorted_groups) in Hg, Hsorted.
    apply in_app_or in Hg. destruct Hg as [Hg | Hg].
    + elim Hout. apply in_map_iff.
      now exists (from_msisdn r, sender_count db (from_msisdn r)).
    + apply (StronglySorted_app_inv _ _ _ Hsorted _ _ Htop Hg).
Qed.

Lemma compute_stats_top_senders_witness :
  messages_per_sender (compute_stats stable_by_count_desc test_db)
  = [("+111", 1); ("+222", 1)] /\
  List.length (messages_per_sender (compute_stats stable_by_count_desc test_db))
  = Nat.min 10 (List.length (distinct_senders test_db)).
Proof.
  split; [reflexivity|].
  exact (proj1 (compute_stats_top_senders stable_by_count_desc test_db
                  stable_by_count_desc_orders)).
Defined.

Lemma nodup_snoc_length (l : list string) x :
  List.length (nodup string_dec (l ++ [x])) =
  (List.length (nodup string_dec l)
   + if in_dec string_dec x l then 0 else 1)%nat.
Proof.
  destruct (in_dec string_dec x l) as [Hin | Hout].
  - rewrite Nat.add_0_r. apply Nat.le_antisymm;
      (apply NoDup_incl_length; [apply NoDup_nodup|]);
      intros y Hy; apply nodup_In; apply nodup_In in Hy.
    + apply in_app_or in Hy. destruct Hy as [Hy | [<- | []]]; assumption.
    + apply in_or_app. now left.
  - replace (List.length (nodup string_dec l) + 1)%nat
      with (List.length (x :: nodup string_dec l))
      by (cbn [List.length]; lia).
    apply Nat.le_antisymm; apply NoDup_incl_length.
    + apply NoDup_nodup.
    + intros y Hy. apply nodup_In in Hy. apply in_app_or in Hy.
      destruct Hy as [Hy | [<- | []]]; [right; now apply nodup_In | now left].
    + constructor; [|apply NoDup_nodup]. intros H. now apply nodup_In in H.
    + intros y [<- | Hy]; apply nodup_In; apply in_or_app.
      * right. now left.
      * left. now apply nodup_In in Hy.
Qed.

(** X3.  A call of [insert_message] with a known [message_id] changes no
    statistic; one with a new [message_id] raises [total_messages] by one,
    raises [senders_count] by one exactly when the sender has no row yet,
    and adds one to the row count of its sender and of no other. *)
Theorem insert_message_updates_stats :
  forall (order : list (string * Z) -> list (string * Z)) (db : Table)
         (c : InsertCall),
    let db' := snd (call_insert db c) in
    let s := compute_stats order db in
    let s' := compute_stats order db' in
    if has_key db (c_message_id c) then s' = s
    else
      total_messages s' = total_messages s + 1 /\
      senders_count s' =
        senders_count s +
        (if in_dec string_dec (c_sender c) (map from_msisdn db) then 0 else 1) /\
      sender_count db' (c_sender c) = sender_count db (c_sender c) + 1 /\
      (forall other, other <> c_sender c ->
                     sender_count db' other = sender_count db other).
Proof.
  intros order db c db' s s'. unfold s, s', db'. rewrite call_insert_eq.
  destruct (has_key db (c_message_id c)); cbn [snd]; [reflexivity|].
  unfold compute_stats; cbn [total_messages senders_count].
  split; [rewrite length_app; cbn [List.length]; lia|]. split.
  - unfold distinct_senders. rewrite map_app. cbn [map from_msisdn row_of_call].
    rewrite nodup_snoc_length.
    destruct (in_dec string_dec (c_sender c) (map from_msisdn db));
      rewrite Nat2Z.inj_add; reflexivity.
  - unfold sender_count. split.
    + rewrite filter_app, length_app. cbn [filter from_msisdn row_of_call].
      rewrite String.eqb_refl. cbn [List.length]. lia.
    + intros other Hne. rewrite filter_app, length_app.
      cbn [filter from_msisdn row_of_call].
      replace (String.eqb (c_sender c) other) with false
        by (symmetry; apply String.eqb_neq; congruence).
      cbn [List.length]. lia.
Qed.

(* ================================================================== *)
(** * [_parse_db_url] *)
(* ================================================================== *)

Lemma drop_app p : forall s, drop (String.length p) (p ++ s) = s.
Proof. induction p as [|c p IH]; intros s; [now destruct s | apply IH]. Qed.

Lemma prefix_app_self p : forall s, String.prefix p (p ++ s) = true.
Proof.
  induction p as [|c p IH]; intros s; [apply prefix_empty|].
  cbn [String.append]. rewrite prefix_cons, IH. now rewrite Ascii.eqb_refl.
Qed.

Lemma take_line_no_feed p :
  contains p (String line_feed "") = false -> take_line p = p.
Proof.
  induction p as [|c p IH]; intros H; [reflexivity|].
  apply contains_cons_false in H. destruct H as [Hc Hp].
  cbn [take_line]. now rewrite Hc, (IH Hp).
Qed.

Lemma take_line_stops p rest :
  contains p (String line_feed "") = false ->
  take_line (p ++ String line_feed rest) = p.
Proof.
  induction p as [|c p IH]; intros H.
  - reflexivity.
  - apply contains_cons_false in H. destruct H as [Hc Hp].
    cbn [String.append take_line]. now rewrite Hc, (IH Hp).
Qed.

(** X4.  [_parse_db_url] returns the path of a [sqlite:///<path>] URL: the
    whole of a non-empty [<path>] without a line feed, and only its first
    line otherwise; a URL that does not start with [sqlite:///] is returned
    as it is. *)
Theorem parse_db_url_path :
  forall path : string,
    path <> "" ->
    contains path (String line_feed "") = false ->
    _parse_db_url (sqlite_scheme ++ path) = path /\
    (forall rest, _parse_db_url (sqlite_scheme ++ path ++ String line_feed rest)
                  = path) /\
    (forall url, startswith url sqlite_scheme = false -> _parse_db_url url = url).
Proof.
  intros path Hne Hnf. unfold _parse_db_url, startswith.
  split; [|split].
  - rewrite prefix_app_self, drop_app, (take_line_no_feed _ Hnf).
    destruct path; [congruence | reflexivity].
  - intros rest.
    rewrite prefix_app_self, drop_app, (take_line_stops _ _ Hnf).
    destruct path; [congruence | reflexivity].
  - intros url H. now rewrite H.
Qed.

Lemma parse_db_url_path_witness :
  _parse_db_url "sqlite:////data/app.db" = "/data/app.db".
Proof.
  refine (proj1 (parse_db_url_path "/data/app.db" _ _)).
  - discriminate.
  - reflexivity.
Defined.

(* ================================================================== *)
(** * [validate_phone] *)
(* ================================================================== *)

Lemma digits_to_end_spec s :
  digits_to_end s = true <->
  exists ds, all_digits ds = true /\ (s = ds \/ s = (ds ++ newline)%string).
Proof.
  induction s as [|c s IH]; cbn [digits_to_end].
  - split; [intros _; exists ""; now split; [|left]|reflexivity].
  - destruct (is_digit c) eqn:Hc.
    + rewrite IH. split.
      * intros [ds [Hd [-> | ->]]]; exists (String c ds); cbn [all_digits];
          rewrite Hc, Hd; (split; [reflexivity|]); [now left | now right].
      * intros [[|d ds] [Hd Hs]].
        -- destruct Hs as [Hs | Hs]; [discriminate|].
           cbn in Hs. injection Hs as -> ->. discriminate.
        -- cbn [all_digits] in Hd. apply andb_true_iff in Hd.
           destruct Hd as [_ Hd]. exists ds. split; [exact Hd|].
           destruct Hs as [Hs | Hs]; cbn in Hs; injection Hs as _ ->;
             [now left | now right].
    + rewrite andb_true_iff, Ascii.eqb_eq. split.
      * intros [-> Hs]. destruct s; [|discriminate].
        exists "". split; [reflexivity | now right].
      * intros [[|d ds] [Hd Hs]].
        -- destruct Hs as [Hs | Hs]; [discriminate|].
           cbn in Hs. injection Hs as -> ->. now split.
        -- cbn [all_digits] in Hd. apply andb_true_iff in Hd.
           destruct Hd as [Hd _].
           destruct Hs as [Hs | Hs]; cbn in Hs; injection Hs as -> _;
             congruence.
Qed.

(** X5.  [validate_phone] accepts exactly the values made of [+] and one or
    more ASCII digits, and those followed by one final line feed (which
    [$] lets through). *)
Theorem validate_phone_accepts :
  forall v : string,
    validate_phone v = true <->
    exists ds, ds <> "" /\ all_digits ds = true /\
               (v = ("+" ++ ds)%string \/ v = ("+" ++ ds ++ newline)%string).
Proof.
  intros v. unfold validate_phone. split.
  - destruct v as [|c [|d rest]]; try discriminate.
    rewrite !andb_true_iff, Ascii.eqb_eq. intros [[-> Hd] Hrest].
    apply digits_to_end_spec in Hrest. destruct Hrest as [ds [Hds Hs]].
    exists (String d ds). split; [discriminate|]. split.
    + cbn [all_digits]. now rewrite Hd, Hds.
    + destruct Hs as [-> | ->]; [now left | now right].
  - intros [[|d ds] [Hne [Hd Hv]]]; [congruence|].
    cbn [all_digits] in Hd. apply andb_true_iff in Hd. destruct Hd as [Hd Hds].
    assert (Hend : forall s, s = ds \/ s = (ds ++ newline)%string ->
                             digits_to_end s = true).
    { intros s Hs. apply digits_to_end_spec. now exists ds. }
    destruct Hv as [-> | ->]; cbn [String.append];
      rewrite Hd, Hend by auto; reflexivity.
Qed.

(* ================================================================== *)
(** * The table under sequences of deliveries *)
(* ================================================================== *)

Lemma deliver_db fadd secret w d :
  w_db (snd (deliver fadd secret w d)) =
  match verify_signature secret (dl_request d) with
  | Ok _ =>
      if has_key (w_db w) (p_message_id (dl_payload d)) then w_db w
      else w_db w ++ [row_of_delivery d]
  | Raise _ => w_db w
  end.
Proof.
  unfold deliver, dispatch, call_next.
  destruct (verify_signature secret (dl_request d)) as [[]|e] eqn:Hv.
  - rewrite (webhook_verified _ _ _ _ _ Hv).
    destruct (has_key (w_db w) (p_message_id (dl_payload d))); reflexivity.
  - rewrite (webhook_rejected _ _ _ _ _ _ Hv). now destruct e.
Qed.

Lemma valid_payload_row d :
  valid_payload (dl_payload d) = true -> valid_row (row_of_delivery d).
Proof.
  unfold valid_payload, valid_row, row_of_delivery.
  cbn [message_id from_msisdn to_msisdn ts text].
  rewrite !andb_true_iff, negb_true_iff, String.eqb_neq.
  intros [[[[[Hid Hs] Hr] _] Hutc] Ht].
  repeat split; try assumption.
  - now exists (p_ts (dl_payload d)).
  - destruct (p_text (dl_payload d)); [now apply Nat.leb_le | exact I].
Qed.

Lemma run_deliveries_snoc fadd secret w ds d :
  run_deliveries fadd secret w (ds ++ [d]) =
  snd (deliver fadd secret (run_deliveries fadd secret w ds) d).
Proof. unfold run_deliveries. now rewrite fold_left_app. Qed.

Lemma valid_row_utc db : Forall valid_row db -> utc_stamped db.
Proof.
  unfold utc_stamped. apply Forall_impl. intros r [_ [_ [_ [H _]]]]. exact H.
Qed.

(** X6.  Whatever is delivered, with or without a valid signature, as long
    as the payloads have passed validation: every row of the table is
    valid (non-empty [message_id], sender and receiver accepted by
    [validate_phone], a UTC timestamp, text within 4096 characters), and no
    two rows have the same [message_id]. *)
Theorem deliveries_keep_table_valid :
  forall (float_add : Q -> Q -> Q) (secret : string) (ds : list Delivery),
    Forall (fun d => valid_payload (dl_payload d) = true) ds ->
    let db := w_db (run_deliveries float_add secret empty_world ds) in
    Forall valid_row db /\ NoDup (map message_id db) /\ utc_stamped db.
Proof.
  intros float_add secret ds Hvalid db.
  assert (H : Forall valid_row db /\ NoDup (map message_id db)).
  { unfold db. clear db.
    induction ds as [|d ds IH] using rev_ind.
    - split; constructor.
    - apply Forall_app in Hvalid. destruct Hvalid as [Hds Hd].
      inversion Hd as [|? ? Hd' _]; subst.
      destruct (IH Hds) as [Hrows Hnd].
      rewrite run_deliveries_snoc, deliver_db.
      destruct (verify_signature secret (dl_request d)); [|now split].
      destruct (has_key _ _) eqn:Hk; [now split|]. split.
      + apply Forall_app. split; [exact Hrows|].
        constructor; [now apply valid_payload_row | constructor].
      + rewrite map_app. cbn [map message_id row_of_delivery].
        apply NoDup_app; [exact Hnd | repeat constructor; intros [] |].
        intros y Hy [<- | []]. now apply (has_key_false_not_in _ _ Hk). }
  destruct H as [Hrows Hnd].
  split; [exact Hrows|]. split; [exact Hnd | now apply valid_row_utc].
Qed.

Lemma deliveries_keep_table_valid_witness :
  NoDup (map message_id
           (w_db (run_deliveries Qplus "secret123" empty_world
                    [delivery1; delivery_forged; delivery1]))).
Proof.
  refine (proj1 (proj2 (deliveries_keep_table_valid Qplus "secret123"
                          [delivery1; delivery_forged; delivery1] _))).
  repeat constructor.
Defined.

Lemma has_key_In db r : In r db -> has_key db (message_id r) = true.
Proof.
  intros H. unfold has_key. apply existsb_exists.
  exists r. split; [exact H | apply String.eqb_refl].
Qed.

(** X7.  Only a delivery that passed the signature gate writes: every row
    of the table is the row of some delivery whose signature verified, and
    after the sequence the [message_id] of every delivery whose signature
    verified is in the table. *)
Theorem table_holds_verified_deliveries :
  forall (float_add : Q -> Q -> Q) (secret : string) (ds : list Delivery),
    let db := w_db (run_deliveries float_add secret empty_world ds) in
    (forall r, In r db ->
       exists d, In d ds /\ verify_signature secret (dl_request d) = Ok tt /\
                 r = row_of_delivery d) /\
    (forall d, In d ds -> verify_signature secret (dl_request d) = Ok tt ->
               has_key db (p_message_id (dl_payload d)) = true).
Proof.
  intros float_add secret ds db. unfold db. clear db.
  induction ds as [|d ds [IHr IHk]] using rev_ind.
  - split; [intros r [] | intros d []].
  - rewrite run_deliveries_snoc, deliver_db.
    set (db := w_db (run_deliveries float_add secret empty_world ds)) in *.
    assert (Hold : forall r, In r db ->
              exists d', In d' (ds ++ [d]) /\
                         verify_signature secret (dl_request d') = Ok tt /\
                         r = row_of_delivery d').
    { intros r Hr. destruct (IHr r Hr) as [d' [Hd' H]].
      exists d'. split; [apply in_or_app; now left | exact H]. }
    assert (Holdk : forall db', (forall r, In r db -> In r db') ->
              forall d', In d' ds ->
                verify_signature secret (dl_request d') = Ok tt ->
                has_key db' (p_message_id (dl_payload d')) = true).
    { intros db' Hincl d' Hd' Hv. specialize (IHk d' Hd' Hv).
      unfold has_key in *. apply existsb_exists in IHk.
      destruct IHk as [r [Hr E]]. apply existsb_exists.
      exists r. split; [now apply Hincl | exact E]. }
    destruct (verify_signature secret (dl_request d)) as [[]|e] eqn:Hv.
    + destruct (has_key db (p_message_id (dl_payload d))) eqn:Hk.
      * split; [exact Hold|]. intros d' Hd' Hv'.
        apply in_app_or in Hd'. destruct Hd' as [Hd' | [<- | []]];
          [now apply (Holdk db) | exact Hk].
      * split.
        -- intros r Hr. apply in_app_or in Hr.
           destruct Hr as [Hr | [<- | []]]; [now apply Hold|].
           exists d. split; [apply in_or_app; right; now left | now split].
        -- intros d' Hd' Hv'. apply in_app_or in Hd'.
           destruct Hd' as [Hd' | [<- | []]].
           ++ apply (Holdk _ (fun r Hr => in_or_app _ _ _ (or_introl Hr)));
                assumption.
           ++ apply (has_key_In _ (row_of_delivery d)).
              apply in_or_app. right. now left.
    + split; [exact Hold|]. intros d' Hd' Hv'.
      apply in_app_or in Hd'. destruct Hd' as [Hd' | [<- | []]];
        [now apply (Holdk db) | congruence].
Qed.

(* ================================================================== *)
(** * Counters count calls *)
(* ================================================================== *)

Lemma calls_snoc key ops op :
  calls key (ops ++ [op]) = calls key ops + (if bumps key op then 1 else 0).
Proof.
  unfold calls. rewrite filter_app, length_app. cbn [filter].
  destruct (bumps key op); cbn [List.length]; lia.
Qed.

Lemma counter_after_bump (d : list (SeriesKey * Z)) k key :
  dict_get (dict_set d k (float_succ (dict_get d k 0))) key 0 =
  if key_eqb k key then float_succ (dict_get d key 0) else dict_get d key 0.
Proof.
  destruct (key_eqb k key) eqn:E.
  - rewrite <- (dict_get_eqb _ _ _ 0 E), <- (dict_get_eqb d _ _ 0 E).
    apply dict_get_set_same.
  - now apply dict_get_set_other.
Qed.

Lemma run_ops_counter fadd ops key :
  dict_get (counters (run_ops fadd empty_metrics ops)) key 0
  = Z.min (calls key ops) (2 ^ 53).
Proof.
  induction ops as [|op ops IH] using rev_ind; [reflexivity|].
  unfold run_ops in *. rewrite fold_left_app, calls_snoc. cbn [fold_left].
  set (m := fold_left (apply_op fadd) ops empty_metrics) in *.
  assert (H0 : 0 <= calls key ops) by (unfold calls; lia).
  destruct op as [path status x | result];
    cbn [apply_op bumps record_http_request record_webhook_result counters];
    rewrite counter_after_bump;
    destruct (key_eqb _ key);
    rewrite IH, ?float_succ_min, ?Z.add_0_r by assumption; reflexivity.
Qed.

Lemma bumps_observes labels op :
  bumps ("http_requests_total", labels) op
  = observes ("request_latency_ms", labels) op.
Proof. destruct op; reflexivity. Qed.

(** X8.  After any sequence of recording calls, a counter holds the number
    of calls made on its series (capped at [2^53], where a [float] stops
    growing by one), no call on another series having touched it; and
    [http_requests_total] of a path and status equals the [+Inf] bucket of
    [request_latency_ms] of the same path and status. *)
Theorem counters_count_calls :
  forall (float_add : Q -> Q -> Q) (ops : list MetricOp) (key : SeriesKey)
         (path : string) (status : Z),
    let m := run_ops float_add empty_metrics ops in
    let labels := [("path", path); ("status", str_of_int status)] in
    dict_get (counters m) key 0 = Z.min (calls key ops) (2 ^ 53) /\
    counter_value m "http_requests_total" labels
    = inf_bucket m ("request_latency_ms", labels).
Proof.
  intros float_add ops key path status m labels.
  split; [apply run_ops_counter|].
  unfold counter_value, m. rewrite run_ops_counter.
  destruct (run_ops_series_inv float_add ops ("request_latency_ms", labels))
    as [[_ [_ [Hl _]]] [Hn _]].
  unfold inf_bucket. rewrite Hl, Hn.
  unfold calls, observations.
  now rewrite (filter_ext _ _ (bumps_observes labels)).
Qed.

(* ================================================================== *)
(** * Verified requests and the outcome counters *)
(* ================================================================== *)

(** [x + 1.0] on the values a counter takes. *)
Lemma float_succ_cases x :
  (x < 2 ^ 53 -> float_succ x = x + 1) /\
  (x = 2 ^ 53 -> float_succ x = 2 ^ 53).
Proof.
  unfold float_succ. destruct (Z.ltb_spec x (2 ^ 53)); split; lia.
Qed.

(** What one verified request does. *)
Lemma dispatch_verified fadd secret now latency request payload w :
  verify_signature secret request = Ok tt ->
  let out := dispatch fadd secret now latency request payload w in
  let known := has_key (w_db w) (p_message_id payload) in
  fst out = Ok (mkResponse 200 ok_body) /\
  w_db (snd out) =
    (if known then w_db w
     else w_db w ++ [mkRow (p_message_id payload) (p_sender payload)
                           (p_receiver payload) (isoformat (p_ts payload))
                           (p_text payload) (isoformat now)]) /\
  forall labels,
    counter_value (w_metrics (snd out)) "webhook_requests_total" labels
    = if labels_eqb [("result", if known then "duplicate" else "success")]
                    labels
      then float_succ
             (counter_value (w_metrics w) "webhook_requests_total" labels)
      else counter_value (w_metrics w) "webhook_requests_total" labels.
Proof.
  intros Hv. unfold dispatch, call_next. rewrite (webhook_verified _ _ _ _ _ Hv).
  destruct (has_key (w_db w) (p_message_id payload));
    cbn [fst snd w_db w_metrics status_code];
    (split; [reflexivity|]); (split; [reflexivity|]); intros labels;
    rewrite counter_value_http by reflexivity;
    unfold counter_value, record_webhook_result; cbn [counters];
    rewrite counter_after_bump; reflexivity.
Qed.

(** The state after [S n] deliveries of one verified request: the message
    is stored, and the [n] repeats were counted as duplicates, up to
    [2^53]. *)
Lemma redelivered_state fadd secret d n :
  verify_signature secret (dl_request d) = Ok tt ->
  let w := run_deliveries fadd secret empty_world (repeat d (S n)) in
  has_key (w_db w) (p_message_id (dl_payload d)) = true /\
  counter_value (w_metrics w) "webhook_requests_total"
                [("result", "duplicate")]
  = Z.min (Z.of_nat n) (2 ^ 53).
Proof.
  intros Hv. induction n as [|n IH].
  - cbv zeta. unfold run_deliveries, deliver. cbn [repeat fold_left].
    destruct (dispatch_verified fadd secret (dl_now d) (dl_latency_ms d)
                (dl_request d) (dl_payload d) empty_world Hv)
      as [_ [Hdb Hc]].
    cbn [empty_world w_db has_key existsb] in Hdb, Hc. split.
    + rewrite Hdb. cbn [app has_key existsb message_id].
      now rewrite String.eqb_refl.
    + rewrite Hc. reflexivity.
  - cbv zeta in IH |- *. destruct IH as [Hk Hn].
    change (repeat d (S (S n))) with (d :: repeat d (S n)).
    rewrite repeat_cons, run_deliveries_snoc.
    set (w := run_deliveries fadd secret empty_world (repeat d (S n))) in *.
    unfold deliver.
    destruct (dispatch_verified fadd secret (dl_now d) (dl_latency_ms d)
                (dl_request d) (dl_payload d) w Hv)
      as [_ [Hdb Hc]].
    rewrite Hk in Hdb, Hc. split.
    + now rewrite Hdb.
    + rewrite Hc. change (labels_eqb _ _) with true. cbv iota.
      rewrite Hn, float_succ_min by lia. f_equal. lia.
Qed.

(** C6, as stated, fails once a counter has reached [2^53]: after the
    request of [test_webhook_success] has been delivered [2^53 + 1] times,
    one more delivery is verified and answered 200, and leaves every
    series of [webhook_requests_total] as it was, so that the registry
    does not record it as any outcome. *)
Lemma duplicate_not_counted_at_2_53 :
  let w := run_deliveries Qplus "secret123" empty_world
             (repeat delivery1 (Z.to_nat (2 ^ 53 + 1))) in
  let out := deliver Qplus "secret123" w delivery1 in
  verify_signature "secret123" (dl_request delivery1) = Ok tt /\
  has_key (w_db w) (p_message_id (dl_payload delivery1)) = true /\
  fst out = Ok (mkResponse 200 ok_body) /\
  counter_value (w_metrics w) "webhook_requests_total"
                [("result", "duplicate")] = 2 ^ 53 /\
  (forall labels,
      counter_value (w_metrics (snd out)) "webhook_requests_total" labels
      = counter_value (w_metrics w) "webhook_requests_total" labels).
Proof.
  assert (Hv : verify_signature "secret123" (dl_request delivery1) = Ok tt)
    by (vm_compute; reflexivity).
  assert (E : Z.to_nat (2 ^ 53 + 1) = S (Z.to_nat (2 ^ 53))).
  { rewrite <- Z2Nat.inj_succ by lia. f_equal. }
  rewrite E. remember (Z.to_nat (2 ^ 53)) as k eqn:Ek.
  assert (Hk : Z.of_nat k = 2 ^ 53) by (rewrite Ek; apply Z2Nat.id; lia).
  clear E Ek. intros w out.
  destruct (redelivered_state Qplus "secret123" delivery1 k Hv) as [Hkey Hn].
  fold w in Hkey, Hn. rewrite Hk, Z.min_id in Hn.
  destruct (dispatch_verified Qplus "secret123" (dl_now delivery1)
              (dl_latency_ms delivery1) (dl_request delivery1)
              (dl_payload delivery1) w Hv) as [Hres [_ Hc]].
  rewrite Hkey in Hc. unfold out, deliver.
  split; [exact Hv|]. split; [exact Hkey|]. split; [exact Hres|].
  split; [exact Hn|].
  intros labels. rewrite Hc.
  destruct (labels_eqb [("result", "duplicate")] labels) eqn:El;
    [|reflexivity].
  assert (Hl : counter_value (w_metrics w) "webhook_requests_total" labels
               = 2 ^ 53).
  { rewrite <- Hn. unfold counter_value. symmetry. apply dict_get_eqb.
    unfold key_eqb. cbn [fst snd]. now rewrite String.eqb_refl, El. }
  rewrite Hl. now apply float_succ_cases.
Qed.

(** C6, amended.  When the signature verifies, a first insert and a
    repeated [message_id] are both answered 200 with the body
    [{"status":"ok"}]; the first adds the row, the repeat leaves the table
    alone.  The outcome is counted under
    [webhook_requests_total{result="success"}] for the first and under
    [webhook_requests_total{result="duplicate"}] for the repeat: that
    counter grows by one as long as it is below [2^53] and stays at
    [2^53] once it is there; no other series of the metric moves. *)
Theorem verified_request_ok_and_counted :
  forall (float_add : Q -> Q -> Q) (secret : string) (now : datetime)
         (latency_ms : Q) (request : Request) (payload : WebhookMessageIn)
         (w : World),
    verify_signature secret request = Ok tt ->
    let out := dispatch float_add secret now latency_ms request payload w in
    let known := has_key (w_db w) (p_message_id payload) in
    let outcome := [("result", if known then "duplicate" else "success")] in
    let count (m : Metrics) (labels : Labels) :=
      counter_value m "webhook_requests_total" labels in
    fst out = Ok (mkResponse 200 ok_body) /\
    w_db (snd out) =
      (if known then w_db w
       else w_db w ++ [mkRow (p_message_id payload) (p_sender payload)
                             (p_receiver payload) (isoformat (p_ts payload))
                             (p_text payload) (isoformat now)]) /\
    (count (w_metrics w) outcome < 2 ^ 53 ->
     count (w_metrics (snd out)) outcome = count (w_metrics w) outcome + 1) /\
    (count (w_metrics w) outcome = 2 ^ 53 ->
     count (w_metrics (snd out)) outcome = 2 ^ 53) /\
    (forall labels,
        labels_eqb outcome labels = false ->
        count (w_metrics (snd out)) labels = count (w_metrics w) labels).
Proof.
  intros float_add secret now latency_ms request payload w Hv
         out known outcome count.
  destruct (dispatch_verified float_add secret now latency_ms request payload
              w Hv) as [Hres [Hdb Hc]].
  fold out in Hres, Hdb, Hc. fold known in Hdb, Hc. fold outcome in Hc.
  split; [exact Hres|]. split; [exact Hdb|].
  assert (Hself : labels_eqb outcome outcome = true).
  { unfold outcome. now destruct known. }
  unfold count. split; [|split].
  - intros Hlt. rewrite Hc, Hself. now apply float_succ_cases.
  - intros Heq. rewrite Hc, Hself. now apply float_succ_cases.
  - intros labels Hne. now rewrite Hc, Hne.
Qed.

Lemma verified_request_ok_and_counted_witness :
  fst (run msg1_request msg1 empty_world) = Ok (mkResponse 200 ok_body) /\
  counter_value (w_metrics (snd (run msg1_request msg1 empty_world)))
                "webhook_requests_total" [("result", "success")] = 1.
Proof.
  destruct (verified_request_ok_and_counted Qplus "secret123" clock0 (5 # 2)
              msg1_request msg1 empty_world) as [H1 [_ [H3 _]]].
  - vm_compute. reflexivity.
  - split; [exact H1 | exact (H3 eq_refl)].
Defined.

(* ================================================================== *)
(** * Every request is recorded; redelivery *)
(* ================================================================== *)



(** X10.  Delivering a verified request a second time is answered exactly
    as the first time and leaves the table as the first delivery left it:
    the table gains one row if the [message_id] was new and none
    otherwise. *)
Theorem redelivery_is_idempotent :
  forall (float_add : Q -> Q -> Q) (secret : string) (now1 now2 : datetime)
         (latency1 latency2 : Q) (request : Request)
         (payload : WebhookMessageIn) (w : World),
    verify_signature secret request = Ok tt ->
    let first := dispatch float_add secret now1 latency1 request payload w in
    let second :=
      dispatch float_add secret now2 latency2 request payload (snd first) in
    fst second = fst first /\
    fst first = Ok (mkResponse 200 ok_body) /\
    w_db (snd second) = w_db (snd first) /\
    has_key (w_db (snd first)) (p_message_id payload) = true /\
    List.length (w_db (snd second)) =
      (List.length (w_db w)
       + if has_key (w_db w) (p_message_id payload) then 0 else 1)%nat.
Proof.
  intros float_add secret now1 now2 latency1 latency2 request payload w Hv
         first second.
  assert (H1 : fst first = Ok (mkResponse 200 ok_body) /\
               w_db (snd first) =
               if has_key (w_db w) (p_message_id payload) then w_db w
               else w_db w ++ [mkRow (p_message_id payload) (p_sender payload)
                                     (p_receiver payload)
                                     (isoformat (p_ts payload))
                                     (p_text payload) (isoformat now1)]).
  { unfold first, dispatch, call_next. rewrite (webhook_verified _ _ _ _ _ Hv).
    destruct (has_key (w_db w) (p_message_id payload)); now split. }
  destruct H1 as [Hr1 Hdb1].
  assert (Hk : has_key (w_db (snd first)) (p_message_id payload) = true).
  { rewrite Hdb1. destruct (has_key (w_db w) (p_message_id payload)) eqn:E;
      [exact E|].
    rewrite has_key_app. unfold has_key at 2. cbn.
    rewrite String.eqb_refl. apply orb_true_r. }
  assert (H2 : fst second = Ok (mkResponse 200 ok_body) /\
               w_db (snd second) = w_db (snd first)).
  { unfold second, dispatch, call_next.
    rewrite (webhook_verified _ _ _ _ _ Hv), Hk. now split. }
  destruct H2 as [Hr2 Hdb2].
  repeat split; try congruence.
  rewrite Hdb2, Hdb1.
  destruct (has_key (w_db w) (p_message_id payload)); [lia|].
  rewrite length_app. reflexivity.
Qed.

Lemma redelivery_is_idempotent_witness :
  fst (run msg1_request msg1 (snd (run msg1_request msg1 empty_world)))
  = fst (run msg1_request msg1 empty_world).
Proof.
  refine (proj1 (redelivery_is_idempotent Qplus "secret123" clock0 clock0
                   (5 # 2) (5 # 2) msg1_request msg1 empty_world _)).
  vm_compute. reflexivity.
Defined.

(* ================================================================== *)
(** * Pages of [query_messages] and the route [get_messages] *)
(* ================================================================== *)

Lemma firstn_plus {A} a b : forall l : list A,
  firstn a l ++ firstn b (skipn a l) = firstn (a + b) l.
Proof.
  induction a as [|a IH]; intros l; [reflexivity|].
  destruct l as [|x l]; cbn; [now destruct b | now rewrite IH].
Qed.

(** X11.  Pages follow one another without gap or overlap: for limits and
    an offset that are not negative, the page of [limit1] rows at [offset]
    followed by the page of [limit2] rows at [offset + limit1] is the page
    of [limit1 + limit2] rows at [offset]; the total is the same on
    each. *)
Theorem pages_concatenate :
  forall (db : Table) (limit1 limit2 offset : Z) (from_filter : option string)
         (since : option datetime) (q : option string),
    0 <= limit1 -> 0 <= limit2 -> 0 <= offset ->
    fst (query_messages db limit1 offset from_filter since q)
    ++ fst (query_messages db limit2 (offset + limit1) from_filter since q)
    = fst (query_messages db (limit1 + limit2) offset from_filter since q).
Proof.
  intros db limit1 limit2 offset from_filter since q H1 H2 Ho.
  unfold query_messages; cbn [fst]. rewrite <- map_app. f_equal.
  unfold limit_offset.
  replace (limit1 <? 0) with false by (symmetry; apply Z.ltb_ge; lia).
  replace (limit2 <? 0) with false by (symmetry; apply Z.ltb_ge; lia).
  replace (limit1 + limit2 <? 0) with false by (symmetry; apply Z.ltb_ge; lia).
  rewrite !Z2Nat.inj_add by lia.
  rewrite (Nat.add_comm (Z.to_nat offset)), <- skipn_skipn.
  apply firstn_plus.
Qed.

Lemma pages_concatenate_witness :
  fst (query_messages test_db 1 0 None None None)
  ++ fst (query_messages test_db 1 (0 + 1) None None None)
  = fst (query_messages test_db (1 + 1) 0 None None None).
Proof.
  apply (pages_concatenate test_db 1 1 0 None None None); lia.
Defined.


(* ================================================================== *)
(** * Insert, then look up *)
(* ================================================================== *)

Lemma filter_all {A} (f : A -> bool) l :
  (forall x, f x = true) -> filter f l = l.
Proof.
  intros H. induction l as [|x l IH]; cbn; [reflexivity|]. now rewrite H, IH.
Qed.

(** X13.  A message that [insert_message] has just inserted is returned by
    the unfiltered query, with the fields it was inserted with, as soon as
    the page holds the whole table; and the unfiltered total has grown by
    one. *)
Theorem inserted_message_is_returned :
  forall (db db' : Table) (c : InsertCall) (limit : Z),
    call_insert db c = (Ok true, db') ->
    Z.of_nat (List.length db') <= limit ->
    In (mkMessageDict (c_message_id c) (c_sender c) (c_receiver c)
                      (isoformat (c_ts c)) (c_text c))
       (fst (query_messages db' limit 0 None None None)) /\
    snd (query_messages db' limit 0 None None None)
    = snd (query_messages db limit 0 None None None) + 1.
Proof.
  intros db db' c limit Hins Hlimit.
  rewrite call_insert_eq in Hins.
  destruct (has_key db (c_message_id c)); [discriminate|].
  injection Hins as <-.
  unfold query_messages; cbn [fst snd].
  rewrite !(filter_all (where_clause None None None)) by reflexivity.
  split.
  - change (mkMessageDict (c_message_id c) (c_sender c) (c_receiver c)
                          (isoformat (c_ts c)) (c_text c))
      with (to_dict (row_of_call c)).
    apply in_map. rewrite limit_offset_all.
    + apply (Permutation_in _ (sort_by_perm row_leb _)).
      apply in_or_app. right. now left.
    + lia.
    + unfold order_by.
      now rewrite <- (Permutation_length (sort_by_perm row_leb _)).
  - rewrite length_app. cbn [List.length]. lia.
Qed.

Lemma inserted_message_is_returned_witness :
  In (mkMessageDict "msg1" "+1234567890" "+0987654321"
                    "2023-10-27T10:00:00+00:00" (Some "Hello World"))
     (fst (query_messages [row_of_call call_msg1] 50 0 None None None)).
Proof.
  refine (proj1 (inserted_message_is_returned [] [row_of_call call_msg1]
                   call_msg1 50 _ _)).
  - reflexivity.
  - cbn. lia.
Defined.

Lemma run_inserts_snoc db cs c :
  run_inserts db (cs ++ [c]) = snd (call_insert (run_inserts db cs) c).
Proof. unfold run_inserts. now rewrite fold_left_app. Qed.

Lemma run_inserts_cons db c cs :
  run_inserts db (c :: cs) = run_inserts (snd (call_insert db c)) cs.
Proof. reflexivity. Qed.

Lemma find_row_none_has_key db mid :
  find_row db mid = None <-> has_key db mid = false.
Proof.
  unfold find_row, has_key. induction db as [|r db IH]; cbn; [tauto|].
  destruct (String.eqb (message_id r) mid); cbn; [split; discriminate | exact IH].
Qed.

(** The first write under a key wins, from any table on. *)
Lemma run_inserts_find_row cs : forall db mid,
  find_row (run_inserts db cs) mid =
  match find_row db mid with
  | Some r => Some r
  | None =>
      option_map row_of_call
        (find (fun c => String.eqb (c_message_id c) mid) cs)
  end.
Proof.
  induction cs as [|c cs IH]; intros db mid.
  - unfold run_inserts. cbn [fold_left find option_map].
    now destruct (find_row db mid).
  - rewrite run_inserts_cons, IH, call_insert_eq. cbn [find].
    destruct (has_key db (c_message_id c)) eqn:Hk; cbn [snd].
    + destruct (find_row db mid) eqn:Hf; [reflexivity|].
      destruct (String.eqb (c_message_id c) mid) eqn:E; [|reflexivity].
      apply String.eqb_eq in E. subst mid.
      apply find_row_none_has_key in Hf. congruence.
    + destruct (find_row db mid) eqn:Hf.
      * now rewrite (find_row_app_l _ _ _ _ Hf).
      * destruct (String.eqb (c_message_id c) mid) eqn:E.
        -- apply String.eqb_eq in E. subst mid.
           change (c_message_id c) with (message_id (row_of_call c)).
           rewrite find_row_fresh by exact Hk. reflexivity.
        -- assert (Hn : find_row (db ++ [row_of_call c]) mid = None).
           { apply find_row_none_has_key. rewrite has_key_app.
             apply find_row_none_has_key in Hf. rewrite Hf.
             unfold has_key. cbn. now rewrite E. }
           now rewrite Hn.
Qed.

(** X14.  The first write wins: after any sequence of calls of
    [insert_message] on an empty table, the row under a [message_id] is
    the row of the first call that carried it, there is none if no call
    carried it, and the table has one row for each distinct
    [message_id]. *)
Theorem first_insert_wins :
  forall (cs : list InsertCall) (mid : string),
    let db := run_inserts [] cs in
    find_row db mid =
      option_map row_of_call
        (find (fun c => String.eqb (c_message_id c) mid) cs) /\
    (has_key db mid = true <-> In mid (map c_message_id cs)) /\
    List.length db = List.length (nodup string_dec (map c_message_id cs)).
Proof.
  intros cs mid db.
  assert (Hfind : forall k, find_row db k =
            option_map row_of_call
              (find (fun c => String.eqb (c_message_id c) k) cs))
    by (intros k; unfold db; now rewrite run_inserts_find_row).
  assert (Hkey : forall cs' k,
            has_key (run_inserts [] cs') k = true <-> In k (map c_message_id cs')).
  { intros cs' k.
    destruct (has_key (run_inserts [] cs') k) eqn:Hk.
    - split; [intros _|reflexivity].
      destruct (find_row (run_inserts [] cs') k) as [r|] eqn:Hf;
        [|apply find_row_none_has_key in Hf; congruence].
      rewrite run_inserts_find_row in Hf. cbn in Hf.
      destruct (find _ cs') as [c|] eqn:Hc; [|discriminate].
      apply find_some in Hc. destruct Hc as [Hin E].
      apply String.eqb_eq in E. subst k. now apply in_map.
    - split; [discriminate|]. intros Hin.
      apply find_row_none_has_key in Hk.
      rewrite run_inserts_find_row in Hk. cbn in Hk.
      apply in_map_iff in Hin. destruct Hin as [c [E Hc]].
      destruct (find (fun c0 => String.eqb (c_message_id c0) k) cs') eqn:Hf;
        [discriminate|].
      pose proof (find_none _ _ Hf c Hc) as Hn. cbn in Hn.
      rewrite E, String.eqb_refl in Hn. discriminate. }
  split; [apply Hfind|]. split; [apply Hkey|].
  unfold db. clear db Hfind.
  induction cs as [|c cs IH] using rev_ind; [reflexivity|].
  rewrite run_inserts_snoc, call_insert_eq, map_app. cbn [map].
  rewrite nodup_snoc_length.
  pose proof (Hkey cs (c_message_id c)) as Hk.
  destruct (has_key (run_inserts [] cs) (c_message_id c));
    destruct (in_dec string_dec (c_message_id c) (map c_message_id cs))
      as [Hin|Hout]; cbn [snd].
  - rewrite IH. lia.
  - elim Hout. now apply Hk.
  - apply Hk in Hin. discriminate.
  - rewrite length_app, IH. reflexivity.
Qed.

(* ================================================================== *)
(** * [health_ready] *)
(* ================================================================== *)

(** X15.  When [health_ready] answers ready, the gate never answers 503
    for a missing secret; and when the secret is unset, [health_ready]
    answers 503 whatever the database says and every request to the gate
    is answered 503, whatever it carries. *)
Theorem health_ready_reflects_gate :
  forall (db_ok : bool) (secret : string) (request : Request),
    (health_ready db_ok secret = Ok "ready" ->
     db_ok = true /\
     verify_signature secret request
     <> Raise (HTTPException 503 "Server configuration error")) /\
    (secret = "" ->
     health_ready db_ok secret = Raise (HTTPException 503 "Not ready") /\
     verify_signature secret request
     = Raise (HTTPException 503 "Server configuration error")).
Proof.
  intros db_ok secret request. split.
  - unfold health_ready. destruct db_ok; cbn [andb]; [|discriminate].
    destruct (truthy (Some secret)) eqn:Hs; [|discriminate]. intros _.
    split; [reflexivity|]. intros Hv.
    destruct (verify_signature_raises _ _ _ Hv)
      as [[-> _] | [[_ E] | [_ [E _]]]]; discriminate.
  - intros ->. split; [now destruct db_ok | reflexivity].
Qed.

(* ================================================================== *)
(** * Runs of the gate, the pipeline and the query *)
(* ================================================================== *)

Lemma verify_signature_signed_witness :
  verify_signature "secret123" msg1_request = Ok tt.
Proof.
  apply verify_signature_signed.
  - discriminate.
  - vm_compute. reflexivity.
Defined.

Lemma verify_signature_other_body_witness :
  verify_signature "secret123" tampered_request = Ok tt <->
  Hmac.digest (encode "secret123") (body tampered_request)
  = Hmac.digest (encode "secret123") msg1_body.
Proof.
  apply verify_signature_other_body.
  - discriminate.
  - vm_compute. reflexivity.
Defined.

Lemma forged_request_rejected :
  verify_signature "secret123" forged_request
  = Raise (HTTPException 401 "invalid signature").
Proof. vm_compute. reflexivity. Qed.

Lemma failed_verification_outcome_witness :
  w_db (snd (run forged_request msg1 empty_world)) = w_db empty_world.
Proof.
  exact (proj1 (proj2 (proj2
           (failed_verification_outcome Qplus "secret123" clock0 (5 # 2)
              forged_request msg1 empty_world _ forged_request_rejected)))).
Defined.

Lemma query_messages_scan_order_witness :
  query_messages [test_row1; test_row2] 50 0 None None None
  = query_messages [test_row2; test_row1] 50 0 None None None.
Proof.
  apply query_messages_scan_order.
  - repeat constructor; cbn; intuition discriminate.
  - apply perm_swap.
Defined.

(* ================================================================== *)
(** * The ways the gate fails; what follows a second [=] *)
(* ================================================================== *)

(** X20.  The gate never fails on the index after [split]: it answers 503
    whenever the secret is unset, and otherwise fails only with 401 or
    with the [TypeError] of [compare_digest], the latter exactly when the
    digest taken from the header holds a character outside ASCII. *)
Theorem gate_failure_modes :
  forall (secret : string) (request : Request),
    (secret = "" ->
     verify_signature secret request
     = Raise (HTTPException 503 "Server configuration error")) /\
    (forall e, verify_signature secret request = Raise e ->
       e = HTTPException 503 "Server configuration error" \/
       e = HTTPException 401 "invalid signature" \/
       e = TypeError) /\
    (verify_signature secret request = Raise TypeError <->
     secret <> "" /\
     exists s h, signature_header request = Some s /\
                 sig_hash_of s = Ok h /\ is_ascii h = false).
Proof.
  intros secret request. split; [intros ->; reflexivity|]. split.
  - intros e Hv.
    destruct (verify_signature_raises _ _ _ Hv)
      as [[_ ->] | [[_ ->] | [_ [-> _]]]]; auto.
  - split.
    + intros Hv.
      destruct (verify_signature_raises _ _ _ Hv)
        as [[_ E] | [[_ E] | [Hs [_ H]]]]; try discriminate. now split.
    + intros [Hs [s [h [Hh [Hc Ha]]]]].
      unfold verify_signature. fold (signature_header request).
      destruct secret as [|c0 secret']; [congruence|]. cbn [truthy negb].
      rewrite Hh. destruct s as [|c s].
      * cbn in Hc. injection Hc as <-. discriminate.
      * rewrite Hc. cbn [bind]. unfold compare_digest. now rewrite Ha.
Qed.

Lemma split_app_sep sep d rest :
  contains d (String sep "") = false ->
  split sep (d ++ String sep rest) = d :: split sep rest.
Proof.
  induction d as [|c d IH]; intros H.
  - cbn. now rewrite Ascii.eqb_refl.
  - apply contains_cons_false in H. destruct H as [Hc Hd].
    cbn [String.append split]. now rewrite Hc, (IH Hd).
Qed.

(** X21.  Of a header value [sha256=<d>=<tail>], where [<d>] holds no [=],
    only [<d>] is compared: whatever follows the second [=] has no effect
    on the outcome. *)
Theorem text_after_second_eq_is_ignored :
  forall (secret : string) (request : Request) (d tail : string),
    secret <> "" ->
    contains d "=" = false ->
    signature_header request
    = Some (sha256_prefix ++ d ++ String "=" tail)%string ->
    sig_hash_of (sha256_prefix ++ d ++ String "=" tail) = Ok d /\
    (verify_signature secret request = Ok tt <->
     d = expected_hash secret (body request)).
Proof.
  intros secret request d tail Hs Hd Hh.
  assert (Hc : sig_hash_of (sha256_prefix ++ d ++ String "=" tail) = Ok d).
  { unfold sig_hash_of, startswith, sha256_prefix.
    cbn [String.append String.prefix split Ascii.eqb Bool.eqb].
    rewrite prefix_empty, (split_app_sep _ _ _ Hd).
    destruct (split_cons "=" tail) as [h [t ->]]. reflexivity. }
  split; [exact Hc|].
  rewrite verify_signature_ok_iff. split.
  - intros [_ [s [Es [_ Hs']]]].
    assert (E : s = (sha256_prefix ++ d ++ String "=" tail)%string)
      by congruence.
    subst s. rewrite Hc in Hs'. now apply Ok_inj in Hs'.
  - intros E. split; [exact Hs|]. eexists. split; [exact Hh|].
    split; [discriminate|]. now rewrite Hc, E.
Qed.

Lemma text_after_second_eq_is_ignored_witness :
  sig_hash_of (sha256_prefix ++ sign_payload msg1_body "secret123"
               ++ String "=" "anything")
  = Ok (sign_payload msg1_body "secret123").
Proof.
  refine (proj1 (text_after_second_eq_is_ignored "secret123"
                   (signed_request "x-signature"
                      (sha256_prefix ++ sign_payload msg1_body "secret123"
                       ++ String "=" "anything")%string msg1_body)
                   (sign_payload msg1_body "secret123") "anything" _ _ _)).
  - discriminate.
  - vm_compute. reflexivity.
  - reflexivity.
Defined.

(* ================================================================== *)
(** * The stored text of a timestamp *)
(* ================================================================== *)

(** X22.  The text [insert_message] stores for a UTC timestamp identifies
    the timestamp, and two such texts compare as their timestamps do; so
    [ORDER BY ts], [MIN(ts)], [MAX(ts)] and [ts >= ?] act on the
    instants. *)
Theorem stored_timestamp_text_orders :
  forall t1 t2 : datetime,
    valid_utc t1 = true -> valid_utc t2 = true ->
    (isoformat t1 = isoformat t2 <-> t1 = t2) /\
    String.compare (isoformat t1) (isoformat t2) = dt_compare t1 t2 /\
    String.leb (isoformat t1) (isoformat t2) = dt_leb t1 t2.
Proof.
  intros t1 t2 V1 V2. split; [|split].
  - split; [now apply isoformat_inj | now intros ->].
  - now apply isoformat_compare.
  - now apply isoformat_leb.
Qed.

Lemma stored_timestamp_text_orders_witness :
  String.leb (isoformat (utc 2023 1 1 10 0 0 0))
             (isoformat (utc 2023 1 1 10 0 0 500))
  = dt_leb (utc 2023 1 1 10 0 0 0) (utc 2023 1 1 10 0 0 500).
Proof.
  exact (proj2 (proj2 (stored_timestamp_text_orders
                         (utc 2023 1 1 10 0 0 0) (utc 2023 1 1 10 0 0 500)
                         eq_refl eq_refl))).
Defined.

(* ================================================================== *)
(** * The shape of the exposition text *)
(* ================================================================== *)

Lemma bucket_lines_length name base les buckets : forall i,
  List.length (bucket_lines name base les buckets i) = List.length les.
Proof.
  induction les as [|le les IH]; intros i; cbn; [reflexivity | now rewrite IH].
Qed.

Lemma render_lines_length frepr m :
  List.length (render_lines frepr m)
  = (List.length (counters m) + 10 * List.length (histograms m))%nat.
Proof.
  unfold render_lines.
  rewrite length_app, length_map. f_equal.
  induction (histograms m) as [|[[name labels] buckets] hs IH];
    [reflexivity|].
  cbn [flat_map]. rewrite length_app, IH.
  unfold render_histogram. rewrite length_app, bucket_lines_length.
  cbn [List.length latency_buckets]. lia.
Qed.

Lemma count_line_feeds_app a b :
  count_line_feeds (a ++ b)
  = (count_line_feeds a + count_line_feeds b)%nat.
Proof.
  induction a as [|c a IH]; [reflexivity|].
  cbn [String.append count_line_feeds]. rewrite IH. lia.
Qed.

Lemma single_line_app a b :
  single_line a -> single_line b -> single_line (a ++ b).
Proof.
  unfold single_line. intros Ha Hb. rewrite count_line_feeds_app. lia.
Qed.

Lemma digit_not_line_feed n : Ascii.eqb (digit (n mod 10)) line_feed = false.
Proof.
  pose proof (Z.mod_pos_bound n 10 ltac:(lia)) as Hd.
  generalize dependent (n mod 10). intros d Hd.
  assert (H : d = 0 \/ d = 1 \/ d = 2 \/ d = 3 \/ d = 4 \/ d = 5 \/ d = 6
              \/ d = 7 \/ d = 8 \/ d = 9) by lia.
  repeat (destruct H as [-> | H]; [reflexivity|]). now subst d.
Qed.

Lemma single_line_decimal fuel : forall n acc,
  single_line acc -> single_line (decimal fuel n acc).
Proof.
  induction fuel as [|fuel IH]; intros n acc Hacc; [exact Hacc|].
  cbn [decimal].
  assert (H : single_line (String (digit (n mod 10)) acc)).
  { unfold single_line in *. cbn [count_line_feeds].
    now rewrite digit_not_line_feed, Hacc. }
  destruct (n / 10 =? 0); [exact H | now apply IH].
Qed.

Lemma single_line_str_of_int n : single_line (str_of_int n).
Proof.
  unfold str_of_int. destruct (n <? 0).
  - change (String "-" ?s) with ("-" ++ s)%string.
    apply single_line_app; [reflexivity|].
    now apply single_line_decimal.
  - now apply single_line_decimal.
Qed.

Lemma single_line_joined (pairs : Labels) :
  Forall (fun kv => single_line (fst kv) /\ single_line (snd kv)) pairs ->
  single_line (String.concat "," (map render_pair pairs)).
Proof.
  induction 1 as [|p pairs [Hk Hv] _ IH]; [reflexivity|].
  assert (Hp : single_line (render_pair p)).
  { unfold render_pair.
    repeat (apply single_line_app; try assumption; try reflexivity). }
  destruct pairs as [|p' pairs]; [exact Hp|].
  change (String.concat "," (map render_pair (p :: p' :: pairs)))
    with (render_pair p ++ ","
          ++ String.concat "," (map render_pair (p' :: pairs)))%string.
  repeat (apply single_line_app; try assumption; try reflexivity).
Qed.

Lemma single_line_sample name pairs value :
  single_line name ->
  Forall (fun kv => single_line (fst kv) /\ single_line (snd kv)) pairs ->
  single_line value ->
  single_line (sample_line name pairs value).
Proof.
  intros Hn Hp Hv. unfold sample_line.
  pose proof (single_line_joined pairs Hp) as Hj.
  destruct pairs;
    repeat (apply single_line_app; try assumption; try reflexivity).
Qed.

Lemma single_line_sorted (labels : Labels) :
  Forall (fun kv => single_line (fst kv) /\ single_line (snd kv)) labels ->
  Forall (fun kv => single_line (fst kv) /\ single_line (snd kv))
         (sorted labels).
Proof. apply Permutation_Forall, sorted_perm. Qed.

Lemma single_line_float_int x : single_line (float_int_repr x).
Proof.
  unfold float_int_repr.
  apply single_line_app; [apply single_line_str_of_int | reflexivity].
Qed.

Lemma single_line_exposition frepr m :
  (forall x, single_line (frepr x)) ->
  single_line_registry m ->
  Forall single_line (exposition sorted frepr m).
Proof.
  intros Hf [Hc Hh]. unfold exposition. apply Forall_app. split.
  - apply Forall_map. eapply Forall_impl; [|exact Hc].
    intros [[name labels] value] [Hn Hl]. cbn [fst snd] in *.
    apply single_line_sample;
      [exact Hn | now apply single_line_sorted | apply single_line_float_int].
  - apply Forall_flat_map. eapply Forall_impl; [|exact Hh].
    intros [[name labels] buckets] [Hn Hl]. cbn [fst snd] in *.
    pose proof (single_line_sorted labels Hl) as Hs.
    unfold histogram_samples. apply Forall_app. split.
    + apply Forall_map. apply Forall_forall. intros [bound v] Hin.
      cbn [fst snd]. apply in_combine_l in Hin.
      apply single_line_sample;
        [apply single_line_app; [exact Hn | reflexivity] |
         | apply single_line_float_int].
      apply Forall_app. split; [exact Hs|]. constructor; [|constructor].
      cbn [fst snd]. split; [reflexivity|].
      unfold bucket_bounds in Hin. apply in_app_or in Hin.
      destruct Hin as [Hin | [<- | []]]; [|reflexivity].
      apply in_map_iff in Hin. destruct Hin as [le [<- _]].
      apply single_line_str_of_int.
    + repeat constructor;
        (apply single_line_sample;
         [apply single_line_app; [exact Hn | reflexivity] | exact Hs |]);
        [apply Hf | apply single_line_str_of_int].
Qed.

Lemma count_line_feeds_concat (lines : list string) :
  Forall single_line lines ->
  count_line_feeds (String.concat newline lines)
  = Nat.pred (List.length lines).
Proof.
  induction 1 as [|l lines Hl _ IH]; [reflexivity|].
  destruct lines as [|l' lines]; [exact Hl|].
  change (String.concat newline (l :: l' :: lines))
    with (l ++ newline ++ String.concat newline (l' :: lines))%string.
  rewrite !count_line_feeds_app, IH, Hl. reflexivity.
Qed.

(** X23.  When no metric name, label or rendered sum holds a line feed,
    the text [render_metrics] returns has one line feed for each counter
    series and ten for each histogram series, each ending a line; the text
    of the empty registry is a single line feed. *)
Theorem render_line_count :
  forall (float_repr : Q -> string) (m : Metrics),
    (forall x, single_line (float_repr x)) ->
    single_line_registry m ->
    count_line_feeds (render_metrics float_repr m)
    = Nat.max 1 (List.length (counters m) + 10 * List.length (histograms m)).
Proof.
  intros float_repr m Hf Hm. unfold render_metrics.
  rewrite count_line_feeds_app, render_lines_exposition.
  rewrite (count_line_feeds_concat _ (single_line_exposition _ _ Hf Hm)).
  rewrite <- render_lines_exposition, render_lines_length.
  change (count_line_feeds newline) with 1%nat. lia.
Qed.

Lemma render_line_count_witness :
  count_line_feeds (render_metrics (fun _ => "2.5") registry1) = 11%nat.
Proof.
  apply (render_line_count (fun _ => "2.5") registry1).
  - intros x. reflexivity.
  - split; vm_compute; repeat constructor.
Defined.

(* ================================================================== *)
(** * Settings that load *)
(* ================================================================== *)

(** X24.  Once the settings have loaded, the secret is not empty: the gate
    never answers 503, readiness is exactly the reachability of the
    database, and the log level is the one of the environment, or [INFO]
    when it gives none. *)
Theorem loaded_settings_configure_gate :
  forall (env : string -> option string) (st : Settings) (request : Request)
         (db_ok : bool),
    load_settings env = Some st ->
    WEBHOOK_SECRET st <> "" /\
    env "WEBHOOK_SECRET" = Some (WEBHOOK_SECRET st) /\
    env "DATABASE_URL" = Some (DATABASE_URL st) /\
    verify_signature (WEBHOOK_SECRET st) request
    <> Raise (HTTPException 503 "Server configuration error") /\
    (health_ready db_ok (WEBHOOK_SECRET st) = Ok "ready" <-> db_ok = true) /\
    LOG_LEVEL st = match env "LOG_LEVEL" with
                   | Some level => level
                   | None => "INFO"
                   end.
Proof.
  intros env st request db_ok. unfold load_settings.
  destruct (env "WEBHOOK_SECRET") as [secret|]; [|discriminate].
  destruct (env "DATABASE_URL") as [url|]; [|discriminate].
  destruct secret as [|c secret]; [discriminate|]. cbn [String.length Nat.leb].
  intros H. injection H as <-. cbn [WEBHOOK_SECRET DATABASE_URL LOG_LEVEL].
  split; [discriminate|]. split; [reflexivity|]. split; [reflexivity|].
  split; [|split; [|reflexivity]].
  - intros Hv.
    destruct (verify_signature_raises _ _ _ Hv)
      as [[E _] | [[_ E] | [_ [E _]]]]; discriminate.
  - unfold health_ready. cbn [truthy]. destruct db_ok; cbn [andb];
      split; congruence.
Qed.

Lemma loaded_settings_configure_gate_witness :
  verify_signature "secret123" msg1_request
  <> Raise (HTTPException 503 "Server configuration error").
Proof.
  exact (proj1 (proj2 (proj2 (proj2
           (loaded_settings_configure_gate test_env
              (mkSettings "secret123" "sqlite:///test_messages.db" "INFO")
              msg1_request true eq_refl))))).
Defined.
